(** * Torch FedAvg on MNIST: the get-started script of the Substra documentation

    A shallow embedding of
    [substrafl_examples/get_started/plot_substrafl_torch_fedavg.py].

    The script is a sequence of statements and loops over an external
    platform (the Substra client, SubstraFL, pandas, matplotlib).  Calls
    into the platform are the actions of a small free monad; a platform is
    a handler that answers each action with a value or a failure.  The
    values the script computes itself (dictionaries, permissions, specs,
    nodes, the scoring function, the torch dataset) are ordinary functions. *)

From Stdlib Require Import List String Ascii Bool Arith ZArith QArith Lia.
From Stdlib Require Import DecimalString.
Import ListNotations.

Local Open Scope string_scope.
Local Open Scope list_scope.

(* ===================================================================== *)
(** ** Python values used by the script *)
(* ===================================================================== *)

(** A Python [dict] with string keys: insertion ordered; assigning to a key
    that is present replaces the value and keeps the key's position. *)
Module PyDict.
Section WithValue.
Context {V : Type}.

Definition dict : Type := list (string * V).

Fixpoint set (d : dict) (k : string) (v : V) : dict :=
  match d with
  | [] => [(k, v)]
  | (k', v') :: d' =>
      if String.eqb k k' then (k', v) :: d' else (k', v') :: set d' k v
  end.

Fixpoint get (d : dict) (k : string) : option V :=
  match d with
  | [] => None
  | (k', v') :: d' => if String.eqb k k' then Some v' else get d' k
  end.

Definition keys (d : dict) : list string := map fst d.
End WithValue.
Arguments dict : clear implicits.
End PyDict.
Import PyDict.

(** [str(n)] for a natural number, as used by the f-string [f"org_{i+1}"]. *)
Definition str_of_nat (n : nat) : string := NilEmpty.string_of_uint (Nat.to_uint n).

(** The newline character of ["\nPerformance Table: \n"]. *)
Definition nl : string := String (ascii_of_nat 10) EmptyString.

(** Truth value of a Python string: only the empty string is falsy. *)
Definition truthy (s : string) : bool :=
  match s with EmptyString => false | String _ _ => true end.

(** A [pathlib.Path] below [Path.cwd()], as its list of components. *)
Definition Path : Type := list string.

Definition org_id : Type := string.

(* ===================================================================== *)
(** ** Records handed to the platform *)
(* ===================================================================== *)

(** A client session, as the platform hands it out. *)
Inductive Client : Type := Session (n : nat).

Record Permissions : Type := {
  public : bool;
  authorized_ids : list org_id
}.

Record DatasetSpec : Type := {
  name : string;
  type : string;
  data_opener : Path;
  description : Path;
  permissions : Permissions;
  logs_permission : Permissions
}.

Record DataSampleSpec : Type := {
  data_manager_keys : list string;
  test_only : bool;
  path : Path
}.

Record Dependency : Type := { pypi_dependencies : list string }.

(** The only metric function of the script is [accuracy] (defined below). *)
Inductive metric_function : Type := accuracy_fn.

(** The torch objects of the script, as the data they are built from. *)
Inductive layer : Type :=
| Conv2d (in_channels out_channels kernel_size : nat)
| Linear (in_features out_features : nat).

Record Optimizer : Type := { optim_name : string; lr : Q }.

Record NpIndexGenerator : Type := { batch_size : nat; num_updates : nat }.

Inductive dataset_class : Type := TorchDataset_cls.

Record TorchFedAvgAlgo : Type := {
  model : list layer;
  criterion : string;
  optimizer : Optimizer;
  index_generator : NpIndexGenerator;
  dataset : dataset_class;
  seed : nat
}.

(** [FedAvg()] is built without arguments. *)
Inductive Strategy : Type := FedAvg.

Record TrainDataNode : Type := {
  organization_id : org_id;
  data_manager_key : string;
  data_sample_keys : list string
}.

Record TestDataNode : Type := {
  test_organization_id : org_id;
  test_data_manager_key : string;
  test_data_sample_keys : list string;
  metric_keys : list string
}.

Record AggregationNode : Type := { aggregation_organization_id : org_id }.

Record EvaluationStrategy : Type := {
  test_data_nodes : list TestDataNode;
  rounds : nat
}.

(** The keyword arguments of [execute_experiment]. *)
Record Experiment : Type := {
  experiment_client : Client;
  algo : TorchFedAvgAlgo;
  strategy : Strategy;
  train_data_nodes : list TrainDataNode;
  evaluation_strategy : EvaluationStrategy;
  aggregation_node : AggregationNode;
  num_rounds : nat;
  experiment_folder : Path;
  dependencies : Dependency
}.

Record ComputePlan : Type := { key : string }.

(** One row of the performance table. *)
Record Performance : Type := {
  worker : org_id;
  round_idx : nat;
  performance : Q
}.

Inductive printed : Type :=
| PStr (s : string)
| PTable (rows : list Performance)
| PModel (m : string).

Inductive plt_call : Type :=
| plt_title (s : string)
| plt_xlabel (s : string)
| plt_ylabel (s : string)
| plt_plot (xs : list nat) (ys : list Q) (label : string)
| plt_legend (loc : string)
| plt_show.

(* ===================================================================== *)
(** ** External calls and programs over them *)
(* ===================================================================== *)

Inductive call : Type :=
| NewClient (backend_type : string)
| organization_info (c : Client)
| mkdir (p : Path)
| setup_mnist (data_path : Path) (n_orgs : nat)
| add_dataset (c : Client) (d : DatasetSpec)
| add_data_sample (c : Client) (s : DataSampleSpec)
| add_metric (c : Client) (f : metric_function) (p : Permissions) (d : Dependency)
| execute_experiment (e : Experiment)
| get_performances (c : Client) (compute_plan_key : string)
| df_query (df : list Performance) (expr : string)
| print (x : printed)
| plt (x : plt_call)
| download_algo_files (c : Client) (compute_plan_key : string)
    (round : option nat) (dest_folder : Path)
| load_algo (input_folder : Path).

(** What each call returns when it does not fail. *)
Definition resp (c : call) : Type :=
  match c with
  | NewClient _ => Client
  | organization_info _ => org_id
  | mkdir _ => unit
  | setup_mnist _ _ => unit
  | add_dataset _ _ => string
  | add_data_sample _ _ => string
  | add_metric _ _ _ _ => string
  | execute_experiment _ => ComputePlan
  | get_performances _ _ => list Performance
  | df_query _ _ => list Performance
  | print _ => unit
  | plt _ => unit
  | download_algo_files _ _ _ _ => unit
  | load_algo _ => string
  end.

(** A failure raised by the platform is opaque to the script. *)
Definition exn : Type := string.

(** What can end the script early: a failure of an external call, or one of
    the exceptions Python raises for the script's own statements. *)
Inductive failure : Type :=
| External (e : exn)
| AssertionError (msg : string)
| KeyError (k : string)
| IndexError
| OverflowError
| NameError (x : string)
| ValueError (msg : string)
| RuntimeError (msg : string).

(** A program returns, raises, makes an external call and goes on with its
    answer, or protects a block of statements:
    [Try body handler k] is
    [try: body] / [except Exception as e: handler(e)], followed by [k]. *)
Inductive prog (R : Type) : Type :=
| Ret (r : R)
| Raise (e : failure)
| Do (c : call) (k : resp c -> prog R)
| Try (body : prog unit) (handler : failure -> prog unit) (k : prog R).
Arguments Ret {R} r.
Arguments Raise {R} e.
Arguments Do {R} c k.
Arguments Try {R} body handler k.

Fixpoint bind {A B : Type} (p : prog A) (f : A -> prog B) : prog B :=
  match p with
  | Ret a => f a
  | Raise e => Raise e
  | Do c k => Do c (fun v => bind (k v) f)
  | Try body handler k => Try body handler (bind k f)
  end.

Definition ext (c : call) : prog (resp c) := Do c Ret.

Declare Scope prog_scope.
Delimit Scope prog_scope with prog.
Notation "x <- p ;; q" := (bind p (fun x => q))
  (at level 100, p at next level, right associativity) : prog_scope.
Notation "p ;; q" := (bind p (fun _ => q))
  (at level 100, right associativity) : prog_scope.
Local Open Scope prog_scope.

(** [for a in l: s = body(a, s)] *)
Fixpoint for_each {A S : Type} (l : list A) (body : A -> S -> prog S) (s : S)
  : prog S :=
  match l with
  | [] => Ret s
  | a :: l' => s' <- body a s ;; for_each l' body s'
  end.

(** [d[k]] *)
Definition getitem {V : Type} (d : dict V) (k : string) : prog V :=
  match get d k with
  | Some v => Ret v
  | None => Raise (KeyError k)
  end.

(** [l[i]] for a non-negative index. *)
Definition index {A : Type} (l : list A) (i : nat) : prog A :=
  match nth_error l i with
  | Some a => Ret a
  | None => Raise IndexError
  end.

(** [assert b, msg] *)
Definition assert (b : bool) (msg : string) : prog unit :=
  if b then Ret tt else Raise (AssertionError msg).

(** [enumerate(l)] *)
Definition enumerate {A : Type} (l : list A) : list (nat * A) :=
  combine (seq 0 (List.length l)) l.

(* --------------------------------------------------------------------- *)
(** *** Running a program against a platform *)

(** One external call together with its answer. *)
Record event : Type := Ev { ev_call : call; ev_answer : exn + resp ev_call }.

Definition trace : Type := list event.

Inductive outcome (R : Type) : Type :=
| Ok (r : R)
| Fail (e : failure).
Arguments Ok {R} r.
Arguments Fail {R} e.

(** A platform with internal state [W]. *)
Definition platform (W : Type) : Type :=
  forall c : call, W -> (exn + resp c) * W.

Fixpoint run {W R : Type} (h : platform W) (p : prog R) (w : W)
  : outcome R * W * trace :=
  match p with
  | Ret r => (Ok r, w, [])
  | Raise e => (Fail e, w, [])
  | Do c k =>
      match h c w with
      | (inl e, w') => (Fail (External e), w', [Ev c (inl e)])
      | (inr v, w') =>
          let '(o, w'', t) := run h (k v) w' in (o, w'', Ev c (inr v) :: t)
      end
  | Try body handler k =>
      match run h body w with
      | (Ok _, w1, t1) =>
          let '(o, w2, t2) := run h k w1 in (o, w2, t1 ++ t2)
      | (Fail e, w1, t1) =>
          match run h (handler e) w1 with
          | (Ok _, w2, t2) =>
              let '(o, w3, t3) := run h k w2 in (o, w3, t1 ++ t2 ++ t3)
          | (Fail e', w2, t2) => (Fail e', w2, t1 ++ t2)
          end
      end
  end.

(** A program without [try]: whoever wrote it authored no handler. *)
Fixpoint handler_free {R : Type} (p : prog R) : Prop :=
  match p with
  | Ret _ => True
  | Raise _ => True
  | Do c k => forall v, handler_free (k v)
  | Try _ _ _ => False
  end.

(* ===================================================================== *)
(** ** The script *)
(* ===================================================================== *)

(** *** Setup: three clients, the [clients] dictionary and the organization ids *)

Definition N_CLIENTS : nat := 3.

Record Orgs : Type := {
  clients : dict Client;
  ORGS_ID : list org_id;
  ALGO_ORG_ID : org_id;
  DATA_PROVIDER_ORGS_ID : list org_id
}.

Definition setup : prog Orgs :=
  client_0 <- ext (NewClient "subprocess") ;;
  client_1 <- ext (NewClient "subprocess") ;;
  client_2 <- ext (NewClient "subprocess") ;;
  id_0 <- ext (organization_info client_0) ;;
  id_1 <- ext (organization_info client_1) ;;
  id_2 <- ext (organization_info client_2) ;;
  let clients := set (set (set [] id_0 client_0) id_1 client_1) id_2 client_2 in
  let ORGS_ID := keys clients in
  ALGO_ORG_ID <- index ORGS_ID 0 ;;
  Ret {| clients := clients;
         ORGS_ID := ORGS_ID;
         ALGO_ORG_ID := ALGO_ORG_ID;
         DATA_PROVIDER_ORGS_ID := skipn 1 ORGS_ID |}.

(** *** Data preparation *)

Definition data_path : Path := ["tmp"; "data_mnist"].

Definition prepare_data (o : Orgs) : prog unit :=
  ext (mkdir ["tmp"]) ;;
  ext (setup_mnist data_path (List.length (DATA_PROVIDER_ORGS_ID o))).

(** *** Dataset registration *)

Definition assets_directory : Path := ["torch_fedavg_assets"].

(** The three dictionaries filled by the loop, and the loop variable
    [client], which stays bound after the loop and is read again when the
    performances are fetched. *)
Record Registered : Type := {
  dataset_keys : dict string;
  train_datasample_keys : dict string;
  test_datasample_keys : dict string;
  client : option Client
}.

Definition permissions_dataset (o : Orgs) : Permissions :=
  {| public := false; authorized_ids := [ALGO_ORG_ID o] |}.

Definition dataset_spec (o : Orgs) : DatasetSpec :=
  {| name := "MNIST";
     type := "npy";
     data_opener := assets_directory ++ ["dataset"; "mnist_opener.py"];
     description := assets_directory ++ ["dataset"; "description.md"];
     permissions := permissions_dataset o;
     logs_permission := permissions_dataset o |}.

Definition org_folder (i : nat) : string := String.append "org_" (str_of_nat (i + 1)).

(** The body of [for i, org_id in enumerate(DATA_PROVIDER_ORGS_ID)]. *)
Definition register_org (o : Orgs) (ix : nat * org_id) (r : Registered)
  : prog Registered :=
  let '(i, org) := ix in
  client <- getitem (clients o) org ;;
  k <- ext (add_dataset client (dataset_spec o)) ;;
  let dataset_keys := set (dataset_keys r) org k in
  k_assert <- getitem dataset_keys org ;;
  assert (truthy k_assert) "Missing dataset key" ;;
  k_train <- getitem dataset_keys org ;;
  s_train <- ext (add_data_sample client
                    {| data_manager_keys := [k_train];
                       test_only := false;
                       path := data_path ++ [org_folder i; "train"] |}) ;;
  let train_datasample_keys := set (train_datasample_keys r) org s_train in
  k_test <- getitem dataset_keys org ;;
  s_test <- ext (add_data_sample client
                   {| data_manager_keys := [k_test];
                      test_only := true;
                      path := data_path ++ [org_folder i; "test"] |}) ;;
  Ret {| dataset_keys := dataset_keys;
         train_datasample_keys := train_datasample_keys;
         test_datasample_keys := set (test_datasample_keys r) org s_test;
         client := Some client |}.

Definition no_registration : Registered :=
  {| dataset_keys := []; train_datasample_keys := [];
     test_datasample_keys := []; client := None |}.

Definition register_datasets (o : Orgs) : prog Registered :=
  for_each (enumerate (DATA_PROVIDER_ORGS_ID o)) (register_org o) no_registration.

(** *** Metric registration *)

Definition permissions_metric (o : Orgs) : Permissions :=
  {| public := false;
     authorized_ids := [ALGO_ORG_ID o] ++ DATA_PROVIDER_ORGS_ID o |}.

Definition metric_deps : Dependency :=
  {| pypi_dependencies := ["numpy==1.23.1"; "scikit-learn==1.1.1"] |}.

Definition register_metric (o : Orgs) : prog string :=
  c <- getitem (clients o) (ALGO_ORG_ID o) ;;
  ext (add_metric c accuracy_fn (permissions_metric o) metric_deps).

(** *** Machine learning components *)

Definition CNN : list layer :=
  [Conv2d 1 32 5; Conv2d 32 32 5; Conv2d 32 64 5;
   Linear (3 * 3 * 64) 256; Linear 256 10].

Definition NUM_UPDATES : nat := 100.
Definition BATCH_SIZE : nat := 32.

Definition MyAlgo : TorchFedAvgAlgo :=
  {| model := CNN;
     criterion := "CrossEntropyLoss";
     optimizer := {| optim_name := "Adam"; lr := 1 # 1000 |};
     index_generator := {| batch_size := BATCH_SIZE; num_updates := NUM_UPDATES |};
     dataset := TorchDataset_cls;
     seed := 42 |}.

(** *** Train and test nodes *)

Definition add_train_node (r : Registered) (org : org_id)
    (nodes : list TrainDataNode) : prog (list TrainDataNode) :=
  dk <- getitem (dataset_keys r) org ;;
  sk <- getitem (train_datasample_keys r) org ;;
  Ret (nodes ++ [{| organization_id := org;
                    data_manager_key := dk;
                    data_sample_keys := [sk] |}]).

Definition add_test_node (r : Registered) (metric_key : string) (org : org_id)
    (nodes : list TestDataNode) : prog (list TestDataNode) :=
  dk <- getitem (dataset_keys r) org ;;
  sk <- getitem (test_datasample_keys r) org ;;
  Ret (nodes ++ [{| test_organization_id := org;
                    test_data_manager_key := dk;
                    test_data_sample_keys := [sk];
                    metric_keys := [metric_key] |}]).

(** *** Running the experiment *)

Definition NUM_ROUNDS : nat := 3.

Definition algo_deps : Dependency :=
  {| pypi_dependencies := ["numpy==1.23.1"; "torch==1.11.0"] |}.

(** [EvaluationStrategy(test_data_nodes=..., rounds=...)]: SubstraFL's
    constructor refuses an empty list of test nodes with a [ValueError].
    (It also checks [rounds]; the script passes the constant 1, which it
    accepts.) *)
Definition EvaluationStrategy_init (test : list TestDataNode) (rounds : nat)
  : prog EvaluationStrategy :=
  match test with
  | [] => Raise (ValueError "test_data_nodes lists cannot be empty")
  | _ :: _ => Ret {| test_data_nodes := test; rounds := rounds |}
  end.

Definition experiment (o : Orgs) (c : Client) (train : list TrainDataNode)
    (my_eval_strategy : EvaluationStrategy) : Experiment :=
  {| experiment_client := c;
     algo := MyAlgo;
     strategy := FedAvg;
     train_data_nodes := train;
     evaluation_strategy := my_eval_strategy;
     aggregation_node := {| aggregation_organization_id := ALGO_ORG_ID o |};
     num_rounds := NUM_ROUNDS;
     experiment_folder := ["tmp"; "experiment_summaries"];
     dependencies := algo_deps |}.

(** *** Results *)

(** The expression [f"worker == '{id}'"]: the id is spliced into the text
    as it is. *)
Definition query_expr (id : org_id) : string :=
  String.append "worker == '" (String.append id "'").

(** The body of [for id in DATA_PROVIDER_ORGS_ID]: pandas evaluates the
    expression on the table, and the columns [round_idx] and [performance]
    of what it returns are plotted. *)
Definition plot_worker (performances_df : list Performance) (id : org_id)
    (_ : unit) : prog unit :=
  df <- ext (df_query performances_df (query_expr id)) ;;
  ext (plt (plt_plot (map round_idx df) (map performance df) id)).

Definition algo_files_folder : Path := ["tmp"; "algo_files"].

(** The module-level variables a reader of the script is interested in. *)
Record Final : Type := {
  registered : Registered;
  metric_key : string;
  train_nodes : list TrainDataNode;
  test_nodes : list TestDataNode;
  compute_plan : ComputePlan;
  performances_df : list Performance;
  loaded_model : string
}.

(** Listing and plotting the results, downloading the model. *)
Definition explore (o : Orgs) (r : Registered) (compute_plan : ComputePlan)
  : prog (list Performance * string) :=
  c_last <- match client r with
            | Some c => Ret c
            | None => Raise (NameError "client")
            end ;;
  df <- ext (get_performances c_last (key compute_plan)) ;;
  ext (print (PStr (String.append nl (String.append "Performance Table: " nl)))) ;;
  ext (print (PTable df)) ;;
  ext (plt (plt_title "Test dataset results")) ;;
  ext (plt (plt_xlabel "Rounds")) ;;
  ext (plt (plt_ylabel "Accuracy")) ;;
  for_each (DATA_PROVIDER_ORGS_ID o) (plot_worker df) tt ;;
  ext (plt (plt_legend "lower right")) ;;
  ext (plt plt_show) ;;
  client_to_dowload_from <- index (DATA_PROVIDER_ORGS_ID o) 0 ;;
  c_down <- getitem (clients o) client_to_dowload_from ;;
  ext (download_algo_files c_down (key compute_plan) None algo_files_folder) ;;
  m <- ext (load_algo algo_files_folder) ;;
  ext (print (PModel m)) ;;
  Ret (df : list Performance, m : string).

(** Everything after the setup. *)
Definition main (o : Orgs) : prog Final :=
  prepare_data o ;;
  r <- register_datasets o ;;
  metric_key <- register_metric o ;;
  train <- for_each (DATA_PROVIDER_ORGS_ID o) (add_train_node r) [] ;;
  test <- for_each (DATA_PROVIDER_ORGS_ID o) (add_test_node r metric_key) [] ;;
  my_eval_strategy <- EvaluationStrategy_init test 1 ;;
  c_algo <- getitem (clients o) (ALGO_ORG_ID o) ;;
  compute_plan <- ext (execute_experiment
                         (experiment o c_algo train my_eval_strategy)) ;;
  res <- explore o r compute_plan ;;
  Ret {| registered := r;
         metric_key := metric_key;
         train_nodes := train;
         test_nodes := test;
         compute_plan := compute_plan;
         performances_df := fst res;
         loaded_model := snd res |}.

Definition script : prog Final := o <- setup ;; main o.

(* ===================================================================== *)
(** ** Functions that run on the organizations *)
(* ===================================================================== *)

(** What the opener returns: the images (rows of integer pixel values) and
    their integer labels. *)
Record datasamples : Type := {
  images : list (list (list Z));
  labels : list Z
}.

(** What numpy raises for an index outside an array: [IndexError] when the
    index fits a 64-bit integer, [OverflowError] when it does not. *)
Definition index_failure (idx : Z) : failure :=
  if ((- 2 ^ 63 <=? idx) && (idx <? 2 ^ 63))%Z then IndexError
  else OverflowError.

(** [a[idx]] for a numpy array and a Python integer: a negative index counts
    from the end.  (An array has fewer than [2 ^ 63] items, so an index
    within it always fits.) *)
Definition py_index {A : Type} (l : list A) (idx : Z) : failure + A :=
  let n := Z.of_nat (List.length l) in
  let i := if (idx <? 0)%Z then (idx + n)%Z else idx in
  if ((0 <=? i) && (i <? n))%Z then
    match nth_error l (Z.to_nat i) with
    | Some a => inr a
    | None => inl (index_failure idx)
    end
  else inl (index_failure idx).

Definition in_bounds {A : Type} (l : list A) (idx : Z) : Prop :=
  (- Z.of_nat (List.length l) <= idx < Z.of_nat (List.length l))%Z.

(** *** The metric: [accuracy] *)

(** A numpy float: a real value or NaN. *)
Inductive np_float : Type :=
| nan
| real (q : Q).

(** A two-dimensional array of shape [(length rows, shape1)]. *)
Record ndarray2 (A : Type) : Type := {
  shape1 : nat;
  rows : list (list A)
}.
Arguments shape1 {A} _.
Arguments rows {A} _.

Module Metric.
Section WithScores.
(** The scores of a prediction row and numpy's "greater than" on them. *)
Context {A : Type} (gtb : A -> A -> bool).

(** numpy and scikit-learn are libraries the metric imports; the three
    functions it uses are stated here as their documentation has them. *)

(** Index of the first maximum, scanning from the left. *)
Fixpoint argmax_from (best : A) (best_i i : nat) (l : list A) : nat :=
  match l with
  | [] => best_i
  | x :: l' =>
      if gtb x best then argmax_from x i (S i) l'
      else argmax_from best best_i (S i) l'
  end.

Definition argmax_row (row : list A) : nat :=
  match row with
  | [] => 0
  | x :: l => argmax_from x 0 1 l
  end.

(** [np.argmax(y_pred, axis=1)]: for every row the index of its first
    maximum; numpy raises [ValueError] when the axis has length zero. *)
Definition argmax_axis1 (y_pred : ndarray2 A) : failure + list Z :=
  if (shape1 y_pred =? 0)%nat then
    inl (ValueError "attempt to get argmax of an empty sequence")
  else inr (map (fun row => Z.of_nat (argmax_row row)) (rows y_pred)).

(** [np.average] of a boolean array, the mean [accuracy_score] ends with:
    the number of [True] entries over the number of entries, and NaN (with a
    warning) for the empty array. *)
Definition average (score : list bool) : np_float :=
  match score with
  | [] => nan
  | _ :: _ =>
      real (inject_Z (Z.of_nat (count_occ bool_dec score true))
            / inject_Z (Z.of_nat (List.length score)))
  end.

(** [sklearn.metrics.accuracy_score(y_true, y_pred)] with its defaults
    ([normalize=True], no sample weights), on one-dimensional integer label
    arrays: it refuses arrays of different lengths and returns the mean of
    [y_true == y_pred]. *)
Definition accuracy_score (y_true y_pred : list Z) : failure + np_float :=
  if (List.length y_true =? List.length y_pred)%nat then
    inr (average (map (fun tp => Z.eqb (fst tp) (snd tp)) (combine y_true y_pred)))
  else
    inl (ValueError "Found input variables with inconsistent numbers of samples").

(** [accuracy(datasamples, predictions_path)], where [y_pred] is the
    array that [np.load(predictions_path)] yields. *)
Definition accuracy (ds : datasamples) (y_pred : ndarray2 A) : failure + np_float :=
  let y_true := labels ds in
  match argmax_axis1 y_pred with
  | inl e => inl e
  | inr classes => accuracy_score y_true classes
  end.
End WithScores.
End Metric.

(** "Greater than" on rational scores. *)
Definition Qgtb (a b : Q) : bool := negb (Qle_bool a b).

(** *** The torch dataset *)

Module TorchDataset.
Section WithFloats.
(** Torch's float32 values: conversion from an integer and division. *)
Context {F : Type} (of_Z : Z -> F) (fdiv : F -> F -> F).

Record t : Type := {
  x : list (list (list Z));
  y : list Z;
  is_inference : bool
}.

(** [__init__(self, datasamples, is_inference)] *)
Definition init (ds : datasamples) (is_inference : bool) : t :=
  {| x := images ds; y := labels ds; is_inference := is_inference |}.

(** [torch.FloatTensor(img[None, ...]) / 255] *)
Definition scaled (img : list (list Z)) : list (list (list F)) :=
  map (map (map (fun p => fdiv (of_Z p) (of_Z 255)))) [img].

(** torch's [F.one_hot(y, num_classes)] for a scalar class value: it
    refuses negative values and values that are not below [num_classes]. *)
Definition one_hot (cls : Z) (num_classes : nat) : failure + list Z :=
  if (cls <? 0)%Z then inl (RuntimeError "Class values must be non-negative.")
  else if (Z.of_nat num_classes <=? cls)%Z then
    inl (RuntimeError "Class values must be smaller than num_classes.")
  else inr (map (fun j => if (Z.of_nat j =? cls)%Z then 1%Z else 0%Z)
                (seq 0 num_classes)).

(** What [__getitem__] returns: the inputs alone, or the inputs with the
    outputs. *)
Inductive item : Type :=
| inputs (x : list (list (list F)))
| inputs_outputs (x : list (list (list F))) (y : list F).

(** [__getitem__(self, idx)] *)
Definition getitem (self : t) (idx : Z) : failure + item :=
  if is_inference self then
    match py_index (x self) idx with
    | inl e => inl e
    | inr img => inr (inputs (scaled img))
    end
  else
    match py_index (x self) idx with
    | inl e => inl e
    | inr img =>
        match py_index (y self) idx with
        | inl e => inl e
        | inr label =>
            match one_hot label 10 with
            | inl e => inl e
            | inr target => inr (inputs_outputs (scaled img) (map of_Z target))
            end
        end
    end.

(** [__len__(self)] *)
Definition len (self : t) : nat := List.length (x self).
End WithFloats.
End TorchDataset.

(* ===================================================================== *)
(** ** The federated-averaging rounds behind [execute_experiment] *)
(* ===================================================================== *)

(** The script only builds [FedAvg()] and calls [execute_experiment]; the
    protocol they stand for belongs to the SDK.  This module states it as
    section 4.1 of the specification describes it. *)
Module FedAvgRounds.

(** A parameter set, flattened to a vector. *)
Definition params : Type := list Q.

(** What the runner does, in order. *)
Inductive step : Type :=
| local_training (round : nat) (org : org_id)
| aggregation (round : nat)
| evaluation (round : nat) (org : org_id).

(** What a run of the rounds leaves: the last global parameters, the number
    of rounds completed, the steps taken, the scores recorded, and whether
    a failing local step aborted it. *)
Record result : Type := {
  global : params;
  completed : nat;
  steps : list step;
  scores : list Performance;
  aborted : bool
}.

Section WithOrganizations.
(** The local step of an organization: from the current global
    parameters to the locally updated ones and the number of samples
    used; [None] when the step fails. *)
Variable local_update : org_id -> params -> option (params * nat).
(** The registered scoring function on an organization's test data. *)
Variable evaluate : org_id -> params -> Q.
(** Weights are the sample counts, or uniform, per configuration. *)
Variable by_sample_count : bool.

(** Modelled from the spec: the weight of an organization's update in the
    aggregation of the external strategy, "each organization's sample
    count (or uniformly, per configuration)". *)
Definition weight (u : params * nat) : Q :=
  if by_sample_count then inject_Z (Z.of_nat (snd u)) else 1.

Definition scale (c : Q) (p : params) : params := map (Qmult c) p.

Fixpoint add (p q : params) : params :=
  match p, q with
  | a :: p', b :: q' => (a + b) :: add p' q'
  | _, _ => []
  end.

(** Modelled from the spec: the running sum of the weighted parameter sets
    the aggregator of the external strategy accumulates. *)
Fixpoint weighted_sum (updates : list (params * nat)) : params :=
  match updates with
  | [] => []
  | u :: us =>
      match us with
      | [] => scale (weight u) (fst u)
      | _ :: _ => add (scale (weight u) (fst u)) (weighted_sum us)
      end
  end.

Definition total_weight (updates : list (params * nat)) : Q :=
  fold_right (fun u acc => weight u + acc) 0 updates.

(** Modelled from the spec: the aggregation step of the external FedAvg
    strategy, which is not part of the script.  "The aggregator computes
    a weighted average of the locally updated parameter sets, weighted
    by each organization's sample count (or uniformly, per
    configuration), producing the next global parameter set." *)
Definition aggregate (updates : list (params * nat)) : params :=
  map (fun s => s / total_weight updates) (weighted_sum updates).

(** Modelled from the spec: the local step of every organization, "starting
    from the current global parameters"; one failing step fails them all. *)
Fixpoint train_all (orgs : list org_id) (g : params)
  : option (list (params * nat)) :=
  match orgs with
  | [] => Some []
  | org :: rest =>
      match local_update org g, train_all rest g with
      | Some u, Some us => Some (u :: us)
      | _, _ => None
      end
  end.

Variable train_orgs : list org_id.
Variable test_orgs : list org_id.
(** Evaluate every [eval_rounds] rounds. *)
Variable eval_rounds : nat.

Definition evaluation_due (r : nat) : bool :=
  match eval_rounds with
  | O => false
  | S _ => (r mod eval_rounds =? 0)%nat
  end.

(** Modelled from the spec: the round loop of the external experiment
    runner, which is not part of the script.  Each round is one local
    training step on every organization followed by one aggregation;
    after a round that is due for evaluation the new global model is
    scored on every test organization and the score is recorded with the
    round index and the organization; the loop ends after the given
    number of rounds, and a failing local step aborts the round's
    aggregation. *)
Fixpoint rounds_from (n : nat) (r : nat) (g : params) : result :=
  match n with
  | O => {| global := g; completed := 0; steps := []; scores := [];
            aborted := false |}
  | S n' =>
      let training := map (local_training r) train_orgs in
      match train_all train_orgs g with
      | None => {| global := g; completed := 0; steps := training;
                   scores := []; aborted := true |}
      | Some updates =>
          let g' := aggregate updates in
          let evals := if evaluation_due r then test_orgs else [] in
          let rest := rounds_from n' (S r) g' in
          {| global := global rest;
             completed := S (completed rest);
             steps := training ++ [aggregation r]
                      ++ map (evaluation r) evals ++ steps rest;
             scores := map (fun org => {| worker := org;
                                          round_idx := r;
                                          performance := evaluate org g' |})
                           evals
                       ++ scores rest;
             aborted := aborted rest |}
      end
  end.

(** Modelled from the spec: the global parameters of the external runner
    after [n] complete rounds of local training and aggregation. *)
Fixpoint global_after (n : nat) (g : params) : params :=
  match n with
  | O => g
  | S n' =>
      match train_all train_orgs g with
      | Some updates => global_after n' (aggregate updates)
      | None => g
      end
  end.
End WithOrganizations.

(** Modelled from the spec: [execute_experiment] of the external SDK on the
    arguments the script passes, starting from the global parameters
    [g0]: the rounds are numbered from 1. *)
Definition execute (local_update : org_id -> params -> option (params * nat))
    (evaluate : org_id -> params -> Q) (by_sample_count : bool)
    (e : Experiment) (g0 : params) : result :=
  rounds_from local_update evaluate by_sample_count
    (map organization_id (train_data_nodes e))
    (map test_organization_id (test_data_nodes (evaluation_strategy e)))
    (rounds (evaluation_strategy e))
    (num_rounds e) 1 g0.

(** The steps of one complete round. *)
Definition round_steps (train_orgs test_orgs : list org_id) (r : nat) : list step :=
  map (local_training r) train_orgs ++ [aggregation r]
  ++ map (evaluation r) test_orgs.

Definition qsum (l : list Q) : Q := fold_right Qplus 0 l.
End FedAvgRounds.

(* ===================================================================== *)
(** ** Observing a run *)
(* ===================================================================== *)

Definition outcome_of {W R : Type} (x : outcome R * W * trace) : outcome R :=
  fst (fst x).

Definition trace_of {W R : Type} (x : outcome R * W * trace) : trace := snd x.

(** The failure an event ended with, if it did. *)
Definition failed (e : event) : option exn :=
  match ev_answer e with
  | inl x => Some x
  | inr _ => None
  end.

(** The key an asset registration returned. *)
Definition returned_key (e : event) : option string :=
  match e with
  | Ev c a =>
      match c return exn + resp c -> option string with
      | add_dataset _ _ | add_data_sample _ _ | add_metric _ _ _ _ =>
          fun a => match a with inr k => Some k | inl _ => None end
      | _ => fun _ => None
      end a
  end.

(** The organization id an [organization_info] call returned. *)
Definition reported_org (e : event) : option (Client * org_id) :=
  match e with
  | Ev c a =>
      match c return exn + resp c -> option (Client * org_id) with
      | organization_info cl =>
          fun a => match a with inr id => Some (cl, id) | inl _ => None end
      | _ => fun _ => None
      end a
  end.

Definition dataset_request (e : event) : option (Client * DatasetSpec) :=
  match ev_call e with
  | add_dataset c d => Some (c, d)
  | _ => None
  end.

Definition sample_request (e : event) : option (Client * DataSampleSpec) :=
  match ev_call e with
  | add_data_sample c s => Some (c, s)
  | _ => None
  end.

Definition experiment_request (e : event) : option Experiment :=
  match ev_call e with
  | execute_experiment x => Some x
  | _ => None
  end.

(** The permission objects a call attaches to the asset it registers. *)
Definition dataset_permissions (e : event) : list Permissions :=
  match ev_call e with
  | add_dataset _ d => [permissions d; logs_permission d]
  | _ => []
  end.

Definition metric_permissions (e : event) : list Permissions :=
  match ev_call e with
  | add_metric _ _ p _ => [p]
  | _ => []
  end.

Definition attached_permissions (e : event) : list Permissions :=
  dataset_permissions e ++ metric_permissions e.

(** The organization ids reported in a run, with the client asked. *)
Definition reported_orgs (t : trace) : list (Client * org_id) :=
  flat_map (fun e => match reported_org e with
                     | Some x => [x]
                     | None => []
                     end) t.

(** The failures external calls ended with in a run. *)
Definition failures (t : trace) : list exn :=
  flat_map (fun e => match failed e with
                     | Some x => [x]
                     | None => []
                     end) t.

(** The clients created in a run. *)
Definition created_clients (t : trace) : list string :=
  flat_map (fun e => match ev_call e with
                     | NewClient b => [b]
                     | _ => []
                     end) t.

(** The datasets a run asks to register, with the key each got. *)
Definition datasets (t : trace) : list (Client * DatasetSpec * option string) :=
  flat_map (fun e => match dataset_request e with
                     | Some (c, d) => [(c, d, returned_key e)]
                     | None => []
                     end) t.

(** The data samples a run asks to register, with the key each got. *)
Definition samples (t : trace) : list (Client * DataSampleSpec * option string) :=
  flat_map (fun e => match sample_request e with
                     | Some (c, s) => [(c, s, returned_key e)]
                     | None => []
                     end) t.

(** The experiments a run submits. *)
Definition submitted_experiments (t : trace) : list Experiment :=
  flat_map (fun e => match experiment_request e with
                     | Some x => [x]
                     | None => []
                     end) t.

(** *** Trace monitors *)

Section Monitor.
Context {S : Type} (step : S -> event -> S) (ok : S -> event -> Prop).

  (** Every event is fine in the state the events before it lead to. *)
Fixpoint accepts (s : S) (t : trace) : Prop :=
    match t with
    | [] => True
    | e :: t' => ok s e /\ accepts (step s e) t'
    end.

  (** A program keeps the monitor happy from every state satisfying [I], and
      when it returns [r] the monitor is in a state satisfying [J r]. *)
Definition safe {R : Type} (I : S -> Prop) (p : prog R) (J : R -> S -> Prop)
    : Prop :=
    forall (W : Type) (h : platform W) (w : W) (s : S),
      I s ->
      accepts s (trace_of (run h p w)) /\
      forall r, outcome_of (run h p w) = Ok r ->
                J r (fold_left step (trace_of (run h p w)) s).
End Monitor.

(** The dataset most recently registered: the client it was registered
    through and the key the platform returned for it. *)
Definition latest_dataset (s : option (Client * string)) (e : event)
  : option (Client * string) :=
  match dataset_request e with
  | Some (c, _) =>
      match returned_key e with
      | Some k => Some (c, k)
      | None => None
      end
  | None => s
  end.

(** A data sample refers to exactly the key of the dataset registered last,
    through the same client. *)
Definition references_dataset (s : option (Client * string)) (e : event) : Prop :=
  match sample_request e with
  | Some (c, spec) => exists k, s = Some (c, k) /\ data_manager_keys spec = [k]
  | None => True
  end.

(** Train samples carry [test_only=False] and live in a [train] folder, test
    samples carry [test_only=True] and live in a [test] folder. *)
Definition train_or_test_sample (e : event) : Prop :=
  match sample_request e with
  | Some (_, spec) =>
      (test_only spec = false /\ last (path spec) "" = "train")
      \/ (test_only spec = true /\ last (path spec) "" = "test")
  | None => True
  end.

(** An event that registers no dataset and no data sample and submits no
    experiment. *)
Definition quiet (e : event) : Prop :=
  dataset_request e = None /\ sample_request e = None
  /\ experiment_request e = None.

(** The permissions the script declares: never public; a dataset is open
    to the algorithm provider only, the metric to the algorithm provider and
    the data providers. *)
Definition permissions_as_declared (o : Orgs) (e : event) : Prop :=
  (forall p, In p (attached_permissions e) ->
             public p = false /\ In (ALGO_ORG_ID o) (authorized_ids p))
  /\ (forall p, In p (dataset_permissions e) ->
                authorized_ids p = [ALGO_ORG_ID o])
  /\ (forall p, In p (metric_permissions e) ->
                authorized_ids p = ALGO_ORG_ID o :: DATA_PROVIDER_ORGS_ID o).

(** The experiment the script configures: a fixed number of rounds and an
    evaluation after every round. *)
Definition experiment_as_configured (e : event) : Prop :=
  match experiment_request e with
  | Some x => num_rounds x = NUM_ROUNDS /\ rounds (evaluation_strategy x) = 1%nat
              /\ strategy x = FedAvg
  | None => True
  end.

(** *** What the registration loop leaves behind for one organization *)

Record OrgBlock : Type := {
  b_index : nat;
  b_org : org_id;
  b_client : Client;
  b_dataset_key : string;
  b_train_key : string;
  b_test_key : string
}.

Definition block_samples (b : OrgBlock)
  : list (Client * DataSampleSpec * option string) :=
  [ (b_client b,
     {| data_manager_keys := [b_dataset_key b];
        test_only := false;
        path := data_path ++ [org_folder (b_index b); "train"] |},
     Some (b_train_key b));
    (b_client b,
     {| data_manager_keys := [b_dataset_key b];
        test_only := true;
        path := data_path ++ [org_folder (b_index b); "test"] |},
     Some (b_test_key b)) ].

Definition block_dataset (o : Orgs) (b : OrgBlock)
  : Client * DatasetSpec * option string :=
  (b_client b, dataset_spec o, Some (b_dataset_key b)).

Definition block_train_node (b : OrgBlock) : TrainDataNode :=
  {| organization_id := b_org b;
     data_manager_key := b_dataset_key b;
     data_sample_keys := [b_train_key b] |}.

Definition block_test_node (metric_key : string) (b : OrgBlock) : TestDataNode :=
  {| test_organization_id := b_org b;
     test_data_manager_key := b_dataset_key b;
     test_data_sample_keys := [b_test_key b];
     metric_keys := [metric_key] |}.

(** A program keeps an invariant [I] of the monitor state. *)
Definition keeps {S : Type} (step : S -> event -> S) (ok : S -> event -> Prop)
    (I : S -> Prop) {R : Type} (p : prog R) : Prop :=
  safe step ok I p (fun _ => I).

(** A program reports an external failure only when its last call raised
    that failure. *)
Definition genuine {R : Type} (p : prog R) : Prop :=
  forall (W : Type) (h : platform W) (w : W) (x : exn),
    outcome_of (run h p w) = Fail (External x) ->
    exists t1 ev, trace_of (run h p w) = t1 ++ [ev] /\ failed ev = Some x.

(** Every event a program can produce satisfies [P]. *)
Definition emits (P : event -> Prop) {R : Type} (p : prog R) : Prop :=
  keeps (fun (_ : unit) _ => tt) (fun _ e => P e) (fun _ => True) p.

(* ===================================================================== *)
(** ** Platforms to run the script against *)
(* ===================================================================== *)

(** A platform in the manner of the local backend: every new client belongs
    to an organization of its own, and every registered asset gets a fresh
    key. *)
Record world : Type := {
  sessions : nat;
  assets : nat;
  submitted : option Experiment
}.

Definition org_name (n : nat) : org_id :=
  String.append "MyOrg" (String.append (str_of_nat (n + 1)) "MSP").

Definition asset_key (kind : string) (w : world) : string :=
  String.append kind (str_of_nat (assets w)).

Definition new_asset (w : world) : world :=
  {| sessions := sessions w; assets := S (assets w); submitted := submitted w |}.

(** The performances the local platform reports: those of the modelled
    rounds, with a local step that leaves the parameters alone and a score
    of one half. *)
Definition local_scores (w : world) : list Performance :=
  match submitted w with
  | Some e =>
      FedAvgRounds.scores
        (FedAvgRounds.execute (fun _ g => Some (g, 3000%nat)) (fun _ _ => 1 # 2)
           true e [0; 0])
  | None => []
  end.

Definition local_platform : platform world :=
  fun c w =>
    match c return (exn + resp c) * world with
    | NewClient _ =>
        (inr (Session (sessions w)),
         {| sessions := S (sessions w); assets := assets w;
            submitted := submitted w |})
    | organization_info (Session n) => (inr (org_name n), w)
    | mkdir _ => (inr tt, w)
    | setup_mnist _ _ => (inr tt, w)
    | add_dataset _ _ => (inr (asset_key "dataset-" w), new_asset w)
    | add_data_sample _ _ => (inr (asset_key "sample-" w), new_asset w)
    | add_metric _ _ _ _ => (inr (asset_key "metric-" w), new_asset w)
    | execute_experiment e =>
        (inr {| key := asset_key "plan-" w |},
         {| sessions := sessions w; assets := S (assets w);
            submitted := Some e |})
    | get_performances _ _ => (inr (local_scores w), w)
    | df_query df expr =>
        (inr (filter (fun row => String.eqb (query_expr (worker row)) expr) df), w)
    | print _ => (inr tt, w)
    | plt _ => (inr tt, w)
    | download_algo_files _ _ _ _ => (inr tt, w)
    | load_algo _ => (inr "CNN", w)
    end.

Definition fresh_world : world :=
  {| sessions := 0; assets := 0; submitted := None |}.

(** The local platform, except that its [n]-th call (counting from 0) fails. *)
Definition failing_at (n : nat) : platform (nat * world) :=
  fun c w =>
    let '(i, w0) := w in
    if (i =? n)%nat then (inl "refused", (S i, w0))
    else let '(a, w1) := local_platform c w0 in (a, (S i, w1)).

(** The local platform, except that every client belongs to the same
    organization. *)
Definition single_org_platform : platform world :=
  fun c w =>
    match c return (exn + resp c) * world with
    | organization_info _ => (inr (org_name 0), w)
    | c' => local_platform c' w
    end.

(** The run of the script on the local platform. *)
Definition local_run : outcome Final * world * trace :=
  run local_platform script fresh_world.

(* ===================================================================== *)
(** ** Shapes through [CNN.forward] *)
(* ===================================================================== *)

(** The forward pass computes with floats; what is followed here is the
    shape of [x] after each line of [forward], for a batch of shape
    [(n, c, h, w)].  The shape rules are those of torch for the calls the
    method makes. *)
Module CNNForward.

Definition shape : Type := list nat.

(** [nn.Conv2d(in_channels, out_channels, kernel_size=k)]: stride 1, no
    padding. *)
Definition conv2d (in_channels out_channels k : nat) (s : shape) : failure + shape :=
  match s with
  | [n; c; h; w] =>
      if negb (c =? in_channels)%nat then
        inl (RuntimeError "expected input to have the layer's number of channels")
      else if ((h <? k) || (w <? k))%nat then
        inl (RuntimeError "Kernel size can't be greater than actual input size")
      else inr [n; out_channels; h - k + 1; w - k + 1]%nat
  | _ => inl (RuntimeError "Expected 4-dimensional input")
  end.

(** [F.max_pool2d(x, k)]: stride [k], no padding, sizes rounded down. *)
Definition max_pool2d (k : nat) (s : shape) : failure + shape :=
  match s with
  | [n; c; h; w] =>
      if ((h <? k) || (w <? k))%nat then
        inl (RuntimeError "Output size is too small")
      else inr [n; c; h / k; w / k]%nat
  | _ => inl (RuntimeError "Expected 4-dimensional input")
  end.

(** [F.relu] and [F.dropout(x, p, training)] keep the shape. *)
Definition relu (s : shape) : failure + shape := inr s.

Definition dropout (training : bool) (s : shape) : failure + shape := inr s.

(** [x.view(-1, m)]: the first dimension is the number of elements divided
    by [m]; it cannot be inferred when [m] is 0 and there is no element. *)
Definition view_rows (m : nat) (s : shape) : failure + shape :=
  let total := fold_right Nat.mul 1%nat s in
  if (m =? 0)%nat then
    if (total =? 0)%nat then
      inl (RuntimeError "cannot reshape tensor of 0 elements: -1 is ambiguous")
    else inl (RuntimeError "shape is invalid for input size")
  else if (total mod m =? 0)%nat then inr [total / m; m]%nat
  else inl (RuntimeError "shape is invalid for input size").

(** [nn.Linear(in_features, out_features)] on a matrix. *)
Definition linear (in_features out_features : nat) (s : shape) : failure + shape :=
  match s with
  | [n; f] =>
      if (f =? in_features)%nat then inr [n; out_features]
      else inl (RuntimeError "mat1 and mat2 shapes cannot be multiplied")
  | _ => inl (RuntimeError "Expected 2-dimensional input")
  end.

(** [F.log_softmax(x, dim=1)] keeps the shape. *)
Definition log_softmax (s : shape) : failure + shape :=
  match s with
  | _ :: _ :: _ => inr s
  | _ => inl (IndexError)
  end.

Definition then_ (r : failure + shape) (f : shape -> failure + shape)
  : failure + shape :=
  match r with
  | inl e => inl e
  | inr s => f s
  end.

(** [forward(self, x, eval=False)], line by line. *)
Definition forward (n c h w : nat) (eval : bool) : failure + shape :=
  then_ (then_ (conv2d 1 32 5 [n; c; h; w]) relu) (fun x =>
  then_ (then_ (then_ (conv2d 32 32 5 x) (max_pool2d 2)) relu) (fun x =>
  then_ (dropout (negb eval) x) (fun x =>
  then_ (then_ (then_ (conv2d 32 64 5 x) (max_pool2d 2)) relu) (fun x =>
  then_ (dropout (negb eval) x) (fun x =>
  then_ (view_rows (3 * 3 * 64) x) (fun x =>
  then_ (then_ (linear (3 * 3 * 64) 256 x) relu) (fun x =>
  then_ (dropout (negb eval) x) (fun x =>
  then_ (linear 256 10 x) log_softmax)))))))).
End CNNForward.

(* ===================================================================== *)
(** ** Further observations of a run *)
(* ===================================================================== *)

(** The key of the compute plan an [execute_experiment] call returned. *)
Definition plan_key (e : event) : option string :=
  match e with
  | Ev c a =>
      match c return exn + resp c -> option string with
      | execute_experiment _ =>
          fun a => match a with inr p => Some (key p) | inl _ => None end
      | _ => fun _ => None
      end a
  end.

(** The table a [get_performances] call returned. *)
Definition fetched (e : event) : option (list Performance) :=
  match e with
  | Ev c a =>
      match c return exn + resp c -> option (list Performance) with
      | get_performances _ _ =>
          fun a => match a with inr df => Some df | inl _ => None end
      | _ => fun _ => None
      end a
  end.

(** The compute plan submitted last. *)
Definition latest_plan (s : option string) (e : event) : option string :=
  match experiment_request e with
  | Some _ => plan_key e
  | None => s
  end.

(** Performances are fetched, and the model is downloaded, for the plan
    submitted last. *)
Definition uses_latest_plan (s : option string) (e : event) : Prop :=
  match ev_call e with
  | get_performances _ k => s = Some k
  | download_algo_files _ k _ _ => s = Some k
  | _ => True
  end.

(** The folders [setup_mnist] was last asked to prepare. *)
Definition prepared_folders (s : option (Path * nat)) (e : event)
  : option (Path * nat) :=
  match ev_call e with
  | setup_mnist p n => Some (p, n)
  | _ => s
  end.

(** A data sample lies in the [train] or [test] folder of one of the
    organization folders that were prepared. *)
Definition sample_in_prepared_folder (s : option (Path * nat)) (e : event) : Prop :=
  match sample_request e with
  | Some (_, spec) =>
      exists p n i kind,
        s = Some (p, n) /\ (i < n)%nat
        /\ (kind = "train" \/ kind = "test")
        /\ path spec = p ++ [org_folder i; kind]
  | None => True
  end.

(** What a [query] call was asked and what it returned. *)
Definition queried (e : event)
  : option (list Performance * string * list Performance) :=
  match e with
  | Ev c a =>
      match c return exn + resp c
                     -> option (list Performance * string * list Performance) with
      | df_query df expr =>
          fun a => match a with inr rows => Some (df, expr, rows) | inl _ => None end
      | _ => fun _ => None
      end a
  end.

(** The performance table fetched last, and the query answered last. *)
Definition shown_state : Type :=
  option (list Performance)
  * option (list Performance * string * list Performance).

Definition fetched_table (s : shown_state) (e : event) : shown_state :=
  match ev_call e with
  | get_performances _ _ => (fetched e, snd s)
  | df_query _ _ => (fst s, queried e)
  | _ => s
  end.

(** What is printed as a table, and what is queried, is the table fetched;
    a curve shows the rounds against the performances of the rows the last
    query returned, that query selected the worker the curve is labelled
    with, and the curve has one point per row. *)
Definition shows_fetched_table (s : shown_state) (e : event) : Prop :=
  match ev_call e with
  | print (PTable rows) => fst s = Some rows
  | df_query df _ => fst s = Some df
  | plt (plt_plot xs ys label) =>
      exists df rows,
        snd s = Some (df, query_expr label, rows)
        /\ xs = map round_idx rows
        /\ ys = map performance rows
        /\ List.length xs = List.length ys
  | _ => True
  end.

(** The metric registered last: the client and the key it got. *)
Definition latest_metric (s : option (Client * string)) (e : event)
  : option (Client * string) :=
  match ev_call e with
  | add_metric c _ _ _ =>
      match returned_key e with
      | Some k => Some (c, k)
      | None => None
      end
  | _ => s
  end.

(** An experiment is submitted through the client the metric was registered
    through, and each of its test nodes names exactly the key that metric
    got. *)
Definition experiment_uses_metric (s : option (Client * string)) (e : event) : Prop :=
  match experiment_request e with
  | Some x =>
      exists k,
        s = Some (experiment_client x, k)
        /\ Forall (fun n => metric_keys n = [k])
             (test_data_nodes (evaluation_strategy x))
  | None => True
  end.



(** The clients the results are asked from: the performances from the
    client of the last data provider, the model from the client of the
    first, for the last round, into the [algo_files] folder. *)
Definition results_clients (o : Orgs) (e : event) : Prop :=
  match ev_call e with
  | get_performances c _ =>
      DATA_PROVIDER_ORGS_ID o <> []
      /\ get (clients o) (last (DATA_PROVIDER_ORGS_ID o) "") = Some c
  | download_algo_files c _ round dest =>
      DATA_PROVIDER_ORGS_ID o <> []
      /\ get (clients o) (hd "" (DATA_PROVIDER_ORGS_ID o)) = Some c
      /\ round = None /\ dest = algo_files_folder
  | _ => True
  end.

(** A program keeps the monitor happy from every state satisfying [I]. *)
Definition accepted {S : Type} (step : S -> event -> S) (ok : S -> event -> Prop)
    (I : S -> Prop) {R : Type} (p : prog R) : Prop :=
  safe step ok I p (fun _ _ => True).

(** A value a program can return. *)
Definition returns {R : Type} (p : prog R) (r : R) : Prop :=
  exists (W : Type) (h : platform W) (w w' : W) (t : trace),
    run h p w = (Ok r, w', t).

(** Every failure of a program satisfies [P]. *)
Definition raises (P : failure -> Prop) {R : Type} (p : prog R) : Prop :=
  forall (W : Type) (h : platform W) (w : W) (f : failure),
    outcome_of (run h p w) = Fail f -> P f.

(** The failures the script can end with after the setup: one an external
    call raised, the assertion on the dataset key, or the [ValueError] of
    the evaluation strategy when there is no data provider. *)
Definition main_failure (o : Orgs) (f : failure) : Prop :=
  (exists x, f = External x)
  \/ f = AssertionError "Missing dataset key"
  \/ ((exists msg, f = ValueError msg) /\ DATA_PROVIDER_ORGS_ID o = []).

(** The loop variable [client] after the registration loop: unbound when
    there is no data provider, and the client of the last data provider
    otherwise. *)
Definition loop_client (o : Orgs) (r : Registered) : Prop :=
  (DATA_PROVIDER_ORGS_ID o = [] /\ client r = None)
  \/ (DATA_PROVIDER_ORGS_ID o <> []
      /\ exists c, client r = Some c
                   /\ get (clients o) (last (DATA_PROVIDER_ORGS_ID o) "") = Some c).

(** A dataset registration that returned the empty key. *)
Definition empty_key (e : event) : Prop :=
  dataset_request e <> None /\ returned_key e = Some "".

(** A program stops with the assertion right after a dataset registration
    that returned the empty key. *)
Definition stops_on_empty_key {R : Type} (p : prog R) : Prop :=
  forall (W : Type) (h : platform W) (w : W) t1 ev t2,
    trace_of (run h p w) = t1 ++ ev :: t2 ->
    empty_key ev ->
    t2 = [] /\ outcome_of (run h p w) = Fail (AssertionError "Missing dataset key").

(** A program ends with an assertion failure only for the dataset key, and
    only when its last call is a dataset registration that returned the
    empty key. *)
Definition asserts_on_empty_key {R : Type} (p : prog R) : Prop :=
  forall (W : Type) (h : platform W) (w : W) (m : string),
    outcome_of (run h p w) = Fail (AssertionError m) ->
    m = "Missing dataset key"
    /\ exists t1 ev, trace_of (run h p w) = t1 ++ [ev] /\ empty_key ev.

(** The local platform, except that datasets get the empty key. *)
Definition empty_key_platform : platform world :=
  fun c w =>
    match c return (exn + resp c) * world with
    | add_dataset _ _ => (inr "", new_asset w)
    | c' => local_platform c' w
    end.

(* ===================================================================== *)
(** ** Dictionaries *)
(* ===================================================================== *)

Section DictFacts.
Context {V : Type}.
Implicit Types (d : dict V) (k : string) (v : V).

Lemma get_set_same d k v : get (set d k v) k = Some v.
Proof.
  induction d as [|[k' v'] d IH]; simpl.
  - now rewrite String.eqb_refl.
  - destruct (String.eqb k k') eqn:E; simpl; rewrite E; auto.
Qed.

Lemma get_set_other d k k' v : k <> k' -> get (set d k v) k' = get d k'.
Proof.
  intros Hne. induction d as [|[k0 v0] d IH]; simpl.
  - apply String.eqb_neq in Hne. rewrite String.eqb_sym in Hne. now rewrite Hne.
  - destruct (String.eqb k k0) eqn:E; simpl.
    + apply String.eqb_eq in E. subst k0.
      assert (String.eqb k' k = false) as -> by (apply String.eqb_neq; congruence).
      reflexivity.
    + now rewrite IH.
Qed.

Lemma get_set_inv d k v k' v' :
  get (set d k v) k' = Some v' -> (k' = k /\ v' = v) \/ get d k' = Some v'.
Proof.
  destruct (string_dec k k') as [<-|Hne].
  - rewrite get_set_same. intros [= <-]. auto.
  - rewrite get_set_other by assumption. auto.
Qed.

Lemma keys_set_present d k v : In k (keys d) -> keys (set d k v) = keys d.
Proof.
  unfold keys. induction d as [|[k0 v0] d IH]; simpl; [tauto|].
  intros [->|Hin].
  - now rewrite String.eqb_refl.
  - destruct (String.eqb k k0) eqn:E; simpl; [reflexivity|]. now rewrite IH.
Qed.

Lemma keys_set_absent d k v : ~ In k (keys d) -> keys (set d k v) = keys d ++ [k].
Proof.
  unfold keys. induction d as [|[k0 v0] d IH]; simpl; [reflexivity|].
  intros Hn. destruct (String.eqb k k0) eqn:E.
  - apply String.eqb_eq in E. subst. tauto.
  - simpl. rewrite IH; tauto.
Qed.

Lemma keys_set_NoDup d k v : NoDup (keys d) -> NoDup (keys (set d k v)).
Proof.
  intros Hd. destruct (in_dec string_dec k (keys d)) as [Hin|Hn].
  - now rewrite keys_set_present.
  - rewrite keys_set_absent by assumption.
    apply NoDup_app; [assumption | repeat constructor; simpl; tauto |].
    intros x Hx [<-|[]]. tauto.
Qed.

Lemma keys_set_In d k v k' : In k' (keys (set d k v)) <-> k' = k \/ In k' (keys d).
Proof.
  destruct (in_dec string_dec k (keys d)) as [Hin|Hn].
  - rewrite keys_set_present by assumption. intuition congruence.
  - rewrite keys_set_absent, in_app_iff by assumption. simpl. intuition congruence.
Qed.

Lemma get_In_keys d k : In k (keys d) -> exists v, get d k = Some v.
Proof.
  unfold keys. induction d as [|[k0 v0] d IH]; simpl; [tauto|].
  intros H. destruct (String.eqb k k0) eqn:E; [eauto|].
  destruct H as [->|H]; [now rewrite String.eqb_refl in E | auto].
Qed.
End DictFacts.

(* ===================================================================== *)
(** ** Running programs *)
(* ===================================================================== *)

Lemma run_bind {W A B : Type} (h : platform W) (p : prog A) (f : A -> prog B) w :
  run h (bind p f) w =
  match run h p w with
  | (Ok a, w1, t1) => let '(o, w2, t2) := run h (f a) w1 in (o, w2, t1 ++ t2)
  | (Fail e, w1, t1) => (Fail e, w1, t1)
  end.
Proof.
  revert B f w.
  induction p as [A a|A e|A c k IH|A body _ handler _ k IH]; intros B f w; simpl.
  - now destruct (run h (f a) w) as [[o w2] t2].
  - reflexivity.
  - destruct (h c w) as [[e|v] w1]; [reflexivity|].
    rewrite IH. destruct (run h (k v) w1) as [[[a|e] w2] t2]; [|reflexivity].
    now destruct (run h (f a) w2) as [[o w3] t3].
  - destruct (run h body w) as [[[[]|e] w1] t1].
    + rewrite IH. destruct (run h k w1) as [[[a|e] w2] t2]; [|reflexivity].
      destruct (run h (f a) w2) as [[o w3] t3]. now rewrite app_assoc.
    + destruct (run h (handler e) w1) as [[[[]|e'] w2] t2]; [|reflexivity].
      rewrite IH. destruct (run h k w2) as [[[a|e'] w3] t3];
        [|reflexivity].
      destruct (run h (f a) w3) as [[o w4] t4]. now rewrite <- !app_assoc.
Qed.

Lemma run_ext {W : Type} (h : platform W) (c : call) w :
  run h (ext c) w =
  match h c w with
  | (inl e, w') => (Fail (External e), w', [Ev c (inl e)])
  | (inr v, w') => (Ok v, w', [Ev c (inr v)])
  end.
Proof. unfold ext. simpl. now destruct (h c w) as [[e|v] w']. Qed.

(** In a program without [try], a failing external call is the last event
    of a run and decides its outcome. *)
Lemma run_failure_is_final {W R : Type} (h : platform W) (p : prog R) :
  handler_free p ->
  forall w t1 ev t2 x,
    trace_of (run h p w) = t1 ++ ev :: t2 ->
    failed ev = Some x ->
    t2 = [] /\ outcome_of (run h p w) = Fail (External x).
Proof.
  induction p as [R a|R e|R c k IH|R body _ handler _ k _];
    intros Hfree w t1 ev t2 x Ht Hf; simpl in *.
  - now destruct t1.
  - now destruct t1.
  - destruct (h c w) as [[e|v] w1]; simpl in *.
    + destruct t1 as [|e1 t1]; simpl in Ht.
      * injection Ht as <- <-. unfold failed in Hf. simpl in Hf.
        injection Hf as ->. auto.
      * injection Ht as _ Ht. now destruct t1.
    + destruct (run h (k v) w1) as [[o w2] t] eqn:E.
      unfold trace_of, outcome_of in *. simpl in *.
      destruct t1 as [|e1 t1]; simpl in Ht.
      * injection Ht as <- _. discriminate Hf.
      * injection Ht as _ Ht.
        specialize (IH v (Hfree v) w1 t1 ev t2 x). rewrite E in IH. simpl in IH.
        auto.
  - destruct Hfree.
Qed.

Lemma failures_nil_iff (t : trace) :
  failures t = [] <-> forall ev, In ev t -> failed ev = None.
Proof.
  unfold failures. induction t as [|e t IH]; simpl; [tauto|].
  destruct (failed e) eqn:E; simpl.
  - split; [discriminate|]. intros H. specialize (H e (or_introl eq_refl)). congruence.
  - rewrite IH. split; intros H.
    + intros ev [<-|Hin]; auto.
    + intros ev Hin. auto.
Qed.

(* ===================================================================== *)
(** ** Reasoning with monitors *)
(* ===================================================================== *)

Section MonitorFacts.
Context {S : Type} (step : S -> event -> S) (ok : S -> event -> Prop).

Lemma accepts_app (s : S) (t1 t2 : trace) :
  accepts step ok s (t1 ++ t2) <->
  accepts step ok s t1 /\ accepts step ok (fold_left step t1 s) t2.
Proof.
  revert s. induction t1 as [|e t1 IH]; intros s; simpl; [tauto|].
  rewrite IH. tauto.
Qed.

Lemma safe_ret {R : Type} (I : S -> Prop) (J : R -> S -> Prop) (r : R) :
  (forall s, I s -> J r s) -> safe step ok I (Ret r) J.
Proof.
  intros H W h w s Hs. simpl. split; [exact Logic.I|].
  intros r' Hr. injection Hr as <-. auto.
Qed.

Lemma safe_raise {R : Type} (I : S -> Prop) (J : R -> S -> Prop) (e : failure) :
  safe step ok I (Raise e) J.
Proof. intros W h w s Hs. simpl. split; [exact Logic.I|]. discriminate. Qed.

Lemma safe_ext (I : S -> Prop) (c : call) (J : resp c -> S -> Prop) :
  (forall s a, I s -> ok s (Ev c a)) ->
  (forall s v, I s -> J v (step s (Ev c (inr v)))) ->
  safe step ok I (ext c) J.
Proof.
  intros Hok HJ W h w s Hs. rewrite run_ext.
  destruct (h c w) as [[e|v] w1]; unfold trace_of, outcome_of; simpl.
  - split; [auto|]. discriminate.
  - split; [auto|]. intros r Hr. injection Hr as <-. auto.
Qed.

Lemma safe_bind {A B : Type} (I : S -> Prop) (J : A -> S -> Prop)
    (K : B -> S -> Prop) (p : prog A) (f : A -> prog B) :
  safe step ok I p J ->
  (forall a, safe step ok (J a) (f a) K) ->
  safe step ok I (bind p f) K.
Proof.
  intros Hp Hf W h w s Hs. rewrite run_bind.
  specialize (Hp W h w s Hs).
  destruct (run h p w) as [[[a|e] w1] t1]; unfold trace_of, outcome_of in *;
    simpl in *.
  - destruct Hp as [Ht1 HJ]. specialize (HJ a eq_refl).
    specialize (Hf a W h w1 _ HJ).
    destruct (run h (f a) w1) as [[o w2] t2]. simpl in *.
    rewrite accepts_app, fold_left_app. tauto.
  - split; [tauto|]. discriminate.
Qed.

Lemma safe_weaken {R : Type} (I I' : S -> Prop) (J J' : R -> S -> Prop)
    (p : prog R) :
  safe step ok I p J ->
  (forall s, I' s -> I s) ->
  (forall r s, J r s -> J' r s) ->
  safe step ok I' p J'.
Proof.
  intros Hp HI HJ W h w s Hs. destruct (Hp W h w s (HI s Hs)) as [H1 H2].
  split; [assumption|]. intros r Hr. auto.
Qed.

Lemma keeps_ret {R : Type} (I : S -> Prop) (r : R) : keeps step ok I (Ret r).
Proof. apply safe_ret. auto. Qed.

Lemma keeps_raise {R : Type} (I : S -> Prop) (e : failure) :
  keeps step ok I (@Raise R e).
Proof. apply safe_raise. Qed.

Lemma keeps_bind {A B : Type} (I : S -> Prop) (p : prog A) (f : A -> prog B) :
  keeps step ok I p -> (forall a, keeps step ok I (f a)) ->
  keeps step ok I (bind p f).
Proof. intros Hp Hf. eapply safe_bind; [exact Hp|]. intros a. apply Hf. Qed.

Lemma keeps_ext (I : S -> Prop) (c : call) :
  (forall s a, I s -> ok s (Ev c a) /\ I (step s (Ev c a))) ->
  keeps step ok I (ext c).
Proof.
  intros H. apply safe_ext.
  - intros s a Hs. apply H, Hs.
  - intros s v Hs. apply H, Hs.
Qed.

Lemma keeps_for_each {A T : Type} (I : S -> Prop) (l : list A)
    (body : A -> T -> prog T) :
  (forall a acc, keeps step ok I (body a acc)) ->
  forall acc, keeps step ok I (for_each l body acc).
Proof.
  intros Hb. induction l as [|a l IH]; intros acc; simpl.
  - apply keeps_ret.
  - apply keeps_bind; auto.
Qed.

Lemma keeps_getitem {V : Type} (I : S -> Prop) (d : dict V) (k : string) :
  keeps step ok I (getitem d k).
Proof.
  unfold getitem. destruct (get d k); [apply keeps_ret | apply keeps_raise].
Qed.

Lemma keeps_index {A : Type} (I : S -> Prop) (l : list A) (i : nat) :
  keeps step ok I (index l i).
Proof.
  unfold index. destruct (nth_error l i); [apply keeps_ret | apply keeps_raise].
Qed.

Lemma keeps_assert (I : S -> Prop) (b : bool) (msg : string) :
  keeps step ok I (assert b msg).
Proof. unfold assert. destruct b; [apply keeps_ret | apply keeps_raise]. Qed.

Lemma keeps_accepts {R : Type} (I : S -> Prop) (p : prog R) :
  keeps step ok I p ->
  forall (W : Type) (h : platform W) (w : W) (s : S),
    I s -> accepts step ok s (trace_of (run h p w)).
Proof. intros H W h w s Hs. apply (H W h w s Hs). Qed.
End MonitorFacts.

Lemma accepts_Forall (P : event -> Prop) (t : trace) :
  accepts (fun (_ : unit) _ => tt) (fun _ e => P e) tt t <-> Forall P t.
Proof.
  induction t as [|e t IH]; simpl.
  - split; auto.
  - rewrite IH. split.
    + intros [H1 H2]. now constructor.
    + intros H. inversion H. auto.
Qed.

Lemma emits_Forall (P : event -> Prop) {R : Type} (p : prog R) :
  emits P p ->
  forall (W : Type) (h : platform W) (w : W), Forall P (trace_of (run h p w)).
Proof.
  intros H W h w. apply accepts_Forall.
  apply (keeps_accepts _ _ _ _ H W h w tt Logic.I).
Qed.

Lemma emits_ext (P : event -> Prop) (c : call) :
  (forall a, P (Ev c a)) -> emits P (ext c).
Proof. intros H. apply keeps_ext. intros s a _. auto. Qed.

(** Stepping through a program whose events all satisfy a property. *)
Ltac emits_step :=
  lazymatch goal with
  | |- keeps ?st ?ok ?I (bind ?p ?f) =>
      apply (keeps_bind st ok I p f); [|intros ?]
  | |- emits _ _ => unfold emits
  | |- keeps ?st ?ok ?I (Ret ?r) => apply (keeps_ret st ok I r)
  | |- keeps ?st ?ok ?I (Raise ?e) => apply (keeps_raise st ok I e)
  | |- keeps ?st ?ok ?I (getitem ?d ?k) => apply (keeps_getitem st ok I d k)
  | |- keeps ?st ?ok ?I (index ?l ?i) => apply (keeps_index st ok I l i)
  | |- keeps ?st ?ok ?I (assert ?b ?m) => apply (keeps_assert st ok I b m)
  | |- keeps ?st ?ok ?I (for_each ?l ?body ?acc) =>
      apply (keeps_for_each st ok I l body); intros ? ?
  | |- keeps ?st ?ok ?I (ext ?c) =>
      apply (keeps_ext st ok I c); intros ? ? ?
  end.

(* ===================================================================== *)
(** ** The setup *)
(* ===================================================================== *)

(** The variables the setup defines, from what the platform answered. *)
Lemma setup_ok {W : Type} (h : platform W) w o w' t :
  run h setup w = (Ok o, w', t) ->
  exists c0 c1 c2 id0 id1 id2,
    t = [Ev (NewClient "subprocess") (inr c0);
         Ev (NewClient "subprocess") (inr c1);
         Ev (NewClient "subprocess") (inr c2);
         Ev (organization_info c0) (inr id0);
         Ev (organization_info c1) (inr id1);
         Ev (organization_info c2) (inr id2)]
    /\ clients o = set (set (set [] id0 c0) id1 c1) id2 c2
    /\ ORGS_ID o = keys (clients o)
    /\ ALGO_ORG_ID o = id0
    /\ DATA_PROVIDER_ORGS_ID o = skipn 1 (ORGS_ID o).
Proof.
  unfold setup. simpl. intros H.
  destruct (h (NewClient "subprocess") w) as [[e|c0] w1]; [discriminate|].
  destruct (h (NewClient "subprocess") w1) as [[e|c1] w2]; [discriminate|].
  destruct (h (NewClient "subprocess") w2) as [[e|c2] w3]; [discriminate|].
  destruct (h (organization_info c0) w3) as [[e|id0] w4]; [discriminate|].
  destruct (h (organization_info c1) w4) as [[e|id1] w5]; [discriminate|].
  destruct (h (organization_info c2) w5) as [[e|id2] w6]; [discriminate|].
  exists c0, c1, c2, id0, id1, id2.
  destruct (String.eqb id1 id0) eqn:E10; simpl in H;
    destruct (String.eqb id2 id0) eqn:E20; simpl in H;
    try destruct (String.eqb id2 id1) eqn:E21; simpl in H;
    injection H as <- <- <-; simpl; rewrite ?E10; simpl; rewrite ?E20; simpl;
    rewrite ?E21; simpl; auto.
Qed.

(** A setup that does not return only created clients and asked for their
    organizations. *)
Lemma setup_emits :
  emits (fun e => match ev_call e with
                  | NewClient _ | organization_info _ => True
                  | _ => False
                  end) setup.
Proof. unfold setup. repeat emits_step; simpl; auto. Qed.

Lemma data_providers_NoDup (o : Orgs) :
  NoDup (ORGS_ID o) -> DATA_PROVIDER_ORGS_ID o = skipn 1 (ORGS_ID o) ->
  NoDup (DATA_PROVIDER_ORGS_ID o).
Proof.
  intros Hn ->. destruct (ORGS_ID o); simpl; [constructor|]. now inversion Hn.
Qed.

Lemma clients_keys_NoDup {W : Type} (h : platform W) w o w' t :
  run h setup w = (Ok o, w', t) -> NoDup (keys (clients o)).
Proof.
  intros H. destruct (setup_ok h w o w' t H)
    as (c0 & c1 & c2 & id0 & id1 & id2 & _ & -> & _).
  repeat apply keys_set_NoDup. constructor.
Qed.

(** What the setup builds from what the platform reports, whatever that
    is: [clients] holds one entry per organization id that was reported, and
    it has three entries exactly when the three ids are pairwise distinct. *)
Lemma clients_as_reported {W : Type} (h : platform W) (w : W) (o : Orgs)
    (w' : W) (t : trace) :
  run h setup w = (Ok o, w', t) ->
  exists c0 c1 c2 id0 id1 id2,
    created_clients t = ["subprocess"; "subprocess"; "subprocess"]
    /\ reported_orgs t = [(c0, id0); (c1, id1); (c2, id2)]
    /\ NoDup (keys (clients o))
    /\ (forall id, In id (keys (clients o)) <-> In id [id0; id1; id2])
    /\ (forall id c, get (clients o) id = Some c ->
                     In (c, id) [(c0, id0); (c1, id1); (c2, id2)])
    /\ ORGS_ID o = keys (clients o)
    /\ ALGO_ORG_ID o = id0
    /\ (List.length (clients o) = N_CLIENTS <-> NoDup [id0; id1; id2])
    /\ (NoDup [id0; id1; id2] ->
        clients o = [(id0, c0); (id1, c1); (id2, c2)]
        /\ DATA_PROVIDER_ORGS_ID o = [id1; id2]).
Proof.
  intros H.
  pose proof (clients_keys_NoDup h w o w' t H) as Hnd.
  destruct (setup_ok h w o w' t H)
    as (c0 & c1 & c2 & id0 & id1 & id2 & -> & Hc & Ho & Ha & Hd).
  exists c0, c1, c2, id0, id1, id2.
  split; [reflexivity|]. split; [reflexivity|]. split; [assumption|].
  split.
  { intros id. rewrite Hc. rewrite !keys_set_In. simpl. intuition congruence. }
  split.
  { intros id c. rewrite Hc. intros Hg.
    apply get_set_inv in Hg. destruct Hg as [[-> ->]|Hg]; [simpl; auto|].
    apply get_set_inv in Hg. destruct Hg as [[-> ->]|Hg]; [simpl; auto|].
    apply get_set_inv in Hg. destruct Hg as [[-> ->]|Hg]; [simpl; auto|].
    discriminate Hg. }
  split; [assumption|]. split; [assumption|].
  assert (Hdistinct : NoDup [id0; id1; id2] <->
                      (String.eqb id1 id0 = false /\ String.eqb id2 id0 = false
                       /\ String.eqb id2 id1 = false)).
  { rewrite !String.eqb_neq. split.
    - intros Hn. inversion Hn as [|? ? H1 H2]; subst.
      inversion H2 as [|? ? H3 H4]; subst. simpl in *.
      repeat split; intros ->; tauto.
    - intros (H1 & H2 & H3).
      repeat constructor; simpl; intuition congruence. }
  split.
  { rewrite Hdistinct, Hc. unfold N_CLIENTS. simpl.
    destruct (String.eqb id1 id0) eqn:E10; simpl;
      destruct (String.eqb id2 id0) eqn:E20; simpl;
      try destruct (String.eqb id2 id1) eqn:E21; simpl;
      intuition (try discriminate; try lia). }
  intros Hn. apply Hdistinct in Hn. destruct Hn as (E10 & E20 & E21).
  rewrite Hd, Ho, Hc. simpl. rewrite E10. simpl. rewrite E20, E21. simpl. auto.
Qed.

(** C5. The script creates three clients and asks each for its
    organization.  On a platform that gives every client session an
    organization of its own (the ids reported are pairwise distinct), the
    [clients] dictionary has exactly three entries, one per organization,
    each holding the session of that organization; its keys are pairwise
    distinct, the first organization is the algorithm provider and the
    other two are the data providers. *)
Theorem clients_one_session_per_organization :
  forall (W : Type) (h : platform W) (w : W) (o : Orgs) (w' : W) (t : trace),
    run h setup w = (Ok o, w', t) ->
    NoDup (map snd (reported_orgs t)) ->
    exists c0 c1 c2 id0 id1 id2,
      created_clients t = ["subprocess"; "subprocess"; "subprocess"]
      /\ reported_orgs t = [(c0, id0); (c1, id1); (c2, id2)]
      /\ clients o = [(id0, c0); (id1, c1); (id2, c2)]
      /\ List.length (clients o) = N_CLIENTS
      /\ NoDup (keys (clients o))
      /\ ORGS_ID o = [id0; id1; id2]
      /\ ALGO_ORG_ID o = id0
      /\ DATA_PROVIDER_ORGS_ID o = [id1; id2].
Proof.
  intros W h w o w' t H Hdistinct.
  destruct (clients_as_reported h w o w' t H)
    as (c0 & c1 & c2 & id0 & id1 & id2 & Hcr & Hrep & Hnd & _ & _ & Ho & Ha
        & Hlen & Hthree).
  rewrite Hrep in Hdistinct. simpl in Hdistinct.
  destruct (Hthree Hdistinct) as [Hc Hd].
  exists c0, c1, c2, id0, id1, id2.
  split; [exact Hcr|]. split; [exact Hrep|]. split; [exact Hc|].
  split; [now apply Hlen|]. split; [exact Hnd|].
  split; [rewrite Ho, Hc; reflexivity|]. split; [exact Ha|exact Hd].
Qed.

Lemma clients_one_session_per_organization_witness :
  exists o w1 t1,
    run local_platform setup fresh_world = (Ok o, w1, t1)
    /\ clients o = [("MyOrg1MSP", Session 0); ("MyOrg2MSP", Session 1);
                    ("MyOrg3MSP", Session 2)]
    /\ DATA_PROVIDER_ORGS_ID o = ["MyOrg2MSP"; "MyOrg3MSP"].
Proof.
  destruct (run local_platform setup fresh_world) as [[[o|x] w1] t1] eqn:E;
    [|vm_compute in E; discriminate E].
  assert (Hdistinct : NoDup (map snd (reported_orgs t1))).
  { vm_compute in E. injection E as _ _ <-.
    repeat constructor; simpl; intuition discriminate. }
  pose proof (clients_one_session_per_organization world local_platform
                fresh_world o w1 t1 E Hdistinct) as H.
  vm_compute in E. injection E as <- <- <-.
  destruct H as (c0 & c1 & c2 & id0 & id1 & id2 & _ & Hrep & Hc & _ & _ & _ & _
                 & Hd).
  vm_compute in Hrep. injection Hrep as <- <- <- <- <- <-.
  eexists _, _, _. split; [reflexivity|]. split; [exact Hc|exact Hd].
Defined.

(** The condition matters: were the three clients to report one and the same
    organization, the dictionary literal would keep a single entry and
    there would be no data provider. *)
Example clients_of_one_organization_collapse :
  exists o w1 t1,
    run single_org_platform setup fresh_world = (Ok o, w1, t1)
    /\ reported_orgs t1 = [(Session 0, "MyOrg1MSP"); (Session 1, "MyOrg1MSP");
                           (Session 2, "MyOrg1MSP")]
    /\ clients o = [("MyOrg1MSP", Session 2)]
    /\ List.length (clients o) <> N_CLIENTS
    /\ DATA_PROVIDER_ORGS_ID o = [].
Proof.
  eexists _, _, _. split; [vm_compute; reflexivity|].
  split; [reflexivity|]. split; [reflexivity|]. split; [discriminate|reflexivity].
Qed.

(** Without a data provider there is no test node: the evaluation strategy
    is refused and the script stops there, before it submits anything. *)
Example script_without_data_provider :
  (exists msg, outcome_of (run single_org_platform script fresh_world)
               = Fail (ValueError msg))
  /\ submitted_experiments (trace_of (run single_org_platform script fresh_world))
     = [].
Proof. split; [eexists|]; vm_compute; reflexivity. Qed.

(* ===================================================================== *)
(** ** The phases after the setup *)
(* ===================================================================== *)

Lemma flat_map_nil {A B : Type} (f : A -> list B) (l : list A) :
  Forall (fun a => f a = []) l -> flat_map f l = [].
Proof. induction 1 as [|a l Ha _ IH]; simpl; [reflexivity|]. now rewrite Ha, IH. Qed.

Lemma flat_map_after_map {A B C : Type} (f : B -> list C) (g : A -> B)
    (l : list A) :
  flat_map f (map g l) = flat_map (fun a => f (g a)) l.
Proof. induction l as [|a l IH]; simpl; [reflexivity|]. now rewrite IH. Qed.

Lemma quiet_samples (t : trace) : Forall quiet t -> samples t = [].
Proof.
  intros H. apply flat_map_nil. eapply Forall_impl; [|exact H].
  intros e (_ & -> & _). reflexivity.
Qed.

Lemma quiet_datasets (t : trace) : Forall quiet t -> datasets t = [].
Proof.
  intros H. apply flat_map_nil. eapply Forall_impl; [|exact H].
  intros e (-> & _ & _). reflexivity.
Qed.

Lemma quiet_experiments (t : trace) : Forall quiet t -> submitted_experiments t = [].
Proof.
  intros H. apply flat_map_nil. eapply Forall_impl; [|exact H].
  intros e (_ & _ & ->). reflexivity.
Qed.

Lemma setup_quiet {W : Type} (h : platform W) w :
  Forall quiet (trace_of (run h setup w)).
Proof.
  eapply Forall_impl; [|apply (emits_Forall _ _ setup_emits)].
  intros [c a]. unfold quiet, dataset_request, sample_request, experiment_request.
  simpl. destruct c; tauto.
Qed.

Lemma setup_no_permissions {W : Type} (h : platform W) w :
  flat_map attached_permissions (trace_of (run h setup w)) = [].
Proof.
  apply flat_map_nil.
  eapply Forall_impl; [|apply (emits_Forall _ _ setup_emits)].
  intros [c a]. unfold attached_permissions, dataset_permissions, metric_permissions.
  simpl. destruct c; tauto.
Qed.

Lemma prepare_data_quiet (o : Orgs) : emits quiet (prepare_data o).
Proof. unfold prepare_data. repeat emits_step; repeat split. Qed.

Lemma register_metric_quiet (o : Orgs) : emits quiet (register_metric o).
Proof. unfold register_metric. repeat emits_step; repeat split. Qed.

Lemma explore_quiet (o : Orgs) (r : Registered) (cp : ComputePlan) :
  emits quiet (explore o r cp).
Proof.
  unfold explore, plot_worker.
  apply keeps_bind; [destruct (client r); emits_step|intros ?].
  repeat emits_step; repeat split.
Qed.

(** One turn of the registration loop that returns: the dataset, then the
    train sample, then the test sample, each referring to the key the
    dataset got. *)
Lemma register_org_ok {W : Type} (h : platform W) o i org r0 w r1 w1 t1 :
  run h (register_org o (i, org) r0) w = (Ok r1, w1, t1) ->
  exists c k tk sk,
    get (clients o) org = Some c
    /\ t1 = [Ev (add_dataset c (dataset_spec o)) (inr k);
             Ev (add_data_sample c
                   {| data_manager_keys := [k]; test_only := false;
                      path := data_path ++ [org_folder i; "train"] |}) (inr tk);
             Ev (add_data_sample c
                   {| data_manager_keys := [k]; test_only := true;
                      path := data_path ++ [org_folder i; "test"] |}) (inr sk)]
    /\ r1 = {| dataset_keys := set (dataset_keys r0) org k;
               train_datasample_keys := set (train_datasample_keys r0) org tk;
               test_datasample_keys := set (test_datasample_keys r0) org sk;
               client := Some c |}.
Proof.
  unfold register_org, getitem. intros H.
  destruct (get (clients o) org) as [c|]; [|discriminate].
  cbn -[get set] in H.
  destruct (h (add_dataset c (dataset_spec o)) w) as [[e|k] w2]; [discriminate|].
  rewrite get_set_same in H. cbn -[get set] in H.
  destruct (truthy k); cbn -[get set] in H; [|discriminate].
  match type of H with
  | context [h ?c ?w] => destruct (h c w) as [[e|tk] w3]; [discriminate|]
  end.
  match type of H with
  | context [h ?c ?w] => destruct (h c w) as [[e|sk] w4]; [discriminate|]
  end.
  injection H as <- <- <-. exists c, k, tk, sk. auto.
Qed.

Lemma registration_blocks {W : Type} (h : platform W) (o : Orgs) :
  forall L i0 r0 w r w' t,
    run h (for_each (combine (seq i0 (List.length L)) L) (register_org o) r0) w
    = (Ok r, w', t) ->
    NoDup L ->
    exists blocks,
      map b_org blocks = L
      /\ map b_index blocks = seq i0 (List.length L)
      /\ datasets t = map (block_dataset o) blocks
      /\ samples t = flat_map block_samples blocks
      /\ submitted_experiments t = []
      /\ Forall (fun b =>
                   get (clients o) (b_org b) = Some (b_client b)
                   /\ get (dataset_keys r) (b_org b) = Some (b_dataset_key b)
                   /\ get (train_datasample_keys r) (b_org b) = Some (b_train_key b)
                   /\ get (test_datasample_keys r) (b_org b) = Some (b_test_key b))
                blocks
      /\ (forall k, ~ In k L ->
                    get (dataset_keys r) k = get (dataset_keys r0) k
                    /\ get (train_datasample_keys r) k = get (train_datasample_keys r0) k
                    /\ get (test_datasample_keys r) k = get (test_datasample_keys r0) k).
Proof.
  induction L as [|org L IH]; intros i0 r0 w r w' t H Hnd.
  - simpl in H. injection H as <- <- <-. exists []. simpl. auto 10.
  - cbn [for_each combine seq List.length] in H. rewrite run_bind in H.
    destruct (run h (register_org o (i0, org) r0) w) as [[[r1|e] w1] t1] eqn:E1;
      [|discriminate].
    destruct (run h (for_each (combine (seq (S i0) (List.length L)) L)
                       (register_org o) r1) w1) as [[out w2] t2] eqn:E2.
    injection H as -> <- <-.
    inversion Hnd as [|? ? Hnotin HndL]; subst.
    destruct (register_org_ok h o i0 org r0 w r1 w1 t1 E1)
      as (c & k & tk & sk & Hc & -> & ->).
    destruct (IH _ _ _ _ _ _ E2 HndL)
      as (blocks & Horgs & Hidx & Hds & Hs & Hx & Hall & Hrest).
    destruct (Hrest org Hnotin) as (Hd & Htr & Hte). simpl in Hd, Htr, Hte.
    rewrite get_set_same in Hd, Htr, Hte.
    exists ({| b_index := i0; b_org := org; b_client := c; b_dataset_key := k;
               b_train_key := tk; b_test_key := sk |} :: blocks).
    simpl. rewrite Horgs, Hidx.
    split; [reflexivity|]. split; [reflexivity|].
    split.
    { unfold datasets in *. simpl. now rewrite Hds. }
    split.
    { unfold samples in *. simpl. now rewrite Hs. }
    split.
    { unfold submitted_experiments in *. simpl. exact Hx. }
    split.
    { constructor; [simpl; auto|exact Hall]. }
    intros k0 Hk0.
    destruct (Hrest k0) as (H1 & H2 & H3); [tauto|]. simpl in H1, H2, H3.
    rewrite get_set_other in H1, H2, H3 by tauto. auto.
Qed.

Lemma train_nodes_blocks {W : Type} (h : platform W) (r : Registered) w :
  forall blocks acc,
    Forall (fun b =>
              get (dataset_keys r) (b_org b) = Some (b_dataset_key b)
              /\ get (train_datasample_keys r) (b_org b) = Some (b_train_key b))
           blocks ->
    run h (for_each (map b_org blocks) (add_train_node r) acc) w
    = (Ok (acc ++ map block_train_node blocks), w, []).
Proof.
  induction blocks as [|b blocks IH]; intros acc Hall; simpl.
  - now rewrite app_nil_r.
  - inversion Hall as [|? ? [Hd Ht] Hall']; subst.
    rewrite run_bind. unfold add_train_node at 1, getitem.
    rewrite Hd. simpl. rewrite Ht. simpl.
    rewrite IH by assumption. now rewrite <- app_assoc.
Qed.

Lemma test_nodes_blocks {W : Type} (h : platform W) (r : Registered) mk w :
  forall blocks acc,
    Forall (fun b =>
              get (dataset_keys r) (b_org b) = Some (b_dataset_key b)
              /\ get (test_datasample_keys r) (b_org b) = Some (b_test_key b))
           blocks ->
    run h (for_each (map b_org blocks) (add_test_node r mk) acc) w
    = (Ok (acc ++ map (block_test_node mk) blocks), w, []).
Proof.
  induction blocks as [|b blocks IH]; intros acc Hall; simpl.
  - now rewrite app_nil_r.
  - inversion Hall as [|? ? [Hd Ht] Hall']; subst.
    rewrite run_bind. unfold add_test_node at 1, getitem.
    rewrite Hd. simpl. rewrite Ht. simpl.
    rewrite IH by assumption. now rewrite <- app_assoc.
Qed.

Lemma samples_app (t1 t2 : trace) : samples (t1 ++ t2) = samples t1 ++ samples t2.
Proof. apply flat_map_app. Qed.

Lemma experiments_app (t1 t2 : trace) :
  submitted_experiments (t1 ++ t2)
  = submitted_experiments t1 ++ submitted_experiments t2.
Proof. apply flat_map_app. Qed.

Lemma datasets_app (t1 t2 : trace) : datasets (t1 ++ t2) = datasets t1 ++ datasets t2.
Proof. apply flat_map_app. Qed.

Lemma datasets_cons (e : event) (t : trace) :
  datasets (e :: t)
  = match dataset_request e with
    | Some (c, d) => [(c, d, returned_key e)]
    | None => []
    end ++ datasets t.
Proof. reflexivity. Qed.

Lemma samples_cons (e : event) (t : trace) :
  samples (e :: t)
  = match sample_request e with
    | Some (c, s) => [(c, s, returned_key e)]
    | None => []
    end ++ samples t.
Proof. reflexivity. Qed.

Lemma experiments_cons (e : event) (t : trace) :
  submitted_experiments (e :: t)
  = match experiment_request e with
    | Some x => [x]
    | None => []
    end ++ submitted_experiments t.
Proof. reflexivity. Qed.

Lemma register_datasets_no_experiment (o : Orgs) :
  emits (fun e => experiment_request e = None) (register_datasets o).
Proof.
  unfold register_datasets. do 2 emits_step.
  match goal with
  | |- keeps _ _ _ (register_org _ ?ix _) => destruct ix as [i org]
  end.
  unfold register_org. repeat emits_step; auto.
Qed.

Lemma no_experiment (t : trace) :
  Forall (fun e => experiment_request e = None) t -> submitted_experiments t = [].
Proof.
  intros H. apply flat_map_nil. eapply Forall_impl; [|exact H].
  intros e ->. reflexivity.
Qed.

(** A run of the main part that submits an experiment has registered, for
    every data provider in turn, a dataset, a train sample and a test
    sample, and submits exactly one experiment, on the nodes built from
    these registrations. *)
Lemma main_reaches_experiment {W : Type} (h : platform W) (o : Orgs) w e :
  NoDup (DATA_PROVIDER_ORGS_ID o) ->
  In e (submitted_experiments (trace_of (run h (main o) w))) ->
  exists blocks mk c,
    map b_org blocks = DATA_PROVIDER_ORGS_ID o
    /\ map b_index blocks = seq 0 (List.length blocks)
    /\ Forall (fun b => get (clients o) (b_org b) = Some (b_client b)) blocks
    /\ datasets (trace_of (run h (main o) w)) = map (block_dataset o) blocks
    /\ samples (trace_of (run h (main o) w)) = flat_map block_samples blocks
    /\ submitted_experiments (trace_of (run h (main o) w)) = [e]
    /\ get (clients o) (ALGO_ORG_ID o) = Some c
    /\ e = experiment o c (map block_train_node blocks)
                          {| test_data_nodes := map (block_test_node mk) blocks;
                             rounds := 1 |}.
Proof.
  intros Hnd.
  destruct (run h (main o) w) as [[out w'] t] eqn:H.
  unfold trace_of. simpl snd. unfold main in H.
  (* data preparation *)
  rewrite run_bind in H.
  pose proof (emits_Forall _ _ (prepare_data_quiet o) W h w) as Q1.
  destruct (run h (prepare_data o) w) as [[[[]|x] w1] t1];
    unfold trace_of in Q1; simpl in Q1;
    [|injection H as <- <- <-; rewrite (quiet_experiments _ Q1); intros []].
  (* dataset registration *)
  rewrite run_bind in H.
  pose proof (emits_Forall _ _ (register_datasets_no_experiment o) W h w1) as Q2.
  destruct (run h (register_datasets o) w1) as [[[r|x] w2] t2] eqn:E2;
    unfold trace_of in Q2; simpl in Q2;
    [|injection H as <- <- <-; rewrite experiments_app,
        (quiet_experiments _ Q1), (no_experiment _ Q2); intros []].
  unfold register_datasets, enumerate in E2.
  destruct (registration_blocks h o _ _ _ _ _ _ _ E2 Hnd)
    as (blocks & Horgs & Hidx & Hds & Hs & Hx & Hall & _).
  rewrite <- Horgs, length_map in Hidx.
  assert (Hcl : Forall (fun b => get (clients o) (b_org b) = Some (b_client b))
                  blocks)
    by (eapply Forall_impl; [|exact Hall]; simpl; tauto).
  (* metric registration *)
  rewrite run_bind in H.
  pose proof (emits_Forall _ _ (register_metric_quiet o) W h w2) as Q3.
  destruct (run h (register_metric o) w2) as [[[mk|x] w3] t3];
    unfold trace_of in Q3; simpl in Q3;
    [|injection H as <- <- <-; rewrite !experiments_app,
        (quiet_experiments _ Q1), Hx, (quiet_experiments _ Q3); intros []].
  (* train and test nodes *)
  rewrite run_bind in H. rewrite <- Horgs in H.
  rewrite train_nodes_blocks in H
    by (eapply Forall_impl; [|exact Hall]; simpl; tauto).
  rewrite run_bind in H.
  rewrite test_nodes_blocks in H
    by (eapply Forall_impl; [|exact Hall]; simpl; tauto).
  (* the evaluation strategy *)
  rewrite run_bind in H. unfold EvaluationStrategy_init at 1 in H.
  simpl app in H.
  destruct (map (block_test_node mk) blocks) as [|n0 ns] eqn:Etest;
    cbn [run] in H;
    [injection H as <- <- <-; simpl; rewrite !experiments_app,
        (quiet_experiments _ Q1), Hx, (quiet_experiments _ Q3); intros []|].
  rewrite <- Etest in H. clear n0 ns Etest.
  rewrite run_bind in H. unfold getitem at 1 in H.
  destruct (get (clients o) (ALGO_ORG_ID o)) as [c|] eqn:Ec;
    [|injection H as <- <- <-; simpl; rewrite !experiments_app,
        (quiet_experiments _ Q1), Hx, (quiet_experiments _ Q3); intros []].
  cbn [run] in H.
  (* the experiment *)
  rewrite run_bind, run_ext in H. simpl app in H.
  match type of H with
  | context [h (execute_experiment ?x) ?w] =>
      destruct (h (execute_experiment x) w) as [[y|plan] w4]
  end.
  - injection H as <- <- <-.
    rewrite !experiments_app, !samples_app, !datasets_app,
      (quiet_experiments _ Q1), (quiet_samples _ Q1), (quiet_datasets _ Q1),
      Hx, Hs, Hds,
      (quiet_experiments _ Q3), (quiet_samples _ Q3), (quiet_datasets _ Q3).
    simpl. rewrite !app_nil_r. intros [<-|[]].
    exists blocks, mk, c. auto 10.
  - rewrite run_bind in H.
    pose proof (emits_Forall _ _ (explore_quiet o r plan) W h w4) as Q4.
    destruct (run h (explore o r plan) w4) as [[[res|x] w5] t5];
      unfold trace_of in Q4; simpl in Q4; cbn [run] in H;
      injection H as <- <- <-;
      rewrite ?app_nil_r;
      rewrite !experiments_app, !samples_app, !datasets_app,
        experiments_cons, samples_cons, datasets_cons,
        (quiet_experiments _ Q1), (quiet_samples _ Q1), (quiet_datasets _ Q1),
        Hx, Hs, Hds,
        (quiet_experiments _ Q3), (quiet_samples _ Q3), (quiet_datasets _ Q3),
        (quiet_experiments _ Q4), (quiet_samples _ Q4), (quiet_datasets _ Q4);
      simpl; rewrite ?app_nil_r; intros [<-|[]];
      exists blocks, mk, c; auto 10.
Qed.

(** The whole script: the setup followed by the main part. *)
Lemma script_trace {W : Type} (h : platform W) w :
  (exists x w1, run h setup w = (Fail x, w1, trace_of (run h script w)))
  \/ (exists o w1 t1,
        run h setup w = (Ok o, w1, t1)
        /\ trace_of (run h script w) = t1 ++ trace_of (run h (main o) w1)).
Proof.
  unfold script. rewrite run_bind.
  destruct (run h setup w) as [[[o|x] w1] t1].
  - right. exists o, w1, t1. split; [reflexivity|].
    now destruct (run h (main o) w1) as [[out w2] t2].
  - left. exists x, w1. reflexivity.
Qed.

Lemma setup_data_providers_NoDup {W : Type} (h : platform W) w o w1 t1 :
  run h setup w = (Ok o, w1, t1) -> NoDup (DATA_PROVIDER_ORGS_ID o).
Proof.
  intros H. pose proof (clients_keys_NoDup h w o w1 t1 H) as Hnd.
  destruct (setup_ok h w o w1 t1 H) as (? & ? & ? & ? & ? & ? & _ & _ & Ho & _ & Hd).
  apply data_providers_NoDup; [now rewrite Ho | exact Hd].
Qed.

Lemma script_reaches_experiment {W : Type} (h : platform W) w e :
  In e (submitted_experiments (trace_of (run h script w))) ->
  exists o w1 t1 blocks mk c,
    run h setup w = (Ok o, w1, t1)
    /\ map b_org blocks = DATA_PROVIDER_ORGS_ID o
    /\ map b_index blocks = seq 0 (List.length blocks)
    /\ Forall (fun b => get (clients o) (b_org b) = Some (b_client b)) blocks
    /\ datasets (trace_of (run h script w)) = map (block_dataset o) blocks
    /\ samples (trace_of (run h script w)) = flat_map block_samples blocks
    /\ submitted_experiments (trace_of (run h script w)) = [e]
    /\ get (clients o) (ALGO_ORG_ID o) = Some c
    /\ e = experiment o c (map block_train_node blocks)
                          {| test_data_nodes := map (block_test_node mk) blocks;
                             rounds := 1 |}.
Proof.
  destruct (script_trace h w) as [(x & w1 & Hs)|(o & w1 & t1 & Hs & ->)].
  - pose proof (setup_quiet h w) as Q. rewrite Hs in Q.
    change (Forall quiet (trace_of (run h script w))) in Q.
    rewrite (quiet_experiments _ Q). intros [].
  - pose proof (setup_quiet h w) as Q. rewrite Hs in Q.
    change (Forall quiet t1) in Q.
    rewrite experiments_app, samples_app, datasets_app.
    rewrite (quiet_experiments _ Q), (quiet_samples _ Q), (quiet_datasets _ Q).
    simpl. intros Hin.
    destruct (main_reaches_experiment h o w1 e
                (setup_data_providers_NoDup h w o w1 t1 Hs) Hin)
      as (blocks & mk & c & H1 & H2 & H3 & H4 & H5 & H6 & H7 & H8).
    exists o, w1, t1, blocks, mk, c. auto 10.
Qed.

(* ===================================================================== *)
(** ** The modelled rounds *)
(* ===================================================================== *)

Section RoundFacts.
Import FedAvgRounds.
Variable local_update : org_id -> params -> option (params * nat).
Variable evaluate : org_id -> params -> Q.
Variable by_sample_count : bool.
Variables train_orgs test_orgs : list org_id.
Variable eval_rounds : nat.

Let rounds_here :=
  rounds_from local_update evaluate by_sample_count train_orgs test_orgs eval_rounds.

Lemma completed_le (n r : nat) (g : params) :
  (completed (rounds_here n r g) <= n)%nat.
Proof.
  unfold rounds_here.
  revert r g. induction n as [|n IH]; intros r g; simpl; [lia|].
  destruct (train_all local_update train_orgs g) as [us|]; simpl; [|lia].
  specialize (IH (S r) (aggregate by_sample_count us)). lia.
Qed.

Hypothesis never_fails : forall org g, local_update org g <> None.

Lemma train_all_total (orgs : list org_id) (g : params) :
  exists us, train_all local_update orgs g = Some us.
Proof.
  induction orgs as [|org orgs [us IH]]; simpl; [eauto|].
  destruct (local_update org g) as [u|] eqn:E; [|now apply never_fails in E].
  rewrite IH. eauto.
Qed.

Lemma rounds_complete (n r : nat) (g : params) :
  completed (rounds_here n r g) = n
  /\ aborted (rounds_here n r g) = false
  /\ global (rounds_here n r g)
     = global_after local_update by_sample_count train_orgs n g
  /\ steps (rounds_here n r g)
     = flat_map (fun r' =>
                   map (local_training r') train_orgs ++ [aggregation r']
                   ++ map (evaluation r')
                        (if evaluation_due eval_rounds r' then test_orgs else []))
                (seq r n).
Proof.
  revert r g. induction n as [|n IH]; intros r g; simpl; [auto|].
  destruct (train_all_total train_orgs g) as [us Hus]. rewrite Hus. simpl.
  destruct (IH (S r) (aggregate by_sample_count us)) as (H1 & H2 & H3 & H4).
  unfold rounds_here in *. rewrite H1, H2, H3, H4.
  repeat split; auto. now rewrite <- !app_assoc.
Qed.

Lemma global_after_step (n : nat) (g : params) (us : list (params * nat)) :
  train_all local_update train_orgs g = Some us ->
  global_after local_update by_sample_count train_orgs (S n) g
  = global_after local_update by_sample_count train_orgs n
      (aggregate by_sample_count us).
Proof. intros H. simpl. now rewrite H. Qed.

Lemma rounds_scores (n r : nat) (g : params) :
  scores (rounds_here n r g)
  = flat_map (fun i =>
                map (fun org =>
                       {| worker := org;
                          round_idx := r + i;
                          performance :=
                            evaluate org
                              (global_after local_update by_sample_count
                                 train_orgs (S i) g) |})
                    (if evaluation_due eval_rounds (r + i) then test_orgs else []))
             (seq 0 n).
Proof.
  revert r g. induction n as [|n IH]; intros r g; [reflexivity|].
  cbn [rounds_here rounds_from]. unfold rounds_here in IH.
  destruct (train_all_total train_orgs g) as [us Hus]. rewrite Hus.
  cbn [scores seq flat_map]. rewrite IH, <- seq_shift, flat_map_after_map.
  rewrite (global_after_step 0 g us Hus), Nat.add_0_r.
  f_equal. apply flat_map_ext. intros i.
  replace (S r + i)%nat with (r + S i)%nat by lia.
  now rewrite (global_after_step (S i) g us Hus).
Qed.
End RoundFacts.

Lemma evaluation_due_every_round (r : nat) : FedAvgRounds.evaluation_due 1 r = true.
Proof. unfold FedAvgRounds.evaluation_due. now rewrite Nat.mod_1_r. Qed.

(* ===================================================================== *)
(** ** What every run of the script does *)
(* ===================================================================== *)

(** Stepping through the script, phase by phase. *)
Ltac script_step :=
  first
    [ match goal with
      | |- keeps _ _ _ (bind (EvaluationStrategy_init ?l _) _) =>
          unfold EvaluationStrategy_init; destruct l; cbn [bind]
      end
    | emits_step
    | match goal with
      | |- keeps _ _ _ (register_org _ ?ix _) =>
          destruct ix as [? ?]; unfold register_org
      | |- keeps _ _ _ (match client ?r with _ => _ end) => destruct (client r)
      | |- keeps _ _ _ (EvaluationStrategy_init ?l _) =>
          unfold EvaluationStrategy_init; destruct l
      end ].

Ltac script_steps :=
  unfold script, setup, main, prepare_data, register_datasets, register_metric,
    explore, plot_worker, add_train_node, add_test_node;
  repeat script_step.

Lemma script_experiments_configured : emits experiment_as_configured script.
Proof.
  script_steps; (split; [|exact I]); unfold experiment_as_configured; simpl; auto.
Qed.

Lemma script_samples_train_or_test : emits train_or_test_sample script.
Proof.
  script_steps; (split; [|exact I]); unfold train_or_test_sample; simpl; auto.
Qed.

Lemma main_permissions (o : Orgs) : emits (permissions_as_declared o) (main o).
Proof.
  script_steps; (split; [|exact I]);
    unfold permissions_as_declared, attached_permissions, dataset_permissions,
      metric_permissions; simpl;
    (split; [|split]); intros q Hq; simpl in Hq;
    repeat match goal with
           | H : _ \/ _ |- _ => destruct H
           | H : False |- _ => destruct H
           | H : _ = q |- _ => rewrite <- H; clear H
           end; simpl; auto.
Qed.

Lemma experiments_satisfy (t : trace) (e : Experiment) :
  Forall experiment_as_configured t ->
  In e (submitted_experiments t) ->
  num_rounds e = NUM_ROUNDS /\ rounds (evaluation_strategy e) = 1%nat
  /\ strategy e = FedAvg.
Proof.
  intros Hall Hin. apply in_flat_map in Hin. destruct Hin as (ev & Hev & Hin).
  rewrite Forall_forall in Hall. specialize (Hall ev Hev).
  unfold experiment_as_configured in Hall.
  destruct (experiment_request ev) as [x|]; [|destruct Hin].
  destruct Hin as [<-|[]]. exact Hall.
Qed.

(** One turn of the registration loop refers its two samples to the dataset
    it has just registered. *)
Lemma register_org_references (o : Orgs) (ix : nat * org_id) (r : Registered) :
  keeps latest_dataset references_dataset (fun _ => True) (register_org o ix r).
Proof.
  destruct ix as [i org]. intros W h w s _.
  unfold register_org, getitem.
  destruct (get (clients o) org) as [c|];
    [|unfold trace_of, outcome_of; simpl; split; [exact I|discriminate]].
  cbn -[get set].
  destruct (h (add_dataset c (dataset_spec o)) w) as [[e|k] w2];
    [unfold trace_of, outcome_of; simpl; split;
     [unfold references_dataset; simpl; auto|discriminate]|].
  rewrite get_set_same. cbn -[get set].
  destruct (truthy k); cbn -[get set];
    [|unfold trace_of, outcome_of; simpl; split;
      [unfold references_dataset; simpl; auto|discriminate]].
  match goal with
  | |- context [h ?c ?w] => destruct (h c w) as [[e|tk] w3]
  end;
    [unfold trace_of, outcome_of; simpl; split;
     [unfold references_dataset, latest_dataset; simpl; eauto|discriminate]|].
  match goal with
  | |- context [h ?c ?w] => destruct (h c w) as [[e|sk] w4]
  end;
    unfold trace_of, outcome_of; simpl; split;
    try discriminate; auto;
    unfold references_dataset, latest_dataset; simpl; eauto 10.
Qed.

Lemma script_references_datasets :
  keeps latest_dataset references_dataset (fun _ => True) script.
Proof.
  unfold script, setup, main, prepare_data, register_datasets, register_metric,
    explore, plot_worker, add_train_node, add_test_node.
  repeat first
    [ match goal with
      | |- keeps _ _ _ (register_org _ _ _) => apply register_org_references
      | |- keeps _ _ _ (match client ?r with _ => _ end) => destruct (client r)
      | |- keeps _ _ _ (bind (EvaluationStrategy_init ?l _) _) =>
          unfold EvaluationStrategy_init; destruct l; cbn [bind]
      end
    | emits_step ];
    (split; [|exact I]); unfold references_dataset; simpl; auto.
Qed.

(* ===================================================================== *)
(** ** Failures the script reports *)
(* ===================================================================== *)

Lemma genuine_ret {R : Type} (r : R) : genuine (Ret r).
Proof. intros W h w x H. discriminate H. Qed.

Lemma genuine_raise {R : Type} (e : failure) :
  (forall x, e <> External x) -> genuine (@Raise R e).
Proof.
  intros He W h w x H. unfold outcome_of in H. simpl in H.
  injection H as ->. now destruct (He x).
Qed.

Lemma genuine_ext (c : call) : genuine (ext c).
Proof.
  intros W h w x. rewrite run_ext.
  destruct (h c w) as [[e|v] w1]; unfold outcome_of, trace_of; simpl.
  - intros [= ->]. exists [], (Ev c (inl x)). auto.
  - discriminate.
Qed.

Lemma genuine_bind {A B : Type} (p : prog A) (f : A -> prog B) :
  genuine p -> (forall a, genuine (f a)) -> genuine (bind p f).
Proof.
  intros Hp Hf W h w x. rewrite run_bind.
  specialize (Hp W h w x).
  destruct (run h p w) as [[[a|e] w1] t1]; unfold outcome_of, trace_of in *;
    simpl in *.
  - specialize (Hf a W h w1 x).
    destruct (run h (f a) w1) as [[o w2] t2]. simpl in *.
    intros Ho. destruct (Hf Ho) as (t & ev & -> & Hev).
    exists (t1 ++ t), ev. now rewrite app_assoc.
  - intros [= ->]. apply Hp. reflexivity.
Qed.

Lemma genuine_for_each {A T : Type} (l : list A) (body : A -> T -> prog T) :
  (forall a acc, genuine (body a acc)) ->
  forall acc, genuine (for_each l body acc).
Proof.
  intros Hb. induction l as [|a l IH]; intros acc; simpl.
  - apply genuine_ret.
  - apply genuine_bind; auto.
Qed.

Lemma genuine_getitem {V : Type} (d : dict V) (k : string) : genuine (getitem d k).
Proof.
  unfold getitem. destruct (get d k); [apply genuine_ret|].
  apply genuine_raise. discriminate.
Qed.

Lemma genuine_index {A : Type} (l : list A) (i : nat) : genuine (index l i).
Proof.
  unfold index. destruct (nth_error l i); [apply genuine_ret|].
  apply genuine_raise. discriminate.
Qed.

Lemma genuine_assert (b : bool) (msg : string) : genuine (assert b msg).
Proof.
  unfold assert. destruct b; [apply genuine_ret|].
  apply genuine_raise. discriminate.
Qed.

(** The failures the script raises itself are Python's, never external ones. *)
Lemma script_genuine : genuine script.
Proof.
  unfold script, setup, main, prepare_data, register_datasets, register_metric,
    explore, plot_worker, add_train_node, add_test_node.
  repeat
    lazymatch goal with
    | |- genuine (bind ?p ?f) => apply (genuine_bind p f); [|intros ?]
    | |- genuine (Ret ?r) => apply (genuine_ret r)
    | |- genuine (ext ?c) => apply (genuine_ext c)
    | |- genuine (getitem ?d ?k) => apply (genuine_getitem d k)
    | |- genuine (index ?l ?i) => apply (genuine_index l i)
    | |- genuine (assert ?b ?m) => apply (genuine_assert b m)
    | |- genuine (for_each ?l ?body ?acc) =>
        apply (genuine_for_each l body); intros ? ?
    | |- genuine (Raise ?e) => apply genuine_raise; discriminate
    | |- genuine (register_org _ ?ix _) =>
        destruct ix as [? ?]; unfold register_org
    | |- genuine (match client ?r with _ => _ end) => destruct (client r)
    | |- genuine (EvaluationStrategy_init ?l _) =>
        unfold EvaluationStrategy_init; destruct l
    end.
Qed.

(* ===================================================================== *)
(** ** Handlers *)
(* ===================================================================== *)

Lemma handler_free_bind {A B : Type} (p : prog A) (f : A -> prog B) :
  handler_free p -> (forall a, handler_free (f a)) -> handler_free (bind p f).
Proof.
  revert B f.
  induction p as [A a|A e|A c k IH|A body _ handler _ k _]; intros B f Hp Hf;
    simpl in *; auto.
Qed.

Lemma handler_free_ext (c : call) : handler_free (ext c).
Proof. unfold ext. simpl. auto. Qed.

Lemma handler_free_for_each {A T : Type} (l : list A) (body : A -> T -> prog T) :
  (forall a acc, handler_free (body a acc)) ->
  forall acc, handler_free (for_each l body acc).
Proof.
  intros Hb. induction l as [|a l IH]; intros acc; simpl; [exact I|].
  apply handler_free_bind; auto.
Qed.

Lemma handler_free_getitem {V : Type} (d : dict V) (k : string) :
  handler_free (getitem d k).
Proof. unfold getitem. now destruct (get d k). Qed.

Lemma handler_free_index {A : Type} (l : list A) (i : nat) :
  handler_free (index l i).
Proof. unfold index. now destruct (nth_error l i). Qed.

Lemma handler_free_assert (b : bool) (msg : string) : handler_free (assert b msg).
Proof. unfold assert. now destruct b. Qed.

(** The script has no [try] statement. *)
Lemma script_handler_free : handler_free script.
Proof.
  unfold script, setup, main, prepare_data, register_datasets, register_metric,
    explore, plot_worker, add_train_node, add_test_node.
  repeat
    lazymatch goal with
    | |- handler_free (bind ?p ?f) => apply (handler_free_bind p f); [|intros ?]
    | |- handler_free (Ret ?r) => exact I
    | |- handler_free (Raise ?e) => exact I
    | |- handler_free (ext ?c) => apply (handler_free_ext c)
    | |- handler_free (getitem ?d ?k) => apply (handler_free_getitem d k)
    | |- handler_free (index ?l ?i) => apply (handler_free_index l i)
    | |- handler_free (assert ?b ?m) => apply (handler_free_assert b m)
    | |- handler_free (for_each ?l ?body ?acc) =>
        apply (handler_free_for_each l body); intros ? ?
    | |- handler_free (register_org _ ?ix _) =>
        destruct ix as [? ?]; unfold register_org
    | |- handler_free (match client ?r with _ => _ end) => destruct (client r)
    | |- handler_free (EvaluationStrategy_init ?l _) =>
        unfold EvaluationStrategy_init; destruct l
    end.
Qed.

(** A handler is what would break propagation: this block swallows the
    failure of its call and returns. *)
Example handled_failure_is_swallowed :
  let p := Try (ext (mkdir ["tmp"])) (fun _ => Ret tt) (Ret tt) in
  outcome_of (run (failing_at 0) p (0%nat, fresh_world)) = Ok tt
  /\ failures (trace_of (run (failing_at 0) p (0%nat, fresh_world))) = ["refused"].
Proof. split; reflexivity. Qed.

(* ===================================================================== *)
(** ** The assertion on the dataset key *)
(* ===================================================================== *)

Lemma asserts_ret {R : Type} (r : R) : asserts_on_empty_key (Ret r).
Proof. intros W h w m H. discriminate H. Qed.

Lemma asserts_raise {R : Type} (e : failure) :
  (forall m, e <> AssertionError m) -> asserts_on_empty_key (@Raise R e).
Proof.
  intros He W h w m H. unfold outcome_of in H. simpl in H.
  injection H as ->. now destruct (He m).
Qed.

Lemma asserts_ext (c : call) : asserts_on_empty_key (ext c).
Proof.
  intros W h w m. rewrite run_ext.
  destruct (h c w) as [[e|v] w1]; unfold outcome_of; simpl; discriminate.
Qed.

Lemma asserts_bind {A B : Type} (p : prog A) (f : A -> prog B) :
  asserts_on_empty_key p -> (forall a, asserts_on_empty_key (f a)) ->
  asserts_on_empty_key (bind p f).
Proof.
  intros Hp Hf W h w m. rewrite run_bind.
  specialize (Hp W h w m).
  destruct (run h p w) as [[[a|e] w1] t1]; unfold outcome_of, trace_of in *;
    simpl in *.
  - specialize (Hf a W h w1 m).
    destruct (run h (f a) w1) as [[o w2] t2]. simpl in *.
    intros Ho. destruct (Hf Ho) as (Hm & t & ev & -> & Hev).
    split; [exact Hm|]. exists (t1 ++ t), ev. now rewrite app_assoc.
  - intros [= ->]. apply Hp. reflexivity.
Qed.

Lemma asserts_for_each {A T : Type} (l : list A) (body : A -> T -> prog T) :
  (forall a acc, asserts_on_empty_key (body a acc)) ->
  forall acc, asserts_on_empty_key (for_each l body acc).
Proof.
  intros Hb. induction l as [|a l IH]; intros acc; simpl.
  - apply asserts_ret.
  - apply asserts_bind; auto.
Qed.

Lemma asserts_getitem {V : Type} (d : dict V) (k : string) :
  asserts_on_empty_key (getitem d k).
Proof.
  unfold getitem. destruct (get d k); [apply asserts_ret|].
  apply asserts_raise. discriminate.
Qed.

Lemma asserts_index {A : Type} (l : list A) (i : nat) :
  asserts_on_empty_key (index l i).
Proof.
  unfold index. destruct (nth_error l i); [apply asserts_ret|].
  apply asserts_raise. discriminate.
Qed.

(** A registration followed by a check of its answer. *)
Lemma asserts_checked_registration {B : Type} (c : call) (f : resp c -> prog B) :
  (forall v,
      (empty_key (Ev c (inr v))
       /\ forall (W : Type) (h : platform W) (w : W),
            run h (f v) w = (Fail (AssertionError "Missing dataset key"), w, []))
      \/ asserts_on_empty_key (f v)) ->
  asserts_on_empty_key (bind (ext c) f).
Proof.
  intros Hf W h w m. rewrite run_bind, run_ext.
  destruct (h c w) as [[e|v] w1]; unfold outcome_of, trace_of; simpl;
    [discriminate|].
  destruct (Hf v) as [[Hev Hrun]|Hgen].
  - rewrite Hrun. simpl. intros [= <-]. split; [reflexivity|].
    exists [], (Ev c (inr v)). auto.
  - specialize (Hgen W h w1 m).
    destruct (run h (f v) w1) as [[out w2] tf].
    unfold outcome_of, trace_of in *. simpl in *.
    intros Ho. destruct (Hgen Ho) as (Hm & t & ev & -> & Hev).
    split; [exact Hm|]. exists (Ev c (inr v) :: t), ev. auto.
Qed.

Ltac asserts_step :=
  lazymatch goal with
  | |- asserts_on_empty_key (bind ?p ?f) => apply (asserts_bind p f); [|intros ?]
  | |- asserts_on_empty_key (Ret ?r) => apply (asserts_ret r)
  | |- asserts_on_empty_key (Raise ?e) => apply asserts_raise; discriminate
  | |- asserts_on_empty_key (ext ?c) => apply (asserts_ext c)
  | |- asserts_on_empty_key (getitem ?d ?k) => apply (asserts_getitem d k)
  | |- asserts_on_empty_key (index ?l ?i) => apply (asserts_index l i)
  | |- asserts_on_empty_key (for_each ?l ?body ?acc) =>
      apply (asserts_for_each l body); intros ? ?
  | |- asserts_on_empty_key (match client ?r with _ => _ end) =>
      destruct (client r)
  | |- asserts_on_empty_key (EvaluationStrategy_init ?l _) =>
      unfold EvaluationStrategy_init; destruct l
  end.

Lemma register_org_asserts (o : Orgs) (ix : nat * org_id) (r : Registered) :
  asserts_on_empty_key (register_org o ix r).
Proof.
  destruct ix as [i org]. unfold register_org.
  apply asserts_bind; [apply asserts_getitem|intros c].
  apply asserts_checked_registration. intros k.
  unfold getitem. rewrite !get_set_same. cbn [bind].
  destruct k as [|a k].
  - left. split; [split; [discriminate|reflexivity]|]. intros W h w. reflexivity.
  - right. cbn [truthy assert bind]. repeat asserts_step.
Qed.

Lemma script_asserts_on_empty_key : asserts_on_empty_key script.
Proof.
  unfold script, setup, main, prepare_data, register_datasets, register_metric,
    explore, plot_worker, add_train_node, add_test_node.
  repeat
    lazymatch goal with
    | |- asserts_on_empty_key (register_org ?o ?ix ?r) =>
        apply (register_org_asserts o ix r)
    | |- _ => asserts_step
    end.
Qed.

(* ===================================================================== *)
(** ** The claims about the script *)
(* ===================================================================== *)

(** C3. The script authors no error handling: it has no [try] statement.
    Hence, whatever the platform does, a failing external call is the last
    thing the script does and the script ends with that very failure: it
    is not caught, changed or dropped.  A run that returns has seen no
    failure, and an external failure the script ends with is the one its
    last call raised.  The one check the script writes itself, the
    [assert] on the dataset key, handles no failure either: it fires only
    in a run in which no call failed, right after a dataset registration
    that returned the empty key. *)
Theorem external_failures_propagate :
  handler_free script
  /\ forall (W : Type) (h : platform W) (w : W),
      (forall t1 ev t2 x,
          trace_of (run h script w) = t1 ++ ev :: t2 ->
          failed ev = Some x ->
          t2 = [] /\ outcome_of (run h script w) = Fail (External x))
      /\ (forall r, outcome_of (run h script w) = Ok r ->
                    failures (trace_of (run h script w)) = [])
      /\ (forall x, outcome_of (run h script w) = Fail (External x) ->
                    exists t1 ev, trace_of (run h script w) = t1 ++ [ev]
                                  /\ failed ev = Some x)
      /\ (forall m, outcome_of (run h script w) = Fail (AssertionError m) ->
                    m = "Missing dataset key"
                    /\ failures (trace_of (run h script w)) = []
                    /\ exists t1 ev, trace_of (run h script w) = t1 ++ [ev]
                                     /\ empty_key ev).
Proof.
  split; [exact script_handler_free|].
  intros W h w.
  assert (Hfinal : forall t1 ev t2 x,
             trace_of (run h script w) = t1 ++ ev :: t2 ->
             failed ev = Some x ->
             t2 = [] /\ outcome_of (run h script w) = Fail (External x))
    by (apply run_failure_is_final, script_handler_free).
  assert (Hquiet : forall f, (forall x, f <> External x) ->
                             outcome_of (run h script w) = Fail f
                             \/ (exists r, outcome_of (run h script w) = Ok r) ->
                             failures (trace_of (run h script w)) = []).
  { intros f Hf Hout. apply failures_nil_iff. intros ev Hin.
    destruct (failed ev) as [x|] eqn:E; [|reflexivity].
    apply in_split in Hin. destruct Hin as (t1 & t2 & Ht).
    destruct (Hfinal t1 ev t2 x Ht E) as [_ Hx].
    destruct Hout as [Hout|[r Hout]]; rewrite Hout in Hx;
      [injection Hx as ->; now destruct (Hf x)|discriminate Hx]. }
  split; [exact Hfinal|]. split; [|split].
  - intros r Hr. apply (Hquiet IndexError); [discriminate|eauto].
  - apply script_genuine.
  - intros m Hm.
    destruct (script_asserts_on_empty_key W h w m Hm) as (-> & t1 & ev & Ht & Hev).
    split; [reflexivity|]. split; [|eauto].
    apply (Hquiet (AssertionError "Missing dataset key")); [discriminate|auto].
Qed.

Lemma external_failures_propagate_witness :
  outcome_of (run (failing_at 9) script (0%nat, fresh_world))
  = Fail (External "refused").
Proof.
  destruct external_failures_propagate as [_ H].
  destruct (H _ (failing_at 9) (0%nat, fresh_world)) as [Hfinal _].
  refine (proj2 (Hfinal
                   (firstn 9 (trace_of (run (failing_at 9) script (0%nat, fresh_world))))
                   (Ev (add_data_sample (Session 1)
                          {| data_manager_keys := ["dataset-0"];
                             test_only := false;
                             path := ["tmp"; "data_mnist"; "org_1"; "train"] |})
                       (inl "refused"))
                   [] "refused" _ _)).
  - vm_compute. reflexivity.
  - reflexivity.
Defined.

(** C6. In every run, each data sample the script asks to register names
    exactly one dataset key, and it is the key the platform returned for the
    dataset registered just before through the same client, that is for the
    same organization. *)
Theorem data_samples_reference_registered_dataset :
  forall (W : Type) (h : platform W) (w : W),
    accepts latest_dataset references_dataset None (trace_of (run h script w)).
Proof.
  intros W h w.
  exact (keeps_accepts _ _ _ _ script_references_datasets W h w None I).
Qed.

(** The monitor is not idle: it rejects a sample that names another key
    than the one its dataset got, and a sample registered through another
    client than the dataset. *)
Example foreign_key_is_rejected :
  ~ accepts latest_dataset references_dataset None
      [Ev (add_dataset (Session 1) (dataset_spec
             {| clients := []; ORGS_ID := []; ALGO_ORG_ID := "MyOrg1MSP";
                DATA_PROVIDER_ORGS_ID := [] |})) (inr "dataset-0");
       Ev (add_data_sample (Session 1)
             {| data_manager_keys := ["dataset-9"]; test_only := false;
                path := data_path ++ [org_folder 0; "train"] |}) (inr "sample-1")].
Proof.
  simpl. unfold references_dataset, latest_dataset. simpl.
  intros (_ & (k & Hk & Hkeys) & _). congruence.
Qed.

Example foreign_client_is_rejected :
  ~ accepts latest_dataset references_dataset None
      [Ev (add_dataset (Session 1) (dataset_spec
             {| clients := []; ORGS_ID := []; ALGO_ORG_ID := "MyOrg1MSP";
                DATA_PROVIDER_ORGS_ID := [] |})) (inr "dataset-0");
       Ev (add_data_sample (Session 2)
             {| data_manager_keys := ["dataset-0"]; test_only := false;
                path := data_path ++ [org_folder 0; "train"] |}) (inr "sample-1")].
Proof.
  simpl. unfold references_dataset, latest_dataset. simpl.
  intros (_ & (k & Hk & Hkeys) & _). congruence.
Qed.

(** C10. In every run, every permission object attached to a registered
    asset is not public and authorizes the algorithm provider; the
    permissions of a dataset authorize the algorithm provider alone, those
    of the metric the algorithm provider followed by the data providers. *)
Theorem permissions_authorize_algo_provider :
  forall (W : Type) (h : platform W) (w : W) (p : Permissions),
    In p (flat_map attached_permissions (trace_of (run h script w))) ->
    exists o w1 t1,
      run h setup w = (Ok o, w1, t1)
      /\ public p = false
      /\ In (ALGO_ORG_ID o) (authorized_ids p)
      /\ (In p (flat_map dataset_permissions (trace_of (run h script w))) ->
          authorized_ids p = [ALGO_ORG_ID o])
      /\ (In p (flat_map metric_permissions (trace_of (run h script w))) ->
          authorized_ids p = ALGO_ORG_ID o :: DATA_PROVIDER_ORGS_ID o).
Proof.
  intros W h w p.
  destruct (script_trace h w) as [(x & w1 & Hs)|(o & w1 & t1 & Hs & ->)].
  - pose proof (setup_no_permissions h w) as Q. rewrite Hs in Q.
    change (flat_map attached_permissions (trace_of (run h script w)) = []) in Q.
    rewrite Q. intros [].
  - pose proof (setup_no_permissions h w) as Q. rewrite Hs in Q.
    change (flat_map attached_permissions t1 = []) in Q.
    assert (Qd : flat_map dataset_permissions t1 = []).
    { clear -Q. induction t1 as [|e t1 IH]; [reflexivity|]. simpl in *.
      apply app_eq_nil in Q. destruct Q as [Q1 Q2].
      unfold attached_permissions in Q1. apply app_eq_nil in Q1.
      destruct Q1 as [-> _]. auto. }
    assert (Qm : flat_map metric_permissions t1 = []).
    { clear -Q. induction t1 as [|e t1 IH]; [reflexivity|]. simpl in *.
      apply app_eq_nil in Q. destruct Q as [Q1 Q2].
      unfold attached_permissions in Q1. apply app_eq_nil in Q1.
      destruct Q1 as [_ ->]. auto. }
    rewrite !flat_map_app, Q, Qd, Qm. simpl.
    pose proof (emits_Forall _ _ (main_permissions o) W h w1) as Hall.
    rewrite Forall_forall in Hall.
    intros Hin. apply in_flat_map in Hin. destruct Hin as (ev & Hev & Hp).
    destruct (Hall ev Hev) as (Ha & _).
    destruct (Ha p Hp) as [Hpub Halgo].
    exists o, w1, t1. repeat split; auto.
    + intros Hd. apply in_flat_map in Hd. destruct Hd as (ev' & Hev' & Hp').
      destruct (Hall ev' Hev') as (_ & Hd' & _). auto.
    + intros Hm. apply in_flat_map in Hm. destruct Hm as (ev' & Hev' & Hp').
      destruct (Hall ev' Hev') as (_ & _ & Hm'). auto.
Qed.

Lemma permissions_authorize_algo_provider_witness :
  exists o w1 t1,
    run local_platform setup fresh_world = (Ok o, w1, t1)
    /\ ALGO_ORG_ID o = "MyOrg1MSP"
    /\ In (ALGO_ORG_ID o)
          (authorized_ids
             {| public := false;
                authorized_ids := ["MyOrg1MSP"; "MyOrg2MSP"; "MyOrg3MSP"] |}).
Proof.
  destruct (permissions_authorize_algo_provider world local_platform fresh_world
              {| public := false;
                 authorized_ids := ["MyOrg1MSP"; "MyOrg2MSP"; "MyOrg3MSP"] |})
    as (o & w1 & t1 & Hs & _ & Hin & _).
  - vm_compute. do 4 right. left. reflexivity.
  - exists o, w1, t1. split; [exact Hs|]. split; [|exact Hin].
    vm_compute in Hs. injection Hs as <- _ _. reflexivity.
Defined.

(** C2. Every experiment the script submits asks for exactly [NUM_ROUNDS = 3]
    rounds.  On these arguments the modelled runner never starts a fourth
    round whatever the local steps and the scores are, and when no local
    step fails it runs rounds 1, 2 and 3, each being the local training of
    every train node followed by one aggregation (and the evaluation), and
    then stops: the scores have no influence on the number of rounds. *)
Theorem experiment_runs_fixed_number_of_rounds :
  forall (W : Type) (h : platform W) (w : W) (e : Experiment),
    In e (submitted_experiments (trace_of (run h script w))) ->
    num_rounds e = 3%nat
    /\ forall local_update evaluate by_sample_count g0,
        let res := FedAvgRounds.execute local_update evaluate by_sample_count e g0 in
        (FedAvgRounds.completed res <= 3)%nat
        /\ ((forall org g, local_update org g <> None) ->
            FedAvgRounds.completed res = 3%nat
            /\ FedAvgRounds.aborted res = false
            /\ FedAvgRounds.steps res
               = flat_map
                   (FedAvgRounds.round_steps
                      (map organization_id (train_data_nodes e))
                      (map test_organization_id
                         (test_data_nodes (evaluation_strategy e))))
                   [1; 2; 3]%nat).
Proof.
  intros W h w e Hin.
  destruct (experiments_satisfy _ e
              (emits_Forall _ _ script_experiments_configured W h w) Hin)
    as (Hn & Hr & _).
  split; [exact Hn|].
  intros lu ev bsc g0 res. subst res. unfold FedAvgRounds.execute.
  rewrite Hn, Hr. split; [apply completed_le|].
  intros Hnf.
  destruct (rounds_complete lu ev bsc
              (map organization_id (train_data_nodes e))
              (map test_organization_id (test_data_nodes (evaluation_strategy e)))
              1 Hnf NUM_ROUNDS 1 g0) as (H1 & H2 & _ & H4).
  split; [exact H1|]. split; [exact H2|].
  rewrite H4. apply flat_map_ext. intros r.
  now rewrite evaluation_due_every_round.
Qed.

Lemma experiment_runs_fixed_number_of_rounds_witness :
  exists e, In e (submitted_experiments (trace_of local_run))
            /\ num_rounds e = 3%nat.
Proof.
  eexists.
  refine ((fun Hin => conj Hin
             (proj1 (experiment_runs_fixed_number_of_rounds
                       world local_platform fresh_world _ Hin))) _).
  vm_compute. left. reflexivity.
Defined.

Lemma block_samples_length (blocks : list OrgBlock) :
  List.length (flat_map block_samples blocks) = (2 * List.length blocks)%nat.
Proof. induction blocks as [|b blocks IH]; simpl; [reflexivity|]. rewrite IH. lia. Qed.

(** C7. In every run each data sample is either a train sample
    ([test_only=False], folder [train]) or a test sample ([test_only=True],
    folder [test]).  In a run that gets as far as submitting the experiment,
    the samples registered are, for each data provider in turn, exactly two,
    both against the dataset of that organization: first the train sample,
    then the test sample; the train node of the organization carries the key
    of its train sample only, the test node the key of its test sample
    only. *)
Theorem two_samples_per_data_provider :
  forall (W : Type) (h : platform W) (w : W),
    Forall train_or_test_sample (trace_of (run h script w))
    /\ forall e,
        In e (submitted_experiments (trace_of (run h script w))) ->
        exists o w1 t1 blocks mk,
          run h setup w = (Ok o, w1, t1)
          /\ map b_org blocks = DATA_PROVIDER_ORGS_ID o
          /\ Forall (fun b => get (clients o) (b_org b) = Some (b_client b)) blocks
          /\ datasets (trace_of (run h script w)) = map (block_dataset o) blocks
          /\ samples (trace_of (run h script w)) = flat_map block_samples blocks
          /\ List.length (samples (trace_of (run h script w)))
             = (2 * List.length (DATA_PROVIDER_ORGS_ID o))%nat
          /\ train_data_nodes e = map block_train_node blocks
          /\ test_data_nodes (evaluation_strategy e)
             = map (block_test_node mk) blocks.
Proof.
  intros W h w. split.
  - apply (emits_Forall _ _ script_samples_train_or_test).
  - intros e Hin.
    destruct (script_reaches_experiment h w e Hin)
      as (o & w1 & t1 & blocks & mk & c & Hs & Ho & _ & Hc & Hds & Hsam & _ & _ & ->).
    exists o, w1, t1, blocks, mk. repeat split; auto.
    rewrite Hsam, block_samples_length, <- Ho, length_map. reflexivity.
Qed.

Lemma two_samples_per_data_provider_witness :
  exists e o blocks,
    In e (submitted_experiments (trace_of local_run))
    /\ map b_org blocks = DATA_PROVIDER_ORGS_ID o
    /\ samples (trace_of local_run) = flat_map block_samples blocks
    /\ train_data_nodes e = map block_train_node blocks.
Proof.
  destruct (submitted_experiments (trace_of local_run)) as [|e l] eqn:E;
    [vm_compute in E; discriminate E|].
  assert (Hin : In e (submitted_experiments (trace_of local_run)))
    by (rewrite E; left; reflexivity).
  destruct (proj2 (two_samples_per_data_provider world local_platform fresh_world)
              e Hin)
    as (o & w1 & t1 & blocks & mk & _ & Ho & _ & _ & Hsam & _ & Htrain & _).
  exists e, o, blocks. rewrite <- E. auto.
Defined.

(** C4. The evaluation strategy the script submits evaluates every round
    ([rounds=1]) on one test node per data provider, holding that
    organization's dataset key and the key of its test sample.  On these
    arguments the modelled runner, when no local step fails, records for
    every round 1, 2, 3 and every data provider one score: that of the
    global model after that round, filed under the round index and the
    organization. *)
Theorem evaluation_after_every_round :
  forall (W : Type) (h : platform W) (w : W) (e : Experiment),
    In e (submitted_experiments (trace_of (run h script w))) ->
    exists o w1 t1 blocks mk,
      run h setup w = (Ok o, w1, t1)
      /\ map b_org blocks = DATA_PROVIDER_ORGS_ID o
      /\ samples (trace_of (run h script w)) = flat_map block_samples blocks
      /\ evaluation_strategy e
         = {| test_data_nodes := map (block_test_node mk) blocks; rounds := 1 |}
      /\ forall local_update evaluate by_sample_count g0,
          (forall org g, local_update org g <> None) ->
          FedAvgRounds.scores
            (FedAvgRounds.execute local_update evaluate by_sample_count e g0)
          = flat_map
              (fun r =>
                 map (fun org =>
                        {| worker := org;
                           round_idx := r;
                           performance :=
                             evaluate org
                               (FedAvgRounds.global_after local_update
                                  by_sample_count
                                  (map organization_id (train_data_nodes e))
                                  r g0) |})
                     (DATA_PROVIDER_ORGS_ID o))
              [1; 2; 3]%nat.
Proof.
  intros W h w e Hin.
  destruct (script_reaches_experiment h w e Hin)
    as (o & w1 & t1 & blocks & mk & c & Hs & Ho & _ & _ & _ & Hsam & _ & _ & ->).
  exists o, w1, t1, blocks, mk. repeat split; auto.
  intros lu ev bsc g0 Hnf. unfold FedAvgRounds.execute.
  rewrite (rounds_scores lu ev bsc _ _ _ Hnf). simpl.
  rewrite !app_nil_r.
  assert (Horgs : map test_organization_id (map (block_test_node mk) blocks)
                  = DATA_PROVIDER_ORGS_ID o).
  { rewrite <- Ho, map_map. reflexivity. }
  rewrite Horgs. reflexivity.
Qed.

Lemma evaluation_after_every_round_witness :
  exists e, In e (submitted_experiments (trace_of local_run))
            /\ rounds (evaluation_strategy e) = 1%nat.
Proof.
  destruct (submitted_experiments (trace_of local_run)) as [|e l] eqn:E;
    [vm_compute in E; discriminate E|].
  assert (Hin : In e (submitted_experiments (trace_of local_run)))
    by (rewrite E; left; reflexivity).
  destruct (evaluation_after_every_round world local_platform fresh_world e Hin)
    as (o & w1 & t1 & blocks & mk & _ & _ & _ & Hev & _).
  exists e. rewrite <- E. split; [exact Hin|]. now rewrite Hev.
Defined.

(* ===================================================================== *)
(** ** The metric *)
(* ===================================================================== *)

Lemma fraction_in_unit_interval (a b : nat) :
  (a <= b)%nat -> (0 < b)%nat ->
  0 <= inject_Z (Z.of_nat a) / inject_Z (Z.of_nat b)
  /\ inject_Z (Z.of_nat a) / inject_Z (Z.of_nat b) <= 1.
Proof.
  intros Hab Hb.
  assert (Hpos : 0 < inject_Z (Z.of_nat b)).
  { change 0 with (inject_Z 0). rewrite <- Zlt_Qlt. lia. }
  split.
  - apply Qle_shift_div_l; [assumption|]. rewrite Qmult_0_l.
    change 0 with (inject_Z 0). rewrite <- Zle_Qle. lia.
  - apply Qle_shift_div_r; [assumption|]. rewrite Qmult_1_l.
    rewrite <- Zle_Qle. lia.
Qed.

Lemma average_in_unit_interval (score : list bool) :
  score <> [] ->
  exists q, Metric.average score = real q /\ 0 <= q /\ q <= 1.
Proof.
  destruct score as [|b l]; [congruence|]. intros _.
  eexists. split; [reflexivity|].
  apply fraction_in_unit_interval; [apply count_occ_bound|simpl; lia].
Qed.

(** C1, as the code has it.  For a label array and a prediction array with
    the same number of rows, at least one row, and at least one class score
    per row, [accuracy] returns a value in the closed interval [0, 1]. *)
Theorem accuracy_in_unit_interval :
  forall (A : Type) (gtb : A -> A -> bool) (ds : datasamples)
         (y_pred : ndarray2 A),
    List.length (labels ds) = List.length (rows y_pred) ->
    (0 < List.length (rows y_pred))%nat ->
    (0 < shape1 y_pred)%nat ->
    exists q, Metric.accuracy gtb ds y_pred = inr (real q) /\ 0 <= q /\ q <= 1.
Proof.
  intros A gtb ds y_pred Hlen Hrows Hcols.
  unfold Metric.accuracy, Metric.argmax_axis1.
  destruct (Nat.eqb_spec (shape1 y_pred) 0) as [E|_]; [lia|].
  unfold Metric.accuracy_score. rewrite length_map, Hlen, Nat.eqb_refl.
  destruct (average_in_unit_interval
              (map (fun tp => Z.eqb (fst tp) (snd tp))
                 (combine (labels ds)
                    (map (fun row => Z.of_nat (Metric.argmax_row gtb row))
                       (rows y_pred)))))
    as (q & Hq & Hb).
  - destruct (labels ds) as [|l0 ls]; [simpl in Hlen; lia|].
    destruct (rows y_pred) as [|r0 rs]; [simpl in Hrows; lia|]. discriminate.
  - exists q. rewrite Hq. auto.
Qed.

Lemma accuracy_in_unit_interval_witness :
  exists q,
    Metric.accuracy Qgtb {| images := []; labels := [1; 0; 1]%Z |}
      {| shape1 := 2;
         rows := [[1 # 10; 9 # 10]; [8 # 10; 2 # 10]; [7 # 10; 3 # 10]] |}
    = inr (real q) /\ 0 <= q /\ q <= 1.
Proof.
  apply (accuracy_in_unit_interval Q Qgtb
           {| images := []; labels := [1; 0; 1]%Z |}
           {| shape1 := 2;
              rows := [[1 # 10; 9 # 10]; [8 # 10; 2 # 10]; [7 # 10; 3 # 10]] |});
    simpl; lia.
Defined.

(** Two of three predictions right. *)
Example accuracy_two_thirds :
  Metric.accuracy Qgtb {| images := []; labels := [1; 0; 1]%Z |}
    {| shape1 := 2;
       rows := [[1 # 10; 9 # 10]; [8 # 10; 2 # 10]; [7 # 10; 3 # 10]] |}
  = inr (real (inject_Z 2 / inject_Z 3)).
Proof. reflexivity. Qed.

(** C1 as stated fails on arrays of equal length zero, where the score is
    NaN, and on prediction rows without any class score, where the argmax
    raises. *)
Lemma accuracy_of_empty_arrays_is_nan :
  let ds := {| images := []; labels := [] |} in
  let y_pred := {| shape1 := 10; rows := @nil (list Q) |} in
  let ds1 := {| images := []; labels := [3%Z] |} in
  let y_pred1 := {| shape1 := 0; rows := [@nil Q] |} in
  (List.length (labels ds) = List.length (rows y_pred)
   /\ Metric.accuracy Qgtb ds y_pred = inr nan
   /\ ~ exists q, Metric.accuracy Qgtb ds y_pred = inr (real q)
                  /\ 0 <= q /\ q <= 1)
  /\ (List.length (labels ds1) = List.length (rows y_pred1)
      /\ ~ exists q, Metric.accuracy Qgtb ds1 y_pred1 = inr (real q)
                     /\ 0 <= q /\ q <= 1).
Proof.
  simpl. repeat split; try reflexivity; intros (q & Hq & _); discriminate Hq.
Qed.

(* ===================================================================== *)
(** ** The torch dataset *)
(* ===================================================================== *)

Lemma py_index_in_bounds {A : Type} (l : list A) (idx : Z) (d : A) :
  in_bounds l idx ->
  py_index l idx = inr (nth (Z.to_nat (idx mod Z.of_nat (List.length l))) l d).
Proof.
  unfold in_bounds, py_index. intros Hb.
  set (n := Z.of_nat (List.length l)) in *.
  assert (Hn : (0 < n)%Z) by lia.
  destruct (Z.ltb_spec idx 0) as [Hneg|Hpos].
  - assert (Hmod : (idx mod n = idx + n)%Z).
    { symmetry. apply (Z.mod_unique idx n (-1) (idx + n)); lia. }
    rewrite Hmod.
    destruct (Z.leb_spec 0 (idx + n)) as [_|]; [|lia].
    destruct (Z.ltb_spec (idx + n) n) as [_|]; [|lia]. simpl.
    rewrite (nth_error_nth' l d); [reflexivity|]. subst n. lia.
  - rewrite Z.mod_small by lia.
    destruct (Z.leb_spec 0 idx) as [_|]; [|lia].
    destruct (Z.ltb_spec idx n) as [_|]; [|lia]. simpl.
    rewrite (nth_error_nth' l d); [reflexivity|]. subst n. lia.
Qed.

Lemma one_hot_in_range (cls : Z) (n : nat) :
  (0 <= cls < Z.of_nat n)%Z ->
  exists target,
    TorchDataset.one_hot cls n = inr target
    /\ List.length target = n
    /\ forall j, (j < n)%nat ->
                 nth j target 0%Z = if (Z.of_nat j =? cls)%Z then 1%Z else 0%Z.
Proof.
  intros Hr. unfold TorchDataset.one_hot.
  destruct (Z.ltb_spec cls 0) as [|_]; [lia|].
  destruct (Z.leb_spec (Z.of_nat n) cls) as [|_]; [lia|].
  eexists. split; [reflexivity|]. split.
  - now rewrite length_map, length_seq.
  - intros j Hj.
    set (f := fun j : nat => if (Z.of_nat j =? cls)%Z then 1%Z else 0%Z).
    change (nth j (map f (seq 0 n)) 0%Z = f j).
    rewrite (nth_indep _ 0%Z (f 0%nat)) by (now rewrite length_map, length_seq).
    rewrite map_nth, seq_nth by assumption. reflexivity.
Qed.

Lemma one_hot_out_of_range (cls : Z) (n : nat) :
  ~ (0 <= cls < Z.of_nat n)%Z -> exists e, TorchDataset.one_hot cls n = inl e.
Proof.
  intros Hr. unfold TorchDataset.one_hot.
  destruct (Z.ltb_spec cls 0) as [|Hge]; [eauto|].
  destruct (Z.leb_spec (Z.of_nat n) cls) as [|Hlt]; [eauto|]. lia.
Qed.

(** C9. For an index within the bounds of the images (negative indices count
    from the end), [__getitem__] returns, in inference mode, only the image
    with a leading axis and every pixel divided by 255.  Otherwise, for an
    index within the bounds of the labels too, it returns that tensor paired
    with the float one-hot vector of length 10 whose single 1 is at the
    label, and fails when the label is outside 0..9. *)
Theorem getitem_inputs_and_one_hot_target :
  forall (F : Type) (of_Z : Z -> F) (fdiv : F -> F -> F)
         (self : TorchDataset.t) (idx : Z),
    in_bounds (TorchDataset.x self) idx ->
    let img := nth (Z.to_nat (idx mod Z.of_nat (List.length (TorchDataset.x self))))
                 (TorchDataset.x self) [] in
    let input := [map (map (fun p => fdiv (of_Z p) (of_Z 255%Z))) img] in
    (TorchDataset.is_inference self = true ->
     TorchDataset.getitem of_Z fdiv self idx = inr (TorchDataset.inputs input))
    /\ (TorchDataset.is_inference self = false ->
        in_bounds (TorchDataset.y self) idx ->
        let label := nth (Z.to_nat (idx mod Z.of_nat (List.length (TorchDataset.y self))))
                       (TorchDataset.y self) 0%Z in
        ((0 <= label < 10)%Z ->
         exists target,
           TorchDataset.getitem of_Z fdiv self idx
           = inr (TorchDataset.inputs_outputs input (map of_Z target))
           /\ List.length target = 10%nat
           /\ forall j, (j < 10)%nat ->
                        nth j target 0%Z
                        = if (Z.of_nat j =? label)%Z then 1%Z else 0%Z)
        /\ (~ (0 <= label < 10)%Z ->
            exists e, TorchDataset.getitem of_Z fdiv self idx = inl e)).
Proof.
  intros F of_Z fdiv self idx Hx img input.
  unfold TorchDataset.getitem.
  rewrite (py_index_in_bounds _ idx [] Hx). fold img.
  split.
  - intros ->. reflexivity.
  - intros -> Hy.
    rewrite (py_index_in_bounds _ idx 0%Z Hy).
    set (label := nth _ (TorchDataset.y self) 0%Z).
    split.
    + intros Hr. destruct (one_hot_in_range label 10 Hr) as (target & -> & Hl & Hn).
      exists target. auto.
    + intros Hr. destruct (one_hot_out_of_range label 10 Hr) as (e & ->).
      eauto.
Qed.

Lemma getitem_inputs_and_one_hot_target_witness :
  TorchDataset.getitem inject_Z Qdiv
    {| TorchDataset.x := [[[0; 255]]; [[51; 102]]]%Z;
       TorchDataset.y := [7; 3]%Z;
       TorchDataset.is_inference := true |} (-1)
  = inr (TorchDataset.inputs [[[inject_Z 51 / inject_Z 255;
                                 inject_Z 102 / inject_Z 255]]]).
Proof.
  apply (proj1 (getitem_inputs_and_one_hot_target Q inject_Z Qdiv
                  {| TorchDataset.x := [[[0; 255]]; [[51; 102]]]%Z;
                     TorchDataset.y := [7; 3]%Z;
                     TorchDataset.is_inference := true |} (-1)%Z
                  ltac:(unfold in_bounds; simpl; lia))).
  reflexivity.
Defined.

(** A training item, and a label that is not a digit. *)
Example getitem_training_pair :
  TorchDataset.getitem inject_Z Qdiv
    {| TorchDataset.x := [[[0; 255]]; [[51; 102]]]%Z;
       TorchDataset.y := [7; 3]%Z;
       TorchDataset.is_inference := false |} 1
  = inr (TorchDataset.inputs_outputs
           [[[inject_Z 51 / inject_Z 255; inject_Z 102 / inject_Z 255]]]
           (map inject_Z [0; 0; 0; 1; 0; 0; 0; 0; 0; 0]%Z)).
Proof. reflexivity. Qed.

Example getitem_label_out_of_range :
  TorchDataset.getitem inject_Z Qdiv
    {| TorchDataset.x := [[[0; 255]]]%Z;
       TorchDataset.y := [10]%Z;
       TorchDataset.is_inference := false |} 0
  = inl (RuntimeError "Class values must be smaller than num_classes.").
Proof. reflexivity. Qed.

(* ===================================================================== *)
(** ** The aggregation step *)
(* ===================================================================== *)

Section AggregateFacts.
Import FedAvgRounds.
Variable by_sample_count : bool.

Lemma weight_nonneg (u : params * nat) : 0 <= weight by_sample_count u.
Proof.
  unfold weight. destruct by_sample_count.
  - change 0 with (inject_Z 0). rewrite <- Zle_Qle. lia.
  - discriminate.
Qed.

Lemma total_weight_qsum (us : list (params * nat)) :
  total_weight by_sample_count us = qsum (map (weight by_sample_count) us).
Proof. induction us as [|u us IH]; simpl; [reflexivity|]. now rewrite <- IH. Qed.

Lemma qsum_ext {A : Type} (f g : A -> Q) (l : list A) :
  (forall a, In a l -> f a == g a) -> qsum (map f l) == qsum (map g l).
Proof.
  induction l as [|a l IH]; intros H; simpl; [reflexivity|].
  rewrite (H a (or_introl eq_refl)), IH; [reflexivity|].
  intros b Hb. apply H. now right.
Qed.

Lemma qsum_scaled {A : Type} (f : A -> Q) (c : Q) (l : list A) :
  qsum (map f l) * c == qsum (map (fun a => f a * c) l).
Proof.
  induction l as [|a l IH]; simpl; [ring|]. rewrite <- IH. ring.
Qed.

Lemma nth_scale (c : Q) (p : params) (j : nat) :
  nth j (scale c p) 0 == c * nth j p 0.
Proof.
  unfold scale. revert j. induction p as [|a p IH]; intros [|j]; simpl;
    try ring. apply IH.
Qed.

Lemma nth_add (p q : params) (j : nat) :
  List.length p = List.length q ->
  nth j (add p q) 0 == nth j p 0 + nth j q 0.
Proof.
  revert q j. induction p as [|a p IH]; intros [|b q] j Hl; simpl in *;
    try discriminate.
  - destruct j; ring.
  - destruct j as [|j]; [ring|]. apply IH. now injection Hl.
Qed.

Lemma length_scale (c : Q) (p : params) : List.length (scale c p) = List.length p.
Proof. apply length_map. Qed.

Lemma length_add (p q : params) :
  List.length p = List.length q -> List.length (add p q) = List.length p.
Proof.
  revert q. induction p as [|a p IH]; intros [|b q] Hl; simpl in *;
    try discriminate; [reflexivity|]. f_equal. apply IH. now injection Hl.
Qed.

Lemma length_weighted_sum (d : nat) (us : list (params * nat)) :
  Forall (fun u => List.length (fst u) = d) us -> us <> [] ->
  List.length (weighted_sum by_sample_count us) = d.
Proof.
  induction us as [|u us IH]; intros Hall Hne; [congruence|].
  inversion Hall as [|? ? Hu Hus]; subst.
  destruct us as [|u' us'].
  - simpl. now rewrite length_scale.
  - change (List.length (add (scale (weight by_sample_count u) (fst u))
                             (weighted_sum by_sample_count (u' :: us')))
            = List.length (fst u)).
    rewrite length_add; rewrite length_scale; [reflexivity|].
    symmetry. apply IH; [assumption|discriminate].
Qed.

Lemma nth_weighted_sum (d : nat) (us : list (params * nat)) (j : nat) :
  Forall (fun u => List.length (fst u) = d) us ->
  nth j (weighted_sum by_sample_count us) 0
  == qsum (map (fun u => weight by_sample_count u * nth j (fst u) 0) us).
Proof.
  induction us as [|u us IH]; intros Hall.
  - simpl. destruct j; reflexivity.
  - inversion Hall as [|? ? Hu Hus]; subst.
    destruct us as [|u' us'].
    + simpl. rewrite nth_scale. ring.
    + change (nth j (add (scale (weight by_sample_count u) (fst u))
                         (weighted_sum by_sample_count (u' :: us'))) 0
              == weight by_sample_count u * nth j (fst u) 0
                 + qsum (map (fun u => weight by_sample_count u * nth j (fst u) 0)
                           (u' :: us'))).
      eapply Qeq_trans.
      * apply nth_add. rewrite length_scale. symmetry.
        apply length_weighted_sum; [assumption|discriminate].
      * apply Qplus_comp; [apply nth_scale | apply IH; assumption].
Qed.
End AggregateFacts.

(** C8. For either configuration, the aggregation of the modelled strategy
    returns a parameter set of the common dimension whose every coordinate
    is the weighted average of that coordinate over the locally updated
    parameter sets: the coefficient of an organization is its weight (its
    sample count, or 1 under uniform weighting) divided by the total weight;
    the coefficients are non-negative and sum to 1. *)
Theorem aggregate_is_weighted_average :
  forall (by_sample_count : bool) (updates : list (FedAvgRounds.params * nat))
         (d : nat),
    let w := fun u : FedAvgRounds.params * nat =>
               if by_sample_count then inject_Z (Z.of_nat (snd u)) else 1 in
    let total := FedAvgRounds.qsum (map w updates) in
    Forall (fun u => List.length (fst u) = d) updates ->
    updates <> [] ->
    0 < total ->
    List.length (FedAvgRounds.aggregate by_sample_count updates) = d
    /\ (forall j, (j < d)%nat ->
                  nth j (FedAvgRounds.aggregate by_sample_count updates) 0
                  == FedAvgRounds.qsum
                       (map (fun u => w u / total * nth j (fst u) 0) updates))
    /\ FedAvgRounds.qsum (map (fun u => w u / total) updates) == 1
    /\ Forall (fun u => 0 <= w u / total) updates.
Proof.
  intros bsc updates d w total Hall Hne Hpos.
  assert (Ht : FedAvgRounds.total_weight bsc updates = total).
  { rewrite total_weight_qsum. reflexivity. }
  assert (Hnz : ~ total == 0).
  { intros E. rewrite E in Hpos. discriminate Hpos. }
  assert (Hlen : List.length (FedAvgRounds.aggregate bsc updates) = d).
  { unfold FedAvgRounds.aggregate. rewrite length_map.
    now apply length_weighted_sum. }
  split; [exact Hlen|]. split; [|split].
  - intros j Hj. unfold FedAvgRounds.aggregate. rewrite Ht.
    set (f := fun s : Q => s / total).
    rewrite (nth_indep _ 0 (f 0))
      by (rewrite length_map, (length_weighted_sum bsc d); assumption).
    rewrite map_nth. unfold f.
    rewrite (nth_weighted_sum bsc d updates j Hall).
    unfold Qdiv. rewrite qsum_scaled. apply qsum_ext.
    intros u _. unfold w, FedAvgRounds.weight. ring.
  - unfold Qdiv. rewrite <- (qsum_scaled w (/ total) updates).
    fold total. field. exact Hnz.
  - apply Forall_forall. intros u _.
    change (w u) with (FedAvgRounds.weight bsc u).
    apply Qle_shift_div_l; [exact Hpos|]. rewrite Qmult_0_l.
    apply weight_nonneg.
Qed.

Lemma aggregate_is_weighted_average_witness :
  nth 0 (FedAvgRounds.aggregate true [([1; 2], 10%nat); ([3; 4], 30%nat)]) 0
  == 5 # 2.
Proof.
  destruct (aggregate_is_weighted_average true
              [([1; 2], 10%nat); ([3; 4], 30%nat)] 2
              ltac:(repeat constructor) ltac:(discriminate) ltac:(reflexivity))
    as (_ & Hnth & _).
  rewrite (Hnth 0%nat ltac:(lia)). reflexivity.
Defined.

(* ===================================================================== *)
(** ** More on the torch dataset *)
(* ===================================================================== *)





Lemma py_index_nat {A : Type} (l : list A) (i : nat) (d : A) :
  (i < List.length l)%nat -> py_index l (Z.of_nat i) = inr (nth i l d).
Proof.
  intros Hi. rewrite (py_index_in_bounds l (Z.of_nat i) d) by (unfold in_bounds; lia).
  rewrite Z.mod_small by lia. now rewrite Nat2Z.id.
Qed.

Lemma py_index_from_the_end {A : Type} (l : list A) (i : nat) :
  (i < List.length l)%nat ->
  py_index l (Z.of_nat i - Z.of_nat (List.length l)) = py_index l (Z.of_nat i).
Proof.
  intros Hi. destruct l as [|d l']; [simpl in Hi; lia|].
  set (l := d :: l') in *.
  rewrite (py_index_in_bounds l _ d) by (unfold in_bounds; lia).
  rewrite (py_index_in_bounds l (Z.of_nat i) d) by (unfold in_bounds; lia).
  replace (Z.of_nat i - Z.of_nat (List.length l))%Z
    with (Z.of_nat i + (-1) * Z.of_nat (List.length l))%Z by lia.
  now rewrite Z_mod_plus_full.
Qed.



(** X3. A negative index counts from the end: for [0 <= i < len(self)],
    [self[i - len(self)]] is [self[i]], provided the labels are as many as
    the images when the outputs are returned too. *)
Theorem getitem_negative_index :
  forall (F : Type) (of_Z : Z -> F) (fdiv : F -> F -> F)
         (self : TorchDataset.t) (i : nat),
    (i < TorchDataset.len self)%nat ->
    TorchDataset.is_inference self = true
    \/ List.length (TorchDataset.y self) = List.length (TorchDataset.x self) ->
    TorchDataset.getitem of_Z fdiv self
      (Z.of_nat i - Z.of_nat (TorchDataset.len self))
    = TorchDataset.getitem of_Z fdiv self (Z.of_nat i).
Proof.
  intros F of_Z fdiv self i Hi Hmode. unfold TorchDataset.len in *.
  unfold TorchDataset.getitem.
  rewrite (py_index_from_the_end _ i Hi).
  destruct (TorchDataset.is_inference self); [reflexivity|].
  destruct Hmode as [Hm|Hlen]; [discriminate|].
  rewrite <- Hlen. rewrite py_index_from_the_end by lia. reflexivity.
Qed.

Lemma getitem_negative_index_witness :
  TorchDataset.getitem inject_Z Qdiv
    {| TorchDataset.x := [[[0; 255]]; [[51; 102]]]%Z;
       TorchDataset.y := [7; 3]%Z;
       TorchDataset.is_inference := false |} (-1)
  = TorchDataset.getitem inject_Z Qdiv
      {| TorchDataset.x := [[[0; 255]]; [[51; 102]]]%Z;
         TorchDataset.y := [7; 3]%Z;
         TorchDataset.is_inference := false |} 1.
Proof.
  apply (getitem_negative_index Q inject_Z Qdiv
           {| TorchDataset.x := [[[0; 255]]; [[51; 102]]]%Z;
              TorchDataset.y := [7; 3]%Z;
              TorchDataset.is_inference := false |} 1%nat).
  - unfold TorchDataset.len. simpl. lia.
  - right. reflexivity.
Defined.

(** X4. Reading an inference dataset at the indices [0 .. len(self) - 1], as
    a data loader does, never fails and yields every image once, in order,
    each with a leading axis and its pixels divided by 255. *)
Theorem getitem_enumerates_images :
  forall (F : Type) (of_Z : Z -> F) (fdiv : F -> F -> F) (self : TorchDataset.t),
    TorchDataset.is_inference self = true ->
    map (fun i => TorchDataset.getitem of_Z fdiv self (Z.of_nat i))
        (seq 0 (TorchDataset.len self))
    = map (fun img =>
             inr (TorchDataset.inputs
                    [map (map (fun p => fdiv (of_Z p) (of_Z 255%Z))) img]))
          (TorchDataset.x self).
Proof.
  intros F of_Z fdiv self Hinf. unfold TorchDataset.len.
  apply (nth_ext _ _ (inl IndexError) (inl IndexError)).
  - now rewrite !length_map, length_seq.
  - intros n Hn. rewrite length_map, length_seq in Hn.
    set (f := fun i => TorchDataset.getitem of_Z fdiv self (Z.of_nat i)).
    set (g := fun img : list (list Z) =>
                @inr failure _
                  (TorchDataset.inputs
                     [map (map (fun p => fdiv (of_Z p) (of_Z 255%Z))) img])).
    rewrite (nth_indep _ _ (f 0%nat)) by (now rewrite length_map, length_seq).
    rewrite (nth_indep (map g _) _ (g [])) by (now rewrite length_map).
    rewrite !map_nth, seq_nth by assumption. simpl.
    unfold f, g, TorchDataset.getitem. rewrite Hinf.
    now rewrite (py_index_nat _ n [] Hn).
Qed.

Lemma getitem_enumerates_images_witness :
  map (fun i => TorchDataset.getitem inject_Z Qdiv
                  {| TorchDataset.x := [[[0; 255]]; [[51; 102]]]%Z;
                     TorchDataset.y := []%Z;
                     TorchDataset.is_inference := true |} (Z.of_nat i))
      [0; 1]%nat
  = [inr (TorchDataset.inputs [[[inject_Z 0 / inject_Z 255;
                                  inject_Z 255 / inject_Z 255]]]);
     inr (TorchDataset.inputs [[[inject_Z 51 / inject_Z 255;
                                  inject_Z 102 / inject_Z 255]]])].
Proof.
  apply (getitem_enumerates_images Q inject_Z Qdiv
           {| TorchDataset.x := [[[0; 255]]; [[51; 102]]]%Z;
              TorchDataset.y := []%Z;
              TorchDataset.is_inference := true |}).
  reflexivity.
Defined.

(* ===================================================================== *)
(** ** More on the metric *)
(* ===================================================================== *)

Lemma combine_nil_iff {A B : Type} (l : list A) (l' : list B) :
  List.length l = List.length l' -> (combine l l' = [] <-> l = [] /\ l' = []).
Proof.
  destruct l, l'; simpl; intros H; try discriminate; split;
    try tauto; try discriminate. intros [H1 _]. discriminate.
Qed.

(** X5. [accuracy] raises exactly when the predictions have no class column
    or the labels and the prediction rows differ in number, and then it is a
    [ValueError]; it returns NaN exactly when there are class columns but
    neither labels nor prediction rows. *)
Theorem accuracy_failure_and_nan :
  forall (A : Type) (gtb : A -> A -> bool) (ds : datasamples)
         (y_pred : ndarray2 A),
    ((exists e, Metric.accuracy gtb ds y_pred = inl e) <->
     shape1 y_pred = 0%nat
     \/ List.length (labels ds) <> List.length (rows y_pred))
    /\ (forall e, Metric.accuracy gtb ds y_pred = inl e ->
                  exists msg, e = ValueError msg)
    /\ (Metric.accuracy gtb ds y_pred = inr nan <->
        shape1 y_pred <> 0%nat /\ labels ds = [] /\ rows y_pred = []).
Proof.
  intros A gtb ds y_pred.
  unfold Metric.accuracy, Metric.argmax_axis1, Metric.accuracy_score.
  destruct (Nat.eqb_spec (shape1 y_pred) 0) as [E0|E0].
  { split; [|split].
    - split; eauto.
    - intros e [= <-]. eauto.
    - split; [discriminate|tauto]. }
  rewrite length_map.
  destruct (Nat.eqb_spec (List.length (labels ds)) (List.length (rows y_pred)))
    as [El|El].
  - split; [|split].
    + split; [intros [e He]; discriminate|]. intros [H|H]; contradiction.
    + discriminate.
    + unfold Metric.average.
      generalize dependent (rows y_pred). generalize dependent (labels ds).
      intros [|l0 ls] [|r0 rs] El; simpl in *; try discriminate.
      * tauto.
      * split; [discriminate|]. intros (_ & H & _). discriminate.
  - split; [|split].
    + split; eauto.
    + intros e [= <-]. eauto.
    + split; [discriminate|]. intros (_ & H1 & H2). rewrite H1, H2 in El.
      now destruct El.
Qed.

Lemma count_true_all (l : list bool) :
  count_occ bool_dec l true = List.length l <-> Forall (fun b => b = true) l.
Proof.
  induction l as [|b l IH]; simpl.
  - split; auto.
  - destruct (bool_dec b true) as [->|Hb].
    + rewrite Nat.succ_inj_wd, IH. split.
      * intros H. now constructor.
      * intros H. now inversion H.
    + split.
      * intros H. pose proof (count_occ_bound bool_dec true l). lia.
      * intros H. inversion H. contradiction.
Qed.

Lemma count_true_none (l : list bool) :
  count_occ bool_dec l true = 0%nat <-> Forall (fun b => b = false) l.
Proof.
  induction l as [|b l IH]; simpl.
  - split; auto.
  - destruct (bool_dec b true) as [->|Hb].
    + split; [discriminate|]. intros H. inversion H. discriminate.
    + rewrite IH. split.
      * intros H. constructor; [now destruct b|assumption].
      * intros H. now inversion H.
Qed.

Lemma fraction_one (a b : nat) :
  (0 < b)%nat ->
  (inject_Z (Z.of_nat a) / inject_Z (Z.of_nat b) == 1 <-> a = b).
Proof.
  intros Hb.
  assert (Hnz : ~ inject_Z (Z.of_nat b) == 0).
  { change 0 with (inject_Z 0). rewrite inject_Z_injective. lia. }
  split.
  - intros H.
    assert (Hab : inject_Z (Z.of_nat a) == inject_Z (Z.of_nat b)).
    { rewrite <- (Qmult_div_r (inject_Z (Z.of_nat a)) (inject_Z (Z.of_nat b)) Hnz).
      rewrite H. ring. }
    apply (proj1 (inject_Z_injective _ _)) in Hab. lia.
  - intros ->. unfold Qdiv. now apply Qmult_inv_r.
Qed.

Lemma fraction_zero (a b : nat) :
  (0 < b)%nat ->
  (inject_Z (Z.of_nat a) / inject_Z (Z.of_nat b) == 0 <-> a = 0%nat).
Proof.
  intros Hb.
  assert (Hnz : ~ inject_Z (Z.of_nat b) == 0).
  { change 0 with (inject_Z 0). rewrite inject_Z_injective. lia. }
  split.
  - intros H.
    assert (Ha : inject_Z (Z.of_nat a) == inject_Z 0).
    { rewrite <- (Qmult_div_r (inject_Z (Z.of_nat a)) (inject_Z (Z.of_nat b)) Hnz).
      rewrite H. ring. }
    apply (proj1 (inject_Z_injective _ _)) in Ha. lia.
  - intros ->. unfold Qdiv. simpl. ring.
Qed.

Lemma all_agree (ls cs : list Z) :
  List.length ls = List.length cs ->
  (Forall (fun b => b = true)
     (map (fun tp => Z.eqb (fst tp) (snd tp)) (combine ls cs)) <-> ls = cs).
Proof.
  revert cs. induction ls as [|l ls IH]; intros [|c cs] Hlen; simpl in *;
    try discriminate.
  - split; auto.
  - injection Hlen as Hlen. split.
    + intros H. inversion H as [|? ? Hlc Hrest]; subst.
      apply Z.eqb_eq in Hlc. apply (IH cs Hlen) in Hrest. congruence.
    + intros [= -> ->]. constructor; [apply Z.eqb_refl|]. now apply IH.
Qed.

Lemma none_agree (ls cs : list Z) :
  List.length ls = List.length cs ->
  (Forall (fun b => b = false)
     (map (fun tp => Z.eqb (fst tp) (snd tp)) (combine ls cs))
   <-> Forall2 (fun l c => l <> c) ls cs).
Proof.
  revert cs. induction ls as [|l ls IH]; intros [|c cs] Hlen; simpl in *;
    try discriminate.
  - split; auto.
  - injection Hlen as Hlen. split.
    + intros H. inversion H as [|? ? Hlc Hrest]; subst.
      apply Z.eqb_neq in Hlc. constructor; [assumption|]. now apply IH.
    + intros H. inversion H as [|? ? ? ? Hlc Hrest]; subst.
      constructor; [now apply Z.eqb_neq|]. now apply IH.
Qed.

(** X6. On arrays with the same positive number of rows and at least one
    class column, the score is 1 exactly when the label of every row is the
    argmax of its prediction row, and 0 exactly when no label is. *)
Theorem accuracy_perfect_and_null :
  forall (A : Type) (gtb : A -> A -> bool) (ds : datasamples)
         (y_pred : ndarray2 A),
    List.length (labels ds) = List.length (rows y_pred) ->
    (0 < List.length (rows y_pred))%nat ->
    (0 < shape1 y_pred)%nat ->
    let classes := map (fun row => Z.of_nat (Metric.argmax_row gtb row))
                       (rows y_pred) in
    exists q,
      Metric.accuracy gtb ds y_pred = inr (real q)
      /\ (q == 1 <-> labels ds = classes)
      /\ (q == 0 <-> Forall2 (fun l c => l <> c) (labels ds) classes).
Proof.
  intros A gtb ds y_pred Hlen Hrows Hcols classes.
  assert (Hlc : List.length (labels ds) = List.length classes)
    by (unfold classes; now rewrite length_map).
  unfold Metric.accuracy, Metric.argmax_axis1.
  destruct (Nat.eqb_spec (shape1 y_pred) 0) as [E|_]; [lia|].
  fold classes. unfold Metric.accuracy_score. rewrite Hlc, Nat.eqb_refl.
  set (score := map (fun tp => Z.eqb (fst tp) (snd tp))
                    (combine (labels ds) classes)).
  assert (Hscore : (0 < List.length score)%nat).
  { unfold score. rewrite length_map, length_combine, <- Hlc. lia. }
  unfold Metric.average. destruct score as [|b l] eqn:Es; [simpl in Hscore; lia|].
  rewrite <- Es in *. eexists. split; [reflexivity|]. split.
  - rewrite (fraction_one _ _ Hscore), count_true_all. unfold score.
    now apply all_agree.
  - rewrite (fraction_zero _ _ Hscore), count_true_none. unfold score.
    now apply none_agree.
Qed.

Lemma accuracy_perfect_and_null_witness :
  exists q,
    Metric.accuracy Qgtb {| images := []; labels := [1; 0]%Z |}
      {| shape1 := 2; rows := [[1 # 10; 9 # 10]; [8 # 10; 2 # 10]] |}
    = inr (real q) /\ q == 1.
Proof.
  destruct (accuracy_perfect_and_null Q Qgtb
              {| images := []; labels := [1; 0]%Z |}
              {| shape1 := 2; rows := [[1 # 10; 9 # 10]; [8 # 10; 2 # 10]] |}
              eq_refl ltac:(simpl; lia) ltac:(simpl; lia))
    as (q & Hq & Hone & _).
  exists q. split; [exact Hq|]. apply Hone. reflexivity.
Defined.

Lemma Qgtb_true (a b : Q) : Qgtb a b = true <-> b < a.
Proof.
  unfold Qgtb. rewrite negb_true_iff. split.
  - intros H. apply Qnot_le_lt. intros Hle.
    apply Qle_bool_iff in Hle. congruence.
  - intros H. destruct (Qle_bool a b) eqn:E; [|reflexivity].
    apply Qle_bool_iff in E. exfalso. now apply (Qlt_not_le b a).
Qed.

Lemma Qgtb_false (a b : Q) : Qgtb a b = false <-> a <= b.
Proof.
  unfold Qgtb. rewrite negb_false_iff. apply Qle_bool_iff.
Qed.

Lemma argmax_from_first_maximum (l : list Q) :
  forall (full pre : list Q) (bi : nat),
    full = pre ++ l ->
    (bi < List.length pre)%nat ->
    (forall j, (j < List.length pre)%nat -> nth j full 0 <= nth bi full 0) ->
    (forall j, (j < bi)%nat -> nth j full 0 < nth bi full 0) ->
    let r := Metric.argmax_from Qgtb (nth bi full 0) bi (List.length pre) l in
    (r < List.length full)%nat
    /\ (forall j, (j < List.length full)%nat -> nth j full 0 <= nth r full 0)
    /\ (forall j, (j < r)%nat -> nth j full 0 < nth r full 0).
Proof.
  induction l as [|x l IH]; intros full pre bi Hfull Hbi Hmax Hfirst; simpl.
  - rewrite app_nil_r in Hfull. subst full. auto.
  - assert (Hx : nth (List.length pre) full 0 = x)
      by (subst full; apply nth_middle).
    assert (Hfull' : full = (pre ++ [x]) ++ l)
      by (subst full; now rewrite <- app_assoc).
    assert (Hlen' : List.length (pre ++ [x]) = S (List.length pre))
      by (rewrite length_app; simpl; lia).
    destruct (Qgtb x (nth bi full 0)) eqn:E.
    + apply Qgtb_true in E.
      specialize (IH full (pre ++ [x]) (List.length pre) Hfull').
      rewrite Hlen', Hx in IH. apply IH.
      * lia.
      * intros j Hj. destruct (Nat.eq_dec j (List.length pre)) as [->|Hne].
        -- rewrite Hx. apply Qle_refl.
        -- apply Qle_trans with (nth bi full 0); [apply Hmax; lia|].
           now apply Qlt_le_weak.
      * intros j Hj. apply Qle_lt_trans with (nth bi full 0); [now apply Hmax|].
        exact E.
    + apply Qgtb_false in E.
      specialize (IH full (pre ++ [x]) bi Hfull').
      rewrite Hlen' in IH. apply IH.
      * lia.
      * intros j Hj. destruct (Nat.eq_dec j (List.length pre)) as [->|Hne].
        -- now rewrite Hx.
        -- apply Hmax. lia.
      * exact Hfirst.
Qed.

(** X7. The class that [accuracy] compares with the label of a row is, for a
    row of rational scores that is not empty, a valid column of the row, a
    column with a largest score, and the first such column: ties go to the
    lowest class. *)
Theorem argmax_row_first_maximum :
  forall (row : list Q),
    row <> [] ->
    let i := Metric.argmax_row Qgtb row in
    (i < List.length row)%nat
    /\ (forall j, (j < List.length row)%nat -> nth j row 0 <= nth i row 0)
    /\ (forall j, (j < i)%nat -> nth j row 0 < nth i row 0).
Proof.
  intros [|x l] Hne; [congruence|]. simpl.
  apply (argmax_from_first_maximum l (x :: l) [x] 0%nat).
  - reflexivity.
  - simpl. lia.
  - intros j Hj. simpl in Hj. assert (j = 0%nat) as -> by lia. apply Qle_refl.
  - intros j Hj. lia.
Qed.

Lemma argmax_row_first_maximum_witness :
  Metric.argmax_row Qgtb [1 # 10; 4 # 10; 4 # 10; 1 # 10] = 1%nat
  /\ (Metric.argmax_row Qgtb [1 # 10; 4 # 10; 4 # 10; 1 # 10] < 4)%nat.
Proof.
  split; [reflexivity|].
  exact (proj1 (argmax_row_first_maximum [1 # 10; 4 # 10; 4 # 10; 1 # 10]
                  ltac:(discriminate))).
Defined.

(* ===================================================================== *)
(** ** Shapes through the forward pass *)
(* ===================================================================== *)

Lemma view_rows_of_features (n : nat) :
  (1 <= n)%nat ->
  CNNForward.view_rows (3 * 3 * 64) [n; 64; 3; 3]%nat = inr [n; 3 * 3 * 64]%nat.
Proof.
  intros Hn. unfold CNNForward.view_rows.
  assert (Ht : fold_right Nat.mul 1%nat [n; 64; 3; 3]%nat = (n * (3 * 3 * 64))%nat).
  { cbn [fold_right]. f_equal. }
  rewrite Ht.
  destruct (Nat.eqb_spec (3 * 3 * 64) 0) as [E|_]; [lia|].
  rewrite Nat.Div0.mod_mul, Nat.eqb_refl, Nat.div_mul by lia. reflexivity.
Qed.

(** X9. For a batch of [n >= 1] one-channel images whose height and width
    are between 28 and 31, in particular the 28 x 28 images of MNIST, the
    three convolutions and two poolings leave 64 maps of 3 x 3 per image, so
    that [view(-1, 3 * 3 * 64)] keeps one row per image and the forward
    pass returns [n] rows of 10 class scores, in training and in evaluation
    mode. *)
Theorem forward_shape_of_mnist_batch :
  forall (n h w : nat) (eval : bool),
    (1 <= n)%nat -> (28 <= h <= 31)%nat -> (28 <= w <= 31)%nat ->
    CNNForward.forward n 1 h w eval = inr [n; 10]%nat.
Proof.
  intros n h w eval Hn Hh Hw.
  assert (Hh' : (h = 28 \/ h = 29 \/ h = 30 \/ h = 31)%nat) by lia.
  assert (Hw' : (w = 28 \/ w = 29 \/ w = 30 \/ w = 31)%nat) by lia.
  clear Hh Hw.
  destruct Hh' as [-> | [-> | [-> | ->]]];
    destruct Hw' as [-> | [-> | [-> | ->]]];
    unfold CNNForward.forward;
    cbn -[CNNForward.view_rows Nat.mul];
    rewrite (view_rows_of_features n Hn); reflexivity.
Qed.

Lemma forward_shape_of_mnist_batch_witness :
  CNNForward.forward 32 1 28 28 false = inr [32; 10]%nat.
Proof.
  apply forward_shape_of_mnist_batch; lia.
Defined.

(* ===================================================================== *)
(** ** More on the setup *)
(* ===================================================================== *)

(** X1. Whatever the platform answers, the organization ids the setup keeps
    are pairwise distinct, the algorithm provider comes first and is never
    a data provider, there are at most two data providers, and every id
    kept has a client in [clients].  There is no data provider exactly when
    all three clients reported the organization of the first. *)
Theorem setup_organizations :
  forall (W : Type) (h : platform W) (w : W) (o : Orgs) (w' : W) (t : trace),
    run h setup w = (Ok o, w', t) ->
    ORGS_ID o = ALGO_ORG_ID o :: DATA_PROVIDER_ORGS_ID o
    /\ NoDup (ORGS_ID o)
    /\ ~ In (ALGO_ORG_ID o) (DATA_PROVIDER_ORGS_ID o)
    /\ (List.length (DATA_PROVIDER_ORGS_ID o) <= 2)%nat
    /\ (forall id, In id (ORGS_ID o) -> exists c, get (clients o) id = Some c)
    /\ (DATA_PROVIDER_ORGS_ID o = [] <->
        forall c id, In (c, id) (reported_orgs t) -> id = ALGO_ORG_ID o).
Proof.
  intros W h w o w' t H.
  pose proof (clients_keys_NoDup h w o w' t H) as Hnd.
  destruct (setup_ok h w o w' t H)
    as (c0 & c1 & c2 & id0 & id1 & id2 & -> & Hc & Ho & Ha & Hd).
  assert (Horgs : ORGS_ID o = ALGO_ORG_ID o :: DATA_PROVIDER_ORGS_ID o
                  /\ (List.length (DATA_PROVIDER_ORGS_ID o) <= 2)%nat
                  /\ (DATA_PROVIDER_ORGS_ID o = [] <-> id1 = id0 /\ id2 = id0)).
  { rewrite Hd, Ha, Ho, Hc. simpl.
    destruct (String.eqb id1 id0) eqn:E10; simpl;
      destruct (String.eqb id2 id0) eqn:E20; simpl;
      try destruct (String.eqb id2 id1) eqn:E21; simpl;
      repeat match goal with
             | E : String.eqb _ _ = true |- _ => apply String.eqb_eq in E
             | E : String.eqb _ _ = false |- _ => apply String.eqb_neq in E
             end;
      (split; [reflexivity|]); (split; [lia|]);
      split; try discriminate; try tauto; intros [? ?]; congruence. }
  destruct Horgs as (Hcons & Hlen & Hempty).
  split; [exact Hcons|]. split; [now rewrite Ho|].
  split.
  { rewrite <- Ho, Hcons in Hnd. now inversion Hnd. }
  split; [exact Hlen|]. split.
  { intros id Hin. apply get_In_keys. now rewrite <- Ho. }
  rewrite Hempty, Ha. simpl. split.
  - intros [-> ->] c id [[= _ <-]|[[= _ <-]|[[= _ <-]|[]]]]; reflexivity.
  - intros Hall. split; [apply (Hall c1)|apply (Hall c2)]; auto.
Qed.

Lemma setup_organizations_witness :
  exists o w' t,
    run local_platform setup fresh_world = (Ok o, w', t)
    /\ ORGS_ID o = ALGO_ORG_ID o :: DATA_PROVIDER_ORGS_ID o
    /\ ~ In (ALGO_ORG_ID o) (DATA_PROVIDER_ORGS_ID o).
Proof.
  destruct (run local_platform setup fresh_world) as [[[o|x] w'] t] eqn:E;
    [|vm_compute in E; discriminate E].
  destruct (setup_organizations world local_platform fresh_world o w' t E)
    as (H1 & _ & H3 & _).
  exists o, w', t. auto.
Defined.

(* ===================================================================== *)
(** ** More rules for monitors *)
(* ===================================================================== *)

Section MoreMonitorFacts.
Context {S : Type} (step : S -> event -> S) (ok : S -> event -> Prop).

(** The continuation of a bind may rely on its argument being a value the
    first program can return. *)
Lemma safe_bind_run {A B : Type} (I : S -> Prop) (J : A -> S -> Prop)
    (K : B -> S -> Prop) (p : prog A) (f : A -> prog B) :
  safe step ok I p J ->
  (forall a, returns p a -> safe step ok (J a) (f a) K) ->
  safe step ok I (bind p f) K.
Proof.
  intros Hp Hf W h w s Hs. rewrite run_bind.
  specialize (Hp W h w s Hs).
  destruct (run h p w) as [[[a|e] w1] t1] eqn:E; unfold trace_of, outcome_of in *;
    simpl in *.
  - destruct Hp as [Ht1 HJ]. specialize (HJ a eq_refl).
    assert (Hret : returns p a) by (exists W, h, w, w1, t1; exact E).
    specialize (Hf a Hret W h w1 _ HJ).
    destruct (run h (f a) w1) as [[o w2] t2]. simpl in *.
    rewrite accepts_app, fold_left_app. tauto.
  - split; [tauto|]. discriminate.
Qed.

Lemma accepted_of_keeps {R : Type} (I : S -> Prop) (p : prog R) :
  keeps step ok I p -> accepted step ok I p.
Proof. intros H. eapply safe_weaken; [exact H| |]; auto. Qed.

Lemma accepted_bind {A B : Type} (I : S -> Prop) (J : A -> S -> Prop)
    (p : prog A) (f : A -> prog B) :
  safe step ok I p J ->
  (forall a, returns p a -> accepted step ok (J a) (f a)) ->
  accepted step ok I (bind p f).
Proof. intros Hp Hf. eapply safe_bind_run; eauto. Qed.

Lemma accepted_bind_keeps {A B : Type} (I : S -> Prop)
    (p : prog A) (f : A -> prog B) :
  keeps step ok I p ->
  (forall a, returns p a -> accepted step ok I (f a)) ->
  accepted step ok I (bind p f).
Proof. intros Hp Hf. eapply safe_bind_run; [exact Hp|]. intros a. apply Hf. Qed.

Lemma accepted_accepts {R : Type} (I : S -> Prop) (p : prog R) :
  accepted step ok I p ->
  forall (W : Type) (h : platform W) (w : W) (s : S),
    I s -> accepts step ok s (trace_of (run h p w)).
Proof. intros H W h w s Hs. apply (H W h w s Hs). Qed.

Lemma keeps_bind_run {A B : Type} (I : S -> Prop) (p : prog A) (f : A -> prog B) :
  keeps step ok I p -> (forall a, returns p a -> keeps step ok I (f a)) ->
  keeps step ok I (bind p f).
Proof. intros Hp Hf. eapply safe_bind_run; [exact Hp|]. intros a. apply Hf. Qed.

Lemma keeps_for_each_In {A T : Type} (I : S -> Prop) (l : list A)
    (body : A -> T -> prog T) :
  (forall a acc, In a l -> keeps step ok I (body a acc)) ->
  forall acc, keeps step ok I (for_each l body acc).
Proof.
  induction l as [|a l IH]; intros Hb acc; simpl.
  - apply keeps_ret.
  - apply keeps_bind; [apply Hb; now left|].
    intros acc'. apply IH. intros b acc'' Hin. apply Hb. now right.
Qed.
End MoreMonitorFacts.

(** What the pure statements of the script return. *)
Lemma returns_getitem {V : Type} (d : dict V) (k : string) (v : V) :
  returns (getitem d k) v -> get d k = Some v.
Proof.
  intros (W & h & w & w' & t & H). unfold getitem in H.
  destruct (get d k); simpl in H; congruence.
Qed.

Lemma returns_EvaluationStrategy_init (test : list TestDataNode) (n : nat)
    (s : EvaluationStrategy) :
  returns (EvaluationStrategy_init test n) s ->
  test_data_nodes s = test /\ rounds s = n /\ test <> [].
Proof.
  intros (W & h & w & w' & t & H). unfold EvaluationStrategy_init in H.
  destruct test; simpl in H; [discriminate|].
  injection H as <- _ _. repeat split. discriminate.
Qed.

Lemma accepts_at {S : Type} (step : S -> event -> S) (ok : S -> event -> Prop)
    (s : S) (t1 : trace) (e : event) (t2 : trace) :
  accepts step ok s (t1 ++ e :: t2) -> ok (fold_left step t1 s) e.
Proof. rewrite accepts_app. simpl. tauto. Qed.

Ltac safe_ext_step :=
  lazymatch goal with
  | |- safe ?st ?ok ?I (ext ?c) ?J =>
      apply (safe_ext st ok I c J); [intros ? ? ?|intros ? ? ?]
  end.

(* ===================================================================== *)
(** ** The results belong to the experiment that was submitted *)
(* ===================================================================== *)

Lemma plan_key_inv (e : event) (k : string) :
  plan_key e = Some k ->
  exists x p, e = Ev (execute_experiment x) (inr p) /\ key p = k.
Proof.
  destruct e as [c a]. destruct c; simpl; try discriminate.
  destruct a as [x|p]; [discriminate|]. intros [= <-]. eauto.
Qed.

Lemma latest_plan_inv (t : trace) (k : string) :
  fold_left latest_plan t None = Some k ->
  exists ta x p tb,
    t = ta ++ Ev (execute_experiment x) (inr p) :: tb
    /\ key p = k
    /\ Forall (fun e => experiment_request e = None) tb.
Proof.
  induction t as [|e t IH] using rev_ind; [discriminate|].
  rewrite fold_left_app. simpl. unfold latest_plan at 1.
  destruct (experiment_request e) eqn:E.
  - intros H. destruct (plan_key_inv e k H) as (x & p & -> & Hk).
    exists t, x, p, []. auto.
  - intros H. destruct (IH H) as (ta & x & p & tb & -> & Hk & Hq).
    exists ta, x, p, (tb ++ [e]). split; [|split; [exact Hk|]].
    + now rewrite <- app_assoc.
    + apply Forall_app. split; [exact Hq|]. constructor; auto.
Qed.

Lemma main_uses_latest_plan (o : Orgs) :
  accepted latest_plan uses_latest_plan (fun _ => True) (main o).
Proof.
  unfold main.
  do 7 (apply accepted_bind_keeps;
        [script_steps; (split; [exact I|exact I])|intros ? _]).
  apply (accepted_bind _ _ _ (fun plan s => s = Some (key plan))).
  - safe_ext_step; [exact I|reflexivity].
  - intros plan _. apply accepted_of_keeps.
    script_steps; subst; split; reflexivity.
Qed.

Lemma script_uses_latest_plan :
  accepted latest_plan uses_latest_plan (fun _ => True) script.
Proof.
  unfold script. apply accepted_bind_keeps.
  - script_steps; (split; [exact I|exact I]).
  - intros o _. apply main_uses_latest_plan.
Qed.

(** X10. Whenever the script fetches performances or downloads the model
    files, it names the key of a compute plan the platform returned for an
    experiment submitted earlier in the run, and no other experiment was
    submitted in between. *)
Theorem results_of_submitted_plan :
  forall (W : Type) (h : platform W) (w : W) (t1 : trace) (e : event)
         (t2 : trace) (k : string),
    trace_of (run h script w) = t1 ++ e :: t2 ->
    (exists c, ev_call e = get_performances c k)
    \/ (exists c r d, ev_call e = download_algo_files c k r d) ->
    exists ta x p tb,
      t1 = ta ++ Ev (execute_experiment x) (inr p) :: tb
      /\ key p = k
      /\ Forall (fun e' => experiment_request e' = None) tb.
Proof.
  intros W h w t1 e t2 k Ht He.
  pose proof (accepted_accepts _ _ _ _ script_uses_latest_plan W h w None I) as Hacc.
  rewrite Ht in Hacc. apply accepts_at in Hacc.
  apply latest_plan_inv.
  unfold uses_latest_plan in Hacc.
  destruct He as [(c & Hc)|(c & r & d & Hc)]; rewrite Hc in Hacc; exact Hacc.
Qed.

Lemma results_of_submitted_plan_witness :
  exists ta x p tb,
    firstn 16 (trace_of local_run)
    = ta ++ Ev (execute_experiment x) (inr p) :: tb
    /\ key p = "plan-7"
    /\ Forall (fun e' => experiment_request e' = None) tb.
Proof.
  destruct (skipn 16 (trace_of local_run)) as [|e t2] eqn:E;
    [vm_compute in E; discriminate E|].
  apply (results_of_submitted_plan world local_platform fresh_world
           (firstn 16 (trace_of local_run)) e t2 "plan-7").
  - fold local_run. rewrite <- E. symmetry. apply firstn_skipn.
  - vm_compute in E. injection E as <- _. left. exists (Session 2). reflexivity.
Defined.

(* ===================================================================== *)
(** ** What a program returns *)
(* ===================================================================== *)

Lemma returns_ret {R : Type} (a b : R) : returns (Ret a) b -> a = b.
Proof. intros (W & h & w & w' & t & H). simpl in H. congruence. Qed.

Lemma returns_bind {A B : Type} (p : prog A) (f : A -> prog B) (b : B) :
  returns (bind p f) b -> exists a, returns p a /\ returns (f a) b.
Proof.
  intros (W & h & w & w' & t & H). rewrite run_bind in H.
  destruct (run h p w) as [[[a|e] w1] t1] eqn:E; [|discriminate].
  destruct (run h (f a) w1) as [[out w2] t2] eqn:E2.
  injection H as -> <- <-. exists a. split.
  - exists W, h, w, w1, t1. exact E.
  - exists W, h, w1, w2, t2. exact E2.
Qed.

Lemma enumerate_index {A : Type} (l : list A) (i : nat) (a : A) :
  In (i, a) (enumerate l) -> (i < List.length l)%nat /\ In a l.
Proof.
  unfold enumerate. intros H. split.
  - apply in_combine_l in H. apply in_seq in H. lia.
  - apply in_combine_r in H. exact H.
Qed.

(* ===================================================================== *)
(** ** Data samples lie in the folders that were prepared *)
(* ===================================================================== *)

Lemma prepared_folders_inv (t : trace) (p : Path) (n : nat) :
  fold_left prepared_folders t None = Some (p, n) ->
  exists a, In (Ev (setup_mnist p n) a) t.
Proof.
  induction t as [|e t IH] using rev_ind; [discriminate|].
  rewrite fold_left_app. simpl. unfold prepared_folders at 1.
  destruct e as [c a]. simpl.
  destruct c; intros H;
    try (destruct (IH H) as [a' Hin]; exists a'; apply in_or_app; left; exact Hin).
  injection H as -> ->. exists a. apply in_or_app. right. left. reflexivity.
Qed.

Lemma main_samples_in_prepared_folders (o : Orgs) :
  accepted prepared_folders sample_in_prepared_folder (fun _ => True) (main o).
Proof.
  unfold main.
  apply (accepted_bind _ _ _
           (fun _ s => s = Some (data_path, List.length (DATA_PROVIDER_ORGS_ID o)))).
  - unfold prepare_data.
    apply (safe_bind _ _ _ (fun _ _ => True)).
    + safe_ext_step; exact I.
    + intros _. safe_ext_step; [exact I|reflexivity].
  - intros _ _. apply accepted_of_keeps.
    apply keeps_bind.
    + unfold register_datasets. apply keeps_for_each_In.
      intros [i org] acc Hin. apply enumerate_index in Hin as [Hlt _].
      unfold register_org. repeat script_step; subst;
        (split; [|reflexivity]); simpl; try exact I.
      * exists data_path, (List.length (DATA_PROVIDER_ORGS_ID o)), i, "train".
        auto.
      * exists data_path, (List.length (DATA_PROVIDER_ORGS_ID o)), i, "test".
        auto.
    + intros r. script_steps; subst; (split; [exact I|reflexivity]).
Qed.

Lemma script_samples_in_prepared_folders :
  accepted prepared_folders sample_in_prepared_folder (fun _ => True) script.
Proof.
  unfold script. apply accepted_bind_keeps.
  - script_steps; (split; [exact I|exact I]).
  - intros o _. apply main_samples_in_prepared_folders.
Qed.

(** X11. Every data sample the script registers lies in the [train] or the
    [test] folder of [org_<i+1>], inside a directory [setup_mnist] was
    asked earlier in the run to split into [n] organization folders, with
    [i < n]: no sample is registered from a folder that was not prepared. *)
Theorem samples_in_prepared_folders :
  forall (W : Type) (h : platform W) (w : W) (t1 : trace) (e : event)
         (t2 : trace) (c : Client) (spec : DataSampleSpec),
    trace_of (run h script w) = t1 ++ e :: t2 ->
    sample_request e = Some (c, spec) ->
    exists p n a i kind,
      In (Ev (setup_mnist p n) a) t1
      /\ (i < n)%nat
      /\ (kind = "train" \/ kind = "test")
      /\ path spec = p ++ [org_folder i; kind].
Proof.
  intros W h w t1 e t2 c spec Ht He.
  pose proof (accepted_accepts _ _ _ _ script_samples_in_prepared_folders
                W h w None I) as Hacc.
  rewrite Ht in Hacc. apply accepts_at in Hacc.
  unfold sample_in_prepared_folder in Hacc. rewrite He in Hacc.
  destruct Hacc as (p & n & i & kind & Hs & Hi & Hk & Hp).
  destruct (prepared_folders_inv _ _ _ Hs) as [a Ha].
  exists p, n, a, i, kind. auto.
Qed.

Lemma samples_in_prepared_folders_witness :
  exists p n a i kind,
    In (Ev (setup_mnist p n) a) (firstn 12 (trace_of local_run))
    /\ (i < n)%nat
    /\ (kind = "train" \/ kind = "test")
    /\ ["tmp"; "data_mnist"; "org_2"; "train"] = p ++ [org_folder i; kind].
Proof.
  destruct (skipn 12 (trace_of local_run)) as [|e t2] eqn:E;
    [vm_compute in E; discriminate E|].
  apply (samples_in_prepared_folders world local_platform fresh_world
           (firstn 12 (trace_of local_run)) e t2 (Session 2)
           {| data_manager_keys := ["dataset-3"]; test_only := false;
              path := ["tmp"; "data_mnist"; "org_2"; "train"] |}).
  - fold local_run. rewrite <- E. symmetry. apply firstn_skipn.
  - vm_compute in E. injection E as <- _. reflexivity.
Defined.

(* ===================================================================== *)
(** ** What is shown is what was fetched *)
(* ===================================================================== *)

Lemma fetched_inv (e : event) (df : list Performance) :
  fetched e = Some df -> exists c k, e = Ev (get_performances c k) (inr df).
Proof.
  destruct e as [c a]. destruct c; simpl; try discriminate.
  destruct a as [x|rows]; [discriminate|]. intros [= <-]. eauto.
Qed.

Lemma queried_inv (e : event) (df : list Performance) (expr : string)
    (rows : list Performance) :
  queried e = Some (df, expr, rows) -> e = Ev (df_query df expr) (inr rows).
Proof.
  destruct e as [c a]. destruct c; simpl; try discriminate.
  destruct a as [x|r]; [discriminate|]. now intros [= <- <- <-].
Qed.

Lemma fetched_table_inv (t : trace) :
  (forall df, fst (fold_left fetched_table t (None, None)) = Some df ->
              exists c k, In (Ev (get_performances c k) (inr df)) t)
  /\ (forall df expr rows,
        snd (fold_left fetched_table t (None, None)) = Some (df, expr, rows) ->
        In (Ev (df_query df expr) (inr rows)) t).
Proof.
  induction t as [|e t [IH1 IH2]] using rev_ind; [split; discriminate|].
  rewrite fold_left_app. simpl. unfold fetched_table at 1 3.
  split.
  - intros df. destruct (ev_call e) eqn:Ec; simpl; intros H;
      try (destruct (IH1 df H) as (c' & k' & Hin); exists c', k';
           apply in_or_app; left; exact Hin).
    destruct (fetched_inv e df H) as (c' & k' & ->).
    exists c', k'. apply in_or_app. right. left. reflexivity.
  - intros df expr rows. destruct (ev_call e) eqn:Ec; simpl; intros H;
      try (apply in_or_app; left; exact (IH2 df expr rows H)).
    rewrite (queried_inv e _ _ _ H). apply in_or_app. right. left. reflexivity.
Qed.

Lemma explore_shows_fetched_table (o : Orgs) (r : Registered) (cp : ComputePlan) :
  accepted fetched_table shows_fetched_table (fun _ => True) (explore o r cp).
Proof.
  unfold explore.
  apply accepted_bind_keeps; [script_steps|intros c_last _].
  apply (accepted_bind _ _ _ (fun df s => fst s = Some df)).
  - safe_ext_step; [exact I|reflexivity].
  - intros df _. apply accepted_of_keeps.
    do 5 (apply keeps_bind;
          [script_steps; (split; [|assumption]);
           unfold shows_fetched_table; simpl; auto|intros ?]).
    apply keeps_bind.
    { apply keeps_for_each. intros id []. unfold plot_worker.
      apply (safe_bind _ _ _
               (fun rows s => fst s = Some df
                              /\ exists d, snd s = Some (d, query_expr id, rows))).
      - safe_ext_step.
        + unfold shows_fetched_table. simpl. assumption.
        + simpl. eauto.
      - intros rows. safe_ext_step;
          match goal with H : _ /\ _ |- _ => destruct H as (Hs & d & Hq) end.
        + unfold shows_fetched_table. simpl. exists d, rows.
          rewrite !length_map. auto.
        + exact Hs. }
    intros _.
    script_steps; (split; [|assumption]); unfold shows_fetched_table; simpl; auto.
Qed.

Lemma script_shows_fetched_table :
  accepted fetched_table shows_fetched_table (fun _ => True) script.
Proof.
  unfold script. apply accepted_bind_keeps.
  { script_steps; (split; [exact I|exact I]). }
  intros o _. unfold main.
  do 8 (apply accepted_bind_keeps;
        [script_steps; (split; [exact I|exact I])|intros ? _]).
  apply (accepted_bind _ _ _ (fun _ _ => True)).
  - apply explore_shows_fetched_table.
  - intros res _. apply accepted_of_keeps. apply keeps_ret.
Qed.

(** X12. The table the script prints and the table it queries are a table
    [get_performances] returned earlier in the run, and each curve it plots
    shows the [round_idx] column against the [performance] column of what
    an earlier query for the expression [worker == '<label>'] returned,
    with one point per row. *)
Theorem results_shown_are_those_fetched :
  forall (W : Type) (h : platform W) (w : W) (t1 : trace) (e : event) (t2 : trace),
    trace_of (run h script w) = t1 ++ e :: t2 ->
    (forall rows, ev_call e = print (PTable rows) ->
       exists c k, In (Ev (get_performances c k) (inr rows)) t1)
    /\ (forall df expr, ev_call e = df_query df expr ->
          exists c k, In (Ev (get_performances c k) (inr df)) t1)
    /\ (forall xs ys label, ev_call e = plt (plt_plot xs ys label) ->
          exists df rows,
            In (Ev (df_query df (query_expr label)) (inr rows)) t1
            /\ xs = map round_idx rows
            /\ ys = map performance rows
            /\ List.length xs = List.length ys).
Proof.
  intros W h w t1 e t2 Ht.
  pose proof (accepted_accepts _ _ _ _ script_shows_fetched_table
                W h w (None, None) I) as Hacc.
  rewrite Ht in Hacc. apply accepts_at in Hacc.
  destruct (fetched_table_inv t1) as [Hf Hq].
  unfold shows_fetched_table in Hacc. split; [|split].
  - intros rows He. rewrite He in Hacc. now apply Hf.
  - intros df expr He. rewrite He in Hacc. now apply Hf.
  - intros xs ys label He. rewrite He in Hacc.
    destruct Hacc as (df & rows & Hs & Hx & Hy & Hl).
    exists df, rows. auto.
Qed.

Lemma results_shown_are_those_fetched_witness :
  exists df rows,
    In (Ev (df_query df (query_expr "MyOrg2MSP")) (inr rows))
       (firstn 23 (trace_of local_run))
    /\ [1; 2; 3]%nat = map round_idx rows.
Proof.
  destruct (skipn 23 (trace_of local_run)) as [|e t2] eqn:E;
    [vm_compute in E; discriminate E|].
  assert (Ht : trace_of (run local_platform script fresh_world)
               = firstn 23 (trace_of local_run) ++ e :: t2).
  { fold local_run. rewrite <- E. symmetry. apply firstn_skipn. }
  destruct (results_shown_are_those_fetched world local_platform fresh_world
              _ e t2 Ht) as (_ & _ & H).
  vm_compute in E. injection E as <- _.
  destruct (H [1; 2; 3]%nat [1 # 2; 1 # 2; 1 # 2]%Q "MyOrg2MSP" eq_refl)
    as (df & rows & Hin & Hx & _).
  exists df, rows. auto.
Defined.

(* ===================================================================== *)
(** ** The experiment is evaluated with the metric that was registered *)
(* ===================================================================== *)

Lemma latest_metric_inv (t : trace) (c : Client) (k : string) :
  fold_left latest_metric t None = Some (c, k) ->
  exists f p d, In (Ev (add_metric c f p d) (inr k)) t.
Proof.
  induction t as [|e t IH] using rev_ind; [discriminate|].
  rewrite fold_left_app. simpl. unfold latest_metric at 1.
  destruct e as [c0 a]. simpl.
  destruct c0; intros H;
    try (destruct (IH H) as (f' & p' & d' & Hin); exists f', p', d';
         apply in_or_app; left; exact Hin).
  destruct a as [x|k0]; [discriminate|]. injection H as -> ->.
  eexists _, _, _. apply in_or_app. right. left. reflexivity.
Qed.

Lemma test_nodes_metric (r : Registered) (mk : string) :
  forall l acc test,
    Forall (fun n => metric_keys n = [mk]) acc ->
    returns (for_each l (add_test_node r mk) acc) test ->
    Forall (fun n => metric_keys n = [mk]) test.
Proof.
  induction l as [|org l IH]; simpl; intros acc test Hacc Hret.
  - apply returns_ret in Hret. now subst.
  - apply returns_bind in Hret as (acc' & H1 & H2).
    apply (IH acc'); [|exact H2].
    unfold add_test_node in H1.
    apply returns_bind in H1 as (dk & _ & H1).
    apply returns_bind in H1 as (sk & _ & H1).
    apply returns_ret in H1. subst acc'.
    apply Forall_app. split; [exact Hacc|]. constructor; auto.
Qed.

Lemma main_experiment_uses_metric (o : Orgs) :
  accepted latest_metric experiment_uses_metric (fun _ => True) (main o).
Proof.
  unfold main.
  apply accepted_bind_keeps;
    [script_steps; (split; [exact I|exact I])|intros _ _].
  apply accepted_bind_keeps;
    [script_steps; (split; [exact I|exact I])|intros r _].
  apply (accepted_bind _ _ _
           (fun mk s => exists c, get (clients o) (ALGO_ORG_ID o) = Some c
                                  /\ s = Some (c, mk))).
  { unfold register_metric, getitem.
    destruct (get (clients o) (ALGO_ORG_ID o)) as [c|] eqn:Ec; cbn [bind].
    - safe_ext_step; [exact I|].
      exists c. split; [reflexivity|reflexivity].
    - apply safe_raise. }
  intros mk _.
  apply accepted_bind_keeps; [script_steps|intros train _].
  apply accepted_bind_keeps; [script_steps|intros test Htest].
  apply (test_nodes_metric r mk _ [] test (Forall_nil _)) in Htest.
  apply accepted_bind_keeps; [script_steps|intros strat Hstrat].
  apply returns_EvaluationStrategy_init in Hstrat as [Hnodes _].
  apply accepted_bind_keeps; [script_steps|intros c_algo Hc].
  apply returns_getitem in Hc.
  apply (accepted_bind _ _ _ (fun _ _ => True)).
  - safe_ext_step; [|exact I].
    match goal with H : exists _, _ |- _ => destruct H as (c & Hget & ->) end.
    unfold experiment_uses_metric. simpl. exists mk.
    split; [congruence|]. rewrite Hnodes. exact Htest.
  - intros plan _. apply accepted_of_keeps.
    script_steps; (split; [exact I|exact I]).
Qed.

Lemma script_experiment_uses_metric :
  accepted latest_metric experiment_uses_metric (fun _ => True) script.
Proof.
  unfold script. apply accepted_bind_keeps.
  - script_steps; (split; [exact I|exact I]).
  - intros o _. apply main_experiment_uses_metric.
Qed.

(** X13. An experiment the script submits goes through the client through
    which a metric was registered earlier in the run, and every test node
    of its evaluation strategy names exactly the key the platform returned
    for that metric. *)
Theorem experiment_uses_registered_metric :
  forall (W : Type) (h : platform W) (w : W) (t1 : trace) (e : event)
         (t2 : trace) (x : Experiment),
    trace_of (run h script w) = t1 ++ e :: t2 ->
    experiment_request e = Some x ->
    exists f p d k,
      In (Ev (add_metric (experiment_client x) f p d) (inr k)) t1
      /\ Forall (fun n => metric_keys n = [k])
           (test_data_nodes (evaluation_strategy x)).
Proof.
  intros W h w t1 e t2 x Ht He.
  pose proof (accepted_accepts _ _ _ _ script_experiment_uses_metric
                W h w None I) as Hacc.
  rewrite Ht in Hacc. apply accepts_at in Hacc.
  unfold experiment_uses_metric in Hacc. rewrite He in Hacc.
  destruct Hacc as (k & Hs & Hall).
  destruct (latest_metric_inv _ _ _ Hs) as (f & p & d & Hin).
  exists f, p, d, k. auto.
Qed.

Lemma experiment_uses_registered_metric_witness :
  exists x f p d k,
    map experiment_request (firstn 1 (skipn 15 (trace_of local_run))) = [Some x]
    /\ In (Ev (add_metric (experiment_client x) f p d) (inr k))
         (firstn 15 (trace_of local_run))
    /\ Forall (fun n => metric_keys n = [k])
         (test_data_nodes (evaluation_strategy x)).
Proof.
  destruct (skipn 15 (trace_of local_run)) as [|e t2] eqn:E;
    [vm_compute in E; discriminate E|].
  destruct (experiment_request e) as [x|] eqn:Ex;
    [|vm_compute in E; injection E as <- _; discriminate Ex].
  assert (Ht : trace_of (run local_platform script fresh_world)
               = firstn 15 (trace_of local_run) ++ e :: t2).
  { fold local_run. rewrite <- E. symmetry. apply firstn_skipn. }
  destruct (experiment_uses_registered_metric world local_platform fresh_world
              _ e t2 x Ht Ex) as (f & p & d & k & Hin & Hall).
  exists x, f, p, d, k. simpl. rewrite Ex. auto.
Defined.

(* ===================================================================== *)
(** ** Nothing is registered once the experiment is submitted *)
(* ===================================================================== *)





(* ===================================================================== *)
(** ** The clients the results are asked from *)
(* ===================================================================== *)

Lemma setup_orgs {W : Type} (h : platform W) w o w' t :
  run h setup w = (Ok o, w', t) ->
  ORGS_ID o = ALGO_ORG_ID o :: DATA_PROVIDER_ORGS_ID o
  /\ (forall id, In id (ORGS_ID o) -> exists c, get (clients o) id = Some c).
Proof.
  intros H.
  destruct (setup_ok h w o w' t H)
    as (c0 & c1 & c2 & id0 & id1 & id2 & _ & Hc & Ho & Ha & Hd).
  split.
  - rewrite Hd, Ha, Ho, Hc. simpl.
    destruct (String.eqb id1 id0); simpl;
      destruct (String.eqb id2 id0); simpl;
      try destruct (String.eqb id2 id1); reflexivity.
  - intros id Hin. apply get_In_keys. now rewrite <- Ho.
Qed.

Lemma returns_register_org (o : Orgs) (i : nat) (org : org_id)
    (r0 r1 : Registered) :
  returns (register_org o (i, org) r0) r1 ->
  exists c, get (clients o) org = Some c /\ client r1 = Some c.
Proof.
  intros (W & h & w & w' & t & H).
  destruct (register_org_ok h o i org r0 w r1 w' t H)
    as (c & k & tk & sk & Hc & _ & ->).
  exists c. auto.
Qed.

Lemma last_enumerate {A : Type} (d : nat * A) (a0 : A) :
  forall (l : list A) (i : nat),
    l <> [] ->
    snd (last (combine (seq i (List.length l)) l) d) = last l a0.
Proof.
  induction l as [|a l IH]; intros i Hne; [congruence|].
  destruct l as [|b l]; [reflexivity|].
  specialize (IH (S i)). cbn [List.length seq combine] in *.
  cbn [last]. cbn [last] in IH. apply IH. discriminate.
Qed.

Lemma registration_loop_client (o : Orgs) :
  forall l acc r,
    returns (for_each l (register_org o) acc) r ->
    (l = [] /\ r = acc)
    \/ (l <> [] /\ exists c, client r = Some c
                             /\ get (clients o) (snd (last l (0%nat, ""))) = Some c).
Proof.
  induction l as [|[i org] l IH]; intros acc r Hret; simpl in Hret.
  - left. apply returns_ret in Hret. auto.
  - right. split; [discriminate|].
    apply returns_bind in Hret as (r1 & H1 & H2).
    apply returns_register_org in H1 as (c & Hc & Hr1).
    destruct (IH r1 r H2) as [[-> ->]|(Hne & c' & Hc' & Hget)].
    + exists c. auto.
    + exists c'. split; [exact Hc'|].
      destruct l; [congruence|exact Hget].
Qed.

Lemma registration_client (o : Orgs) (r : Registered) :
  returns (register_datasets o) r -> loop_client o r.
Proof.
  unfold register_datasets, enumerate, loop_client. intros Hret.
  destruct (registration_loop_client o _ _ _ Hret)
    as [[Hl ->]|(Hne & c & Hc & Hget)].
  - left. split; [|reflexivity].
    destruct (DATA_PROVIDER_ORGS_ID o); [reflexivity|discriminate Hl].
  - assert (Hd : DATA_PROVIDER_ORGS_ID o <> []).
    { intros E. apply Hne. now rewrite E. }
    right. split; [exact Hd|]. exists c. split; [exact Hc|].
    etransitivity; [|exact Hget]. f_equal. symmetry.
    exact (last_enumerate (0%nat, "") "" _ 0%nat Hd).
Qed.

Lemma explore_results_clients (o : Orgs) (r : Registered) (cp : ComputePlan) :
  loop_client o r -> emits (results_clients o) (explore o r cp).
Proof.
  intros [[Hd Hc]|(Hd & c & Hc & Hget)]; unfold explore, index, getitem;
    rewrite Hc; cbn [bind]; [unfold emits; apply keeps_raise|].
  destruct (nth_error (DATA_PROVIDER_ORGS_ID o) 0) as [first|] eqn:E0; cbn [bind].
  - assert (Hhd : hd "" (DATA_PROVIDER_ORGS_ID o) = first).
    { destruct (DATA_PROVIDER_ORGS_ID o); [discriminate|]. simpl in *. congruence. }
    destruct (get (clients o) first) as [c_down|] eqn:Eg; cbn [bind];
      unfold plot_worker; repeat script_step; (split; [|exact I]);
      unfold results_clients; simpl; auto.
    rewrite Hhd. auto.
  - unfold plot_worker; repeat script_step; (split; [|exact I]);
      unfold results_clients; simpl; auto.
Qed.

Lemma main_results_clients (o : Orgs) : emits (results_clients o) (main o).
Proof.
  unfold main, emits.
  apply keeps_bind; [script_steps; (split; exact I)|intros _].
  apply keeps_bind_run; [script_steps; (split; exact I)|intros r Hr].
  apply registration_client in Hr.
  do 6 (apply keeps_bind; [script_steps; (split; exact I)|intros ?]).
  apply keeps_bind; [apply explore_results_clients; exact Hr|intros res].
  apply keeps_ret.
Qed.

(** X15. The script fetches the performances through the client of the
    last data provider (the variable [client] the registration loop leaves
    behind) and downloads the model through the client of the first data
    provider, without naming a round and into the [algo_files] folder;
    neither happens when there is no data provider. *)
Theorem results_asked_from_data_providers :
  forall (W : Type) (h : platform W) (w : W) (o : Orgs) (w1 : W) (t1 : trace),
    run h setup w = (Ok o, w1, t1) ->
    Forall (results_clients o) (trace_of (run h script w)).
Proof.
  intros W h w o w1 t1 H.
  destruct (script_trace h w) as [(x & w' & Hx)|(o' & w' & t' & Ho & ->)];
    [congruence|].
  rewrite H in Ho. injection Ho as <- <- <-.
  apply Forall_app. split.
  - destruct (setup_ok h w o w1 t1 H) as (? & ? & ? & ? & ? & ? & -> & _).
    repeat constructor.
  - apply emits_Forall, main_results_clients.
Qed.

Lemma results_asked_from_data_providers_witness :
  exists o, outcome_of (run local_platform setup fresh_world) = Ok o
            /\ Forall (results_clients o) (trace_of local_run).
Proof.
  destruct (run local_platform setup fresh_world) as [[[o|x] w1] t1] eqn:E;
    [|vm_compute in E; discriminate E].
  exists o. split; [reflexivity|].
  apply (results_asked_from_data_providers world local_platform fresh_world
           o w1 t1 E).
Defined.

(* ===================================================================== *)
(** ** How the script can fail *)
(* ===================================================================== *)

Section RaisesFacts.
Context (P : failure -> Prop).

Lemma raises_ret {R : Type} (r : R) : raises P (Ret r).
Proof. intros W h w f H. discriminate H. Qed.

Lemma raises_raise {R : Type} (e : failure) : P e -> raises P (@Raise R e).
Proof.
  intros He W h w f H. unfold outcome_of in H. simpl in H. now injection H as <-.
Qed.

Lemma raises_ext (c : call) : (forall x, P (External x)) -> raises P (ext c).
Proof.
  intros HP W h w f. rewrite run_ext.
  destruct (h c w) as [[e|v] w1]; unfold outcome_of; simpl.
  - intros [= <-]. apply HP.
  - discriminate.
Qed.

Lemma raises_bind_run {A B : Type} (p : prog A) (f : A -> prog B) :
  raises P p -> (forall a, returns p a -> raises P (f a)) -> raises P (bind p f).
Proof.
  intros Hp Hf W h w x. rewrite run_bind.
  specialize (Hp W h w x).
  destruct (run h p w) as [[[a|e] w1] t1] eqn:E; unfold outcome_of in *;
    simpl in *.
  - assert (Hret : returns p a) by (exists W, h, w, w1, t1; exact E).
    specialize (Hf a Hret W h w1 x).
    destruct (run h (f a) w1) as [[out w2] t2]. exact Hf.
  - intros [= ->]. apply Hp. reflexivity.
Qed.

Lemma raises_bind {A B : Type} (p : prog A) (f : A -> prog B) :
  raises P p -> (forall a, raises P (f a)) -> raises P (bind p f).
Proof. intros Hp Hf. apply raises_bind_run; auto. Qed.

Lemma raises_for_each_In {A T : Type} (l : list A) (body : A -> T -> prog T) :
  (forall a acc, In a l -> raises P (body a acc)) ->
  forall acc, raises P (for_each l body acc).
Proof.
  induction l as [|a l IH]; intros Hb acc; simpl.
  - apply raises_ret.
  - apply raises_bind; [apply Hb; now left|].
    intros acc'. apply IH. intros b acc'' Hin. apply Hb. now right.
Qed.

Lemma raises_assert (b : bool) (msg : string) :
  P (AssertionError msg) -> raises P (assert b msg).
Proof.
  intros H. unfold assert. destruct b; [apply raises_ret|now apply raises_raise].
Qed.

Lemma raises_of_total {R : Type} (p : prog R) :
  (forall (W : Type) (h : platform W) (w : W),
      exists a, outcome_of (run h p w) = Ok a) ->
  raises P p.
Proof. intros Ht W h w f H. destruct (Ht W h w) as [a Ha]. congruence. Qed.
End RaisesFacts.

Ltac raises_step :=
  lazymatch goal with
  | |- raises ?P (bind ?p ?f) => apply (raises_bind P p f); [|intros ?]
  | |- raises ?P (Ret ?r) => apply (raises_ret P r)
  | |- raises ?P (ext ?c) => apply (raises_ext P c); intros ?
  | |- raises ?P (assert ?b ?m) => apply (raises_assert P b m)
  | |- raises ?P (for_each ?l ?body ?acc) =>
      apply (raises_for_each_In P l body); intros ? ? ?
  end.

Lemma setup_raises : raises (fun f => exists x, f = External x) setup.
Proof.
  unfold setup. do 6 (raises_step; [raises_step; eauto|]).
  unfold index. simpl.
  repeat match goal with
         | |- context [String.eqb ?a ?b] => destruct (String.eqb a b); simpl
         end; apply raises_ret.
Qed.

Lemma register_org_raises (o : Orgs) (i : nat) (org : org_id) (r : Registered) :
  (exists c, get (clients o) org = Some c) ->
  raises (main_failure o) (register_org o (i, org) r).
Proof.
  intros [c Hc]. unfold register_org, getitem. rewrite Hc. cbn [bind].
  raises_step; [raises_step; left; eauto|].
  rewrite !get_set_same. cbn [bind].
  repeat raises_step; unfold main_failure; eauto.
Qed.

Lemma nodes_total {W : Type} (h : platform W) (o : Orgs) (r : Registered)
    (mk : string) (w : W) :
  NoDup (DATA_PROVIDER_ORGS_ID o) ->
  returns (register_datasets o) r ->
  (exists a, outcome_of (run h (for_each (DATA_PROVIDER_ORGS_ID o)
                                  (add_train_node r) []) w) = Ok a)
  /\ (exists a, outcome_of (run h (for_each (DATA_PROVIDER_ORGS_ID o)
                                     (add_test_node r mk) []) w) = Ok a).
Proof.
  intros Hnd (W' & h' & w0 & w1 & t & Hrun).
  unfold register_datasets, enumerate in Hrun.
  destruct (registration_blocks h' o _ _ _ _ _ _ _ Hrun Hnd)
    as (blocks & Horgs & _ & _ & _ & _ & Hall & _).
  rewrite <- Horgs. split.
  - rewrite train_nodes_blocks; [eexists; reflexivity|].
    eapply Forall_impl; [|exact Hall]. simpl. tauto.
  - rewrite test_nodes_blocks; [eexists; reflexivity|].
    eapply Forall_impl; [|exact Hall]. simpl. tauto.
Qed.

Lemma test_nodes_length (r : Registered) (mk : string) :
  forall l acc test,
    returns (for_each l (add_test_node r mk) acc) test ->
    List.length test = (List.length acc + List.length l)%nat.
Proof.
  induction l as [|org l IH]; simpl; intros acc test Hret.
  - apply returns_ret in Hret. subst. lia.
  - apply returns_bind in Hret as (acc' & H1 & H2).
    rewrite (IH acc' test H2).
    unfold add_test_node in H1.
    apply returns_bind in H1 as (dk & _ & H1).
    apply returns_bind in H1 as (sk & _ & H1).
    apply returns_ret in H1. subst acc'. rewrite length_app. simpl. lia.
Qed.

Lemma explore_raises (o : Orgs) (r : Registered) (cp : ComputePlan) :
  (forall org, In org (DATA_PROVIDER_ORGS_ID o) ->
               exists c, get (clients o) org = Some c) ->
  DATA_PROVIDER_ORGS_ID o <> [] ->
  loop_client o r ->
  raises (main_failure o) (explore o r cp).
Proof.
  intros Hkeys Hne [[Hd Hc]|(Hd & c & Hc & _)]; unfold explore, index, getitem;
    rewrite Hc; cbn [bind].
  - congruence.
  - destruct (DATA_PROVIDER_ORGS_ID o) as [|first rest] eqn:E; [congruence|].
    cbn [nth_error bind].
    destruct (Hkeys first (or_introl eq_refl)) as [c_down Hget].
    rewrite Hget. cbn [bind]. unfold plot_worker.
    repeat raises_step; left; eauto.
Qed.

Lemma main_raises (o : Orgs) :
  returns setup o -> raises (main_failure o) (main o).
Proof.
  intros (W0 & h0 & w0 & w1 & t0 & Hsetup).
  pose proof (setup_data_providers_NoDup h0 w0 o w1 t0 Hsetup) as Hnd.
  destruct (setup_orgs h0 w0 o w1 t0 Hsetup) as [Hcons Hget].
  assert (Halgo : exists c, get (clients o) (ALGO_ORG_ID o) = Some c).
  { apply Hget. rewrite Hcons. now left. }
  assert (Hkeys : forall org, In org (DATA_PROVIDER_ORGS_ID o) ->
                              exists c, get (clients o) org = Some c).
  { intros org Hin. apply Hget. rewrite Hcons. now right. }
  destruct Halgo as [c_algo Halgo].
  unfold main.
  apply raises_bind.
  { unfold prepare_data. repeat raises_step; left; eauto. }
  intros _. apply raises_bind_run.
  { unfold register_datasets. apply raises_for_each_In.
    intros [i org] acc Hin. apply enumerate_index in Hin as [_ Hin].
    apply register_org_raises. auto. }
  intros r Hr. apply raises_bind.
  { unfold register_metric, getitem. rewrite Halgo. cbn [bind].
    raises_step. left. eauto. }
  intros mk. apply raises_bind.
  { apply raises_of_total. intros W h w.
    apply (nodes_total h o r mk w Hnd Hr). }
  intros train. apply raises_bind_run.
  { apply raises_of_total. intros W h w.
    apply (nodes_total h o r mk w Hnd Hr). }
  intros test Htest. apply test_nodes_length in Htest. simpl in Htest.
  unfold EvaluationStrategy_init.
  destruct test as [|n0 ns]; cbn [bind].
  { apply raises_raise. right. right. split; [eauto|].
    destruct (DATA_PROVIDER_ORGS_ID o); [reflexivity|discriminate Htest]. }
  assert (Hne : DATA_PROVIDER_ORGS_ID o <> []).
  { intros E. rewrite E in Htest. discriminate Htest. }
  unfold getitem at 1. rewrite Halgo. cbn [bind].
  apply raises_bind; [raises_step; left; eauto|].
  intros plan. apply raises_bind; [|intros res; apply raises_ret].
  apply explore_raises; [exact Hkeys|exact Hne|].
  now apply registration_client.
Qed.

Lemma script_outcome {W : Type} (h : platform W) (w : W) :
  (exists x w1 t1,
      run h setup w = (Fail x, w1, t1)
      /\ outcome_of (run h script w) = Fail x)
  \/ (exists o w1 t1,
        run h setup w = (Ok o, w1, t1)
        /\ outcome_of (run h script w) = outcome_of (run h (main o) w1)).
Proof.
  unfold script. rewrite run_bind.
  destruct (run h setup w) as [[[o|x] w1] t1].
  - right. exists o, w1, t1. split; [reflexivity|].
    now destruct (run h (main o) w1) as [[out w2] t2].
  - left. exists x, w1, t1. auto.
Qed.

(** X16. The script can only end early with a failure one of its external
    calls raised, with the assertion on the dataset key, or with the
    [ValueError] of the evaluation strategy, and the latter only when the
    setup found no data provider.  None of its dictionary and list lookups
    can fail and [client] is never read unbound: the script never ends with
    a [KeyError], an [IndexError] or a [NameError], whatever the platform
    answers. *)
Theorem script_failure_modes :
  forall (W : Type) (h : platform W) (w : W) (f : failure),
    outcome_of (run h script w) = Fail f ->
    (exists x, f = External x)
    \/ f = AssertionError "Missing dataset key"
    \/ ((exists msg, f = ValueError msg)
        /\ exists o w1 t1, run h setup w = (Ok o, w1, t1)
                           /\ DATA_PROVIDER_ORGS_ID o = []).
Proof.
  intros W h w f Hf.
  destruct (script_outcome h w) as [(x & w1 & t1 & Hs & Ho)|(o & w1 & t1 & Hs & Ho)];
    rewrite Ho in Hf.
  - injection Hf as <-. left. apply (setup_raises W h w x). now rewrite Hs.
  - assert (Hret : returns setup o) by (exists W, h, w, w1, t1; exact Hs).
    destruct (main_raises o Hret W h w1 f Hf) as [Hx|[Ha|[Hn Hd]]]; auto.
    right. right. split; [exact Hn|]. exists o, w1, t1. auto.
Qed.

Lemma script_failure_modes_witness :
  exists o w1 t1,
    run single_org_platform setup fresh_world = (Ok o, w1, t1)
    /\ DATA_PROVIDER_ORGS_ID o = [].
Proof.
  destruct (script_failure_modes world single_org_platform fresh_world
              (ValueError "test_data_nodes lists cannot be empty"))
    as [[x Hx]|[Ha|[_ H]]];
    [vm_compute; reflexivity|discriminate Hx|discriminate Ha|exact H].
Defined.

(* ===================================================================== *)
(** ** The assertion on the dataset key *)
(* ===================================================================== *)

Lemma stops_ret {R : Type} (r : R) : stops_on_empty_key (Ret r).
Proof. intros W h w t1 ev t2 Ht. now destruct t1. Qed.

Lemma stops_raise {R : Type} (e : failure) : stops_on_empty_key (@Raise R e).
Proof. intros W h w t1 ev t2 Ht. now destruct t1. Qed.

Lemma stops_ext (c : call) :
  (forall a, dataset_request (Ev c a) = None) -> stops_on_empty_key (ext c).
Proof.
  intros Hc W h w t1 ev t2. rewrite run_ext.
  destruct (h c w) as [[e|v] w1]; unfold trace_of; simpl; intros Ht [Hd _];
    (destruct t1 as [|e1 t1]; simpl in Ht;
     [injection Ht as <- _; now rewrite Hc in Hd
     |injection Ht as _ Ht; now destruct t1]).
Qed.

Lemma stops_bind {A B : Type} (p : prog A) (f : A -> prog B) :
  stops_on_empty_key p -> (forall a, stops_on_empty_key (f a)) ->
  stops_on_empty_key (bind p f).
Proof.
  intros Hp Hf W h w t1 ev t2. rewrite run_bind.
  specialize (Hp W h w).
  destruct (run h p w) as [[[a|e] w1] tp]; unfold outcome_of, trace_of in *;
    simpl in *.
  2: { intros Ht Hev. destruct (Hp t1 ev t2 Ht Hev) as [H1 H2].
       split; [exact H1|]. injection H2 as ->. reflexivity. }
  specialize (Hf a W h w1).
  destruct (run h (f a) w1) as [[out w2] tf]. simpl in *.
  intros Ht Hev. apply app_eq_app in Ht as [l [[H1 H2]|[H1 H2]]].
  - destruct l as [|e0 l]; simpl in H2.
    + apply (Hf [] ev t2); auto.
    + injection H2 as -> ->.
      destruct (Hp t1 e0 l H1 Hev) as [_ Hfail]. discriminate Hfail.
  - subst t1. apply (Hf l ev t2); auto.
Qed.

Lemma stops_for_each {A T : Type} (l : list A) (body : A -> T -> prog T) :
  (forall a acc, stops_on_empty_key (body a acc)) ->
  forall acc, stops_on_empty_key (for_each l body acc).
Proof.
  intros Hb. induction l as [|a l IH]; intros acc; simpl.
  - apply stops_ret.
  - apply stops_bind; auto.
Qed.

Lemma stops_getitem {V : Type} (d : dict V) (k : string) :
  stops_on_empty_key (getitem d k).
Proof. unfold getitem. destruct (get d k); [apply stops_ret|apply stops_raise]. Qed.

Lemma stops_index {A : Type} (l : list A) (i : nat) : stops_on_empty_key (index l i).
Proof.
  unfold index. destruct (nth_error l i); [apply stops_ret|apply stops_raise].
Qed.

Lemma stops_assert (b : bool) (msg : string) : stops_on_empty_key (assert b msg).
Proof. unfold assert. destruct b; [apply stops_ret|apply stops_raise]. Qed.

(** A registration whose answer decides whether the program goes on. *)
Lemma stops_checked_registration {B : Type} (c : call) (f : resp c -> prog B) :
  (forall (v : resp c) (W : Type) (h : platform W) (w : W),
      empty_key (Ev c (inr v)) ->
      run h (f v) w = (Fail (AssertionError "Missing dataset key"), w, [])) ->
  (forall v, stops_on_empty_key (f v)) ->
  stops_on_empty_key (bind (ext c) f).
Proof.
  intros Hempty Hf W h w t1 ev t2. rewrite run_bind, run_ext.
  destruct (h c w) as [[e|v] w1]; unfold outcome_of, trace_of; simpl.
  - intros Ht [_ Hk].
    destruct t1 as [|e1 t1]; simpl in Ht;
      [injection Ht as <- _; destruct c; discriminate Hk
      |injection Ht as _ Ht; now destruct t1].
  - specialize (Hf v W h w1). specialize (Hempty v W h w1).
    destruct (run h (f v) w1) as [[out w2] tf] eqn:E.
    unfold outcome_of, trace_of in *. simpl in *.
    intros Ht Hev. destruct t1 as [|e1 t1]; simpl in Ht.
    + injection Ht as <- <-. specialize (Hempty Hev).
      injection Hempty as -> _ ->. auto.
    + injection Ht as _ Ht. apply (Hf t1 ev t2); auto.
Qed.

Ltac stops_step :=
  lazymatch goal with
  | |- stops_on_empty_key (bind ?p ?f) => apply (stops_bind p f); [|intros ?]
  | |- stops_on_empty_key (Ret ?r) => apply (stops_ret r)
  | |- stops_on_empty_key (Raise ?e) => apply (stops_raise e)
  | |- stops_on_empty_key (ext ?c) => apply (stops_ext c); intros ?; reflexivity
  | |- stops_on_empty_key (getitem ?d ?k) => apply (stops_getitem d k)
  | |- stops_on_empty_key (index ?l ?i) => apply (stops_index l i)
  | |- stops_on_empty_key (assert ?b ?m) => apply (stops_assert b m)
  | |- stops_on_empty_key (for_each ?l ?body ?acc) =>
      apply (stops_for_each l body); intros ? ?
  | |- stops_on_empty_key (match client ?r with _ => _ end) => destruct (client r)
  | |- stops_on_empty_key (EvaluationStrategy_init ?l _) =>
      unfold EvaluationStrategy_init; destruct l
  end.

Lemma register_org_stops (o : Orgs) (ix : nat * org_id) (r : Registered) :
  stops_on_empty_key (register_org o ix r).
Proof.
  destruct ix as [i org]. unfold register_org.
  apply stops_bind; [apply stops_getitem|intros c].
  apply stops_checked_registration.
  - intros k W h w [_ Hk]. simpl in Hk. injection Hk as ->.
    unfold getitem. rewrite !get_set_same. reflexivity.
  - intros k. repeat stops_step.
Qed.

Lemma script_stops_on_empty_key : stops_on_empty_key script.
Proof.
  unfold script, setup, main, prepare_data, register_datasets, register_metric,
    explore, plot_worker, add_train_node, add_test_node.
  repeat
    lazymatch goal with
    | |- stops_on_empty_key (register_org ?o ?ix ?r) =>
        apply (register_org_stops o ix r)
    | |- _ => stops_step
    end.
Qed.

(** X17. A dataset registration that returns the empty key is the last
    call of the run, and the script ends with the assertion failure
    [Missing dataset key]: no data sample is registered under an empty
    dataset key. *)
Theorem empty_dataset_key_stops_script :
  forall (W : Type) (h : platform W) (w : W) (t1 : trace) (ev : event)
         (t2 : trace),
    trace_of (run h script w) = t1 ++ ev :: t2 ->
    dataset_request ev <> None ->
    returned_key ev = Some "" ->
    t2 = []
    /\ outcome_of (run h script w) = Fail (AssertionError "Missing dataset key").
Proof.
  intros W h w t1 ev t2 Ht Hd Hk.
  apply (script_stops_on_empty_key W h w t1 ev t2 Ht). split; assumption.
Qed.

Lemma empty_dataset_key_stops_script_witness :
  skipn 9 (trace_of (run empty_key_platform script fresh_world)) = []
  /\ outcome_of (run empty_key_platform script fresh_world)
     = Fail (AssertionError "Missing dataset key").
Proof.
  destruct (skipn 8 (trace_of (run empty_key_platform script fresh_world)))
    as [|e t2] eqn:E; [vm_compute in E; discriminate E|].
  assert (Ht : trace_of (run empty_key_platform script fresh_world)
               = firstn 8 (trace_of (run empty_key_platform script fresh_world))
                 ++ e :: t2).
  { rewrite <- E. symmetry. apply firstn_skipn. }
  assert (Ht2 : skipn 9 (trace_of (run empty_key_platform script fresh_world)) = t2).
  { change 9%nat with (1 + 8)%nat. rewrite <- skipn_skipn, E. reflexivity. }
  rewrite Ht2.
  apply (empty_dataset_key_stops_script world empty_key_platform fresh_world
           _ e t2 Ht);
    vm_compute in E; injection E as <- _; [discriminate|reflexivity].
Defined.

(** X18. The script ends with an assertion failure only for the dataset
    key: when that happens the message is [Missing dataset key] and the
    last call of the run is a dataset registration that returned the empty
    key. *)
Theorem assertion_only_after_empty_dataset_key :
  forall (W : Type) (h : platform W) (w : W) (m : string),
    outcome_of (run h script w) = Fail (AssertionError m) ->
    m = "Missing dataset key"
    /\ exists t1 ev,
         trace_of (run h script w) = t1 ++ [ev]
         /\ dataset_request ev <> None
         /\ returned_key ev = Some "".
Proof.
  intros W h w m H.
  destruct (script_asserts_on_empty_key W h w m H) as (Hm & t1 & ev & Ht & Hd & Hk).
  split; [exact Hm|]. exists t1, ev. auto.
Qed.

Lemma assertion_only_after_empty_dataset_key_witness :
  exists t1 ev,
    trace_of (run empty_key_platform script fresh_world) = t1 ++ [ev]
    /\ dataset_request ev <> None
    /\ returned_key ev = Some "".
Proof.
  apply (assertion_only_after_empty_dataset_key world empty_key_platform
           fresh_world "Missing dataset key").
  vm_compute. reflexivity.
Defined.

(* ===================================================================== *)
(** ** When the script runs to its end *)
(* ===================================================================== *)

(** X19. The script runs to its end whenever no external call fails, no
    dataset registration returns the empty key and the setup finds at
    least one data provider: nothing else can stop it. *)
Theorem script_returns_when_platform_cooperates :
  forall (W : Type) (h : platform W) (w : W),
    failures (trace_of (run h script w)) = [] ->
    (forall ev, In ev (trace_of (run h script w)) ->
                dataset_request ev <> None -> returned_key ev <> Some "") ->
    (forall o w1 t1, run h setup w = (Ok o, w1, t1) ->
                     DATA_PROVIDER_ORGS_ID o <> []) ->
    exists r, outcome_of (run h script w) = Ok r.
Proof.
  intros W h w Hfail Hkeys Hdata.
  destruct (outcome_of (run h script w)) as [r|f] eqn:E; [eauto|].
  exfalso.
  assert (Hf : (exists x, f = External x)
               \/ f = AssertionError "Missing dataset key"
               \/ ((exists msg, f = ValueError msg)
                   /\ exists o w1 t1, run h setup w = (Ok o, w1, t1)
                                      /\ DATA_PROVIDER_ORGS_ID o = [])).
  { destruct (script_outcome h w)
      as [(x & w1 & t1 & Hs & Ho)|(o & w1 & t1 & Hs & Ho)]; rewrite Ho in E.
    - injection E as <-. left. apply (setup_raises W h w x). now rewrite Hs.
    - assert (Hret : returns setup o) by (exists W, h, w, w1, t1; exact Hs).
      destruct (main_raises o Hret W h w1 f E) as [Hx|[Ha|[Hn Hd]]]; auto.
      right. right. split; [exact Hn|]. exists o, w1, t1. auto. }
  destruct Hf as [[x ->]|[->|[_ (o & w1 & t1 & Hs & Hd)]]].
  - destruct (script_genuine W h w x E) as (t1 & ev & Ht & Hev).
    rewrite failures_nil_iff in Hfail.
    assert (Hin : In ev (trace_of (run h script w))).
    { rewrite Ht. apply in_or_app. right. now left. }
    rewrite (Hfail ev Hin) in Hev. discriminate.
  - destruct (script_asserts_on_empty_key W h w _ E)
      as (_ & t1 & ev & Ht & Hd & Hk).
    apply (Hkeys ev); auto.
    rewrite Ht. apply in_or_app. right. now left.
  - exact (Hdata o w1 t1 Hs Hd).
Qed.

Lemma script_returns_when_platform_cooperates_witness :
  exists r, outcome_of local_run = Ok r.
Proof.
  apply (script_returns_when_platform_cooperates world local_platform fresh_world).
  - vm_compute. reflexivity.
  - intros ev Hin Hd.
    vm_compute in Hin.
    repeat (destruct Hin as [<-|Hin]; [try (exfalso; apply Hd; reflexivity);
                                        discriminate|]).
    destruct Hin.
  - intros o w1 t1 Hs. vm_compute in Hs. injection Hs as <- _ _. discriminate.
Defined.
